(** * ChadJaew2: process supervisor and capture lifecycle manager

    A shallow embedding of the two stateful cores of the telescope camera
    server:

    - [Supervisor]: the MediaMTX restart-with-backoff logic of the server
      entry point ([startMediaMTX], [scheduleRestart], [stopMediaMTX],
      [resetRestartState] and the handlers they install);
    - [Capture]: the class [CaptureService] of
      [src/camera/captureService.js], with [NodePath] for the [path.join]
      it relies on.

    Node's event loop is modelled by explicit state passing: every callback
    of the source is a function on the state, and the environment chooses
    which callback runs next (a process exits, a timer fires, a signal
    arrives).  *)

From Stdlib Require Import ZArith Lia List Bool Ascii String Sorted.
From stdpp Require Import base option list strings gmap pretty.
Import ListNotations.
Open Scope Z_scope.

(* ===================================================================== *)
(** * Process supervisor (the server entry point)                         *)
(* ===================================================================== *)

Module Supervisor.

(** [MEDIAMTX_RESTART] *)
Record RestartConfig := {
  initialDelay : Z;
  maxDelay : Z;
  maxRestarts : Z;
  resetAfter : Z
}.

Definition MEDIAMTX_RESTART : RestartConfig :=
  {| initialDelay := 2000; maxDelay := 60000;
     maxRestarts := 10; resetAfter := 300000 |}.

(** [restartState]; [lastStableTime] is [null] or a [Date.now()] value. *)
Record RestartState := {
  count : Z;
  delay : Z;
  lastStableTime : option Z
}.

(** A child process object returned by [spawn]. *)
Definition pid := nat.

(** The two functions the source hands to [setTimeout]. *)
Inductive Callback :=
  | CbStartMediaMTX      (* setTimeout(startMediaMTX, restartState.delay) *)
  | CbStabilityCheck.    (* the arrow function armed by startMediaMTX *)

(** A pending timer.  [armedFor] is a ghost field: the value of
    [mediamtxProcess] when the timer was armed.  The source keeps no such
    reference and no callback reads it. *)
Record Timer := {
  timerId : nat;
  due : Z;
  callback : Callback;
  armedFor : option pid
}.

(** What [broadcast(type, data)] sends to the WebSocket clients. *)
Inductive Message :=
  | StreamError (error : string)
  | StreamStopped (code : option Z).

(** Observable actions, oldest first. *)
Inductive Effect :=
  | Spawn (p : pid)
  | Kill (p : pid)                         (* kill('SIGTERM') *)
  | Broadcast (m : Message)
  | SetTimeout (cb : Callback) (ms : Z).

(** The module-level variables of the server together with the part of the
    runtime they interact with. *)
Record Sup := {
  restartState : RestartState;
  mediamtxProcess : option pid;
  timers : list Timer;       (* callbacks registered and not yet run *)
  clock : Z;                 (* Date.now() *)
  nextPid : pid;
  nextTimer : nat;
  running : list pid;        (* children whose 'exit' is still to come *)
  trace : list Effect
}.

Definition setRestartState (rs : RestartState) (s : Sup) : Sup :=
  {| restartState := rs; mediamtxProcess := mediamtxProcess s;
     timers := timers s; clock := clock s; nextPid := nextPid s;
     nextTimer := nextTimer s; running := running s; trace := trace s |}.

Definition setProcess (h : option pid) (s : Sup) : Sup :=
  {| restartState := restartState s; mediamtxProcess := h;
     timers := timers s; clock := clock s; nextPid := nextPid s;
     nextTimer := nextTimer s; running := running s; trace := trace s |}.

Definition emit (e : Effect) (s : Sup) : Sup :=
  {| restartState := restartState s; mediamtxProcess := mediamtxProcess s;
     timers := timers s; clock := clock s; nextPid := nextPid s;
     nextTimer := nextTimer s; running := running s;
     trace := trace s ++ [e] |}.

Definition broadcast (m : Message) (s : Sup) : Sup := emit (Broadcast m) s.

(** [setTimeout(cb, ms)] *)
Definition setTimeout (cb : Callback) (ms : Z) (s : Sup) : Sup :=
  let t := {| timerId := nextTimer s; due := clock s + ms;
              callback := cb; armedFor := mediamtxProcess s |} in
  emit (SetTimeout cb ms)
    {| restartState := restartState s; mediamtxProcess := mediamtxProcess s;
       timers := timers s ++ [t]; clock := clock s; nextPid := nextPid s;
       nextTimer := S (nextTimer s); running := running s;
       trace := trace s |}.

(** [mediamtxProcess = spawn('mediamtx', ...)]: a fresh child object. *)
Definition spawn (s : Sup) : Sup :=
  let p := nextPid s in
  emit (Spawn p)
    {| restartState := restartState s; mediamtxProcess := Some p;
       timers := timers s; clock := clock s; nextPid := S p;
       nextTimer := nextTimer s; running := running s ++ [p];
       trace := trace s |}.

Section WithConfig.

Variable cfg : RestartConfig.

(** [resetRestartState] *)
Definition resetRestartState (s : Sup) : Sup :=
  setRestartState
    {| count := 0; delay := initialDelay cfg; lastStableTime := None |} s.

(** [startMediaMTX]: spawn, install the handlers (they are [onError] and
    [onExit] below), stamp [lastStableTime] and arm the stability timer. *)
Definition startMediaMTX (s : Sup) : Sup :=
  let s1 := spawn s in
  let rs := restartState s1 in
  let s2 := setRestartState
              {| count := count rs; delay := delay rs;
                 lastStableTime := Some (clock s1) |} s1 in
  setTimeout CbStabilityCheck (resetAfter cfg) s2.

(** JavaScript truthiness of [restartState.lastStableTime]. *)
Definition truthy (t : option Z) : bool :=
  match t with
  | Some v => negb (v =? 0)
  | None => false
  end.

(** The callback armed at the end of [startMediaMTX]. *)
Definition stabilityCheck (s : Sup) : Sup :=
  match mediamtxProcess s, lastStableTime (restartState s) with
  | Some _, Some t =>
      if truthy (Some t) then
        let runningTime := clock s - t in
        if resetAfter cfg <=? runningTime then resetRestartState s else s
      else s
  | _, _ => s
  end.

(** [scheduleRestart] *)
Definition scheduleRestart (s : Sup) : Sup :=
  let rs := restartState s in
  let s1 := setRestartState
              {| count := count rs + 1; delay := delay rs;
                 lastStableTime := lastStableTime rs |} s in
  if maxRestarts cfg <? count (restartState s1) then
    broadcast (StreamError "MediaMTX failed too many times") s1
  else
    let rs1 := restartState s1 in
    let s2 := setTimeout CbStartMediaMTX (delay rs1) s1 in
    setRestartState
      {| count := count rs1;
         delay := Z.min (delay rs1 * 2) (maxDelay cfg);
         lastStableTime := lastStableTime rs1 |} s2.

(** [stopMediaMTX] *)
Definition stopMediaMTX (s : Sup) : Sup :=
  match mediamtxProcess s with
  | Some p => setProcess None (emit (Kill p) s)
  | None => s
  end.

(** [mediamtxProcess.on('exit', ...)]; [code] is [null] when the child was
    ended by a signal, and [null !== 0]. *)
Definition onExit (code : option Z) (s : Sup) : Sup :=
  let s1 := broadcast (StreamStopped code) s in
  match code with
  | Some 0 => s1
  | _ => scheduleRestart s1
  end.

(** [mediamtxProcess.on('error', ...)] *)
Definition onError (msg : string) (s : Sup) : Sup :=
  broadcast (StreamError msg) s.

(** ** The event loop *)

Inductive Event :=
  | ProcExit (p : pid) (code : option Z)   (* 'exit' of a running child *)
  | ProcError (p : pid) (msg : string)     (* 'error' of a running child *)
  | TimerFires (id : nat)                  (* a pending timer runs *)
  | Elapse (ms : Z)                        (* time passes *)
  | Shutdown.                              (* SIGINT / SIGTERM: stopMediaMTX *)

Definition isRunning (p : pid) (s : Sup) : bool :=
  List.existsb (Nat.eqb p) (running s).

Definition findTimer (id : nat) (s : Sup) : option Timer :=
  List.find (fun t => Nat.eqb (timerId t) id) (timers s).

Definition removeRunning (p : pid) (s : Sup) : Sup :=
  {| restartState := restartState s; mediamtxProcess := mediamtxProcess s;
     timers := timers s; clock := clock s; nextPid := nextPid s;
     nextTimer := nextTimer s;
     running := List.filter (fun q => negb (Nat.eqb q p)) (running s);
     trace := trace s |}.

(** Take timer [t] off the queue; the clock is at least its due time. *)
Definition popTimer (t : Timer) (s : Sup) : Sup :=
  {| restartState := restartState s; mediamtxProcess := mediamtxProcess s;
     timers := List.filter (fun u => negb (Nat.eqb (timerId u) (timerId t)))
                      (timers s);
     clock := Z.max (clock s) (due t); nextPid := nextPid s;
     nextTimer := nextTimer s; running := running s; trace := trace s |}.

Definition advance (ms : Z) (s : Sup) : Sup :=
  {| restartState := restartState s; mediamtxProcess := mediamtxProcess s;
     timers := timers s; clock := clock s + Z.max 0 ms;
     nextPid := nextPid s; nextTimer := nextTimer s;
     running := running s; trace := trace s |}.

Definition runCallback (cb : Callback) (s : Sup) : Sup :=
  match cb with
  | CbStartMediaMTX => startMediaMTX s
  | CbStabilityCheck => stabilityCheck s
  end.

(** One turn of the event loop.  An event that cannot happen (the exit of
    a child that is not running, a timer that is not pending) leaves the
    state as it is. *)
Definition step (s : Sup) (e : Event) : Sup :=
  match e with
  | ProcExit p code =>
      if isRunning p s then onExit code (removeRunning p s) else s
  | ProcError p msg =>
      if isRunning p s then onError msg s else s
  | TimerFires id =>
      match findTimer id s with
      | Some t => runCallback (callback t) (popTimer t s)
      | None => s
      end
  | Elapse ms => advance ms s
  | Shutdown => stopMediaMTX s
  end.

Definition run (s : Sup) (evs : list Event) : Sup := fold_left step evs s.

(** The state when the module has been loaded, at time [t0]. *)
Definition loaded (t0 : Z) : Sup :=
  {| restartState :=
       {| count := 0; delay := initialDelay cfg; lastStableTime := None |};
     mediamtxProcess := None; timers := []; clock := t0;
     nextPid := 0%nat; nextTimer := 0%nat; running := []; trace := [] |}.

(** The [server.listen] callback calls [startMediaMTX] once. *)
Definition boot (t0 : Z) : Sup := startMediaMTX (loaded t0).

(** The delays of the restarts scheduled so far, in order. *)
Definition restartDelays (tr : list Effect) : list Z :=
  omap (fun e => match e with
                 | SetTimeout CbStartMediaMTX ms => Some ms
                 | _ => None
                 end) tr.

(** The children spawned so far, in order. *)
Definition spawns (tr : list Effect) : list pid :=
  omap (fun e => match e with Spawn p => Some p | _ => None end) tr.

Definition isRestartTimer (t : Timer) : bool :=
  match callback t with
  | CbStartMediaMTX => true
  | CbStabilityCheck => false
  end.

(** Number of restarts scheduled and not yet run. *)
Definition pendingRestarts (s : Sup) : nat :=
  length (List.filter isRestartTimer (timers s)).

(** The permanent-failure event of [scheduleRestart]. *)
Definition failureText : string := "MediaMTX failed too many times".

Definition isPermanentFailure (e : Effect) : bool :=
  match e with
  | Broadcast (StreamError m) => String.eqb m failureText
  | _ => false
  end.

Definition permanentFailures (tr : list Effect) : nat :=
  length (List.filter isPermanentFailure tr).

(** [n] crashes in a row: the running child exits with the next code and
    the restart that this exit scheduled, if any, fires; no other timer
    runs in between. *)
Fixpoint crashLoop (codes : list (option Z)) (s : Sup) : Sup :=
  match codes with
  | [] => s
  | c :: cs =>
      match mediamtxProcess s with
      | Some p =>
          crashLoop cs (run s [ProcExit p c; TimerFires (nextTimer s)])
      | None => s
      end
  end.

(** The guard of the stability callback, as one condition. *)
Definition resetDue (s : Sup) : bool :=
  match mediamtxProcess s, lastStableTime (restartState s) with
  | Some _, Some t => negb (t =? 0) && (resetAfter cfg <=? clock s - t)
  | _, _ => false
  end.

(** [min(initialDelay * 2^k, maxDelay)] *)
Definition backoff (k : nat) : Z :=
  Z.min (initialDelay cfg * 2 ^ Z.of_nat k) (maxDelay cfg).

(** [t0] is the time of the first [startMediaMTX]. *)
Definition Inv (t0 : Z) (s : Sup) : Prop :=
  t0 <= clock s /\
  (length (running s) + pendingRestarts s <= 1)%nat /\
  (forall p, mediamtxProcess s = Some p -> (p < nextPid s)%nat) /\
  (forall t p, In t (timers s) -> armedFor t = Some p -> (p < nextPid s)%nat) /\
  (forall t p, In t (timers s) -> callback t = CbStabilityCheck ->
     armedFor t = Some p -> mediamtxProcess s = Some p ->
     isRunning p s = true ->
     (lastStableTime (restartState s) = Some (due t - resetAfter cfg) /\
      t0 <= due t - resetAfter cfg) \/
     (count (restartState s) = 0 /\ delay (restartState s) = initialDelay cfg)).

(** An 'error' event whose message is the text of the permanent-failure
    broadcast would be indistinguishable from it on the wire; Node's own
    messages ("spawn mediamtx ENOENT", ...) never are. *)
Definition forged (e : Event) : bool :=
  match e with
  | ProcError _ msg => String.eqb msg failureText
  | _ => false
  end.

(** No child is running and no restart is pending: nothing can start the
    media server again. *)
Definition Halted (s : Sup) : Prop :=
  running s = [] /\ pendingRestarts s = 0%nat.

(** Effects that neither schedule a restart, nor spawn, nor report a
    permanent failure. *)
Definition harmless (tr : list Effect) : Prop :=
  restartDelays tr = [] /\ spawns tr = [] /\ permanentFailures tr = 0%nat.

(** At most one permanent-failure broadcast, and once it is out the
    supervisor is halted. *)
Definition InvFailure (s : Sup) : Prop :=
  (permanentFailures (trace s) = 0%nat /\
   count (restartState s) <= maxRestarts cfg) \/
  (permanentFailures (trace s) = 1%nat /\ Halted s).

(** In the middle of a crash loop: the held child runs, [k] restarts have
    been scheduled in a row and timer ids below [nextTimer] are taken. *)
Definition Crashing (k : nat) (s : Sup) : Prop :=
  (exists p, mediamtxProcess s = Some p /\ isRunning p s = true) /\
  count (restartState s) = Z.of_nat k /\
  delay (restartState s) = backoff k /\
  (forall t, In t (timers s) -> (timerId t < nextTimer s)%nat).

(** The held child has exited and nothing was scheduled after it. *)
Definition Stuck (s : Sup) : Prop :=
  (forall p, mediamtxProcess s = Some p -> isRunning p s = false) /\
  (forall t, In t (timers s) -> (timerId t < nextTimer s)%nat).

(** The events of [n] crashes in a row after [boot]: child [k] exits with
    code 1 and the restart it caused, timer [2k+1], fires. *)
Definition crashes (n : nat) : list Event :=
  flat_map (fun k => [ProcExit k (Some 1); TimerFires (2 * k + 1)%nat])
           (seq 0 n).

(** ** The specification's sentences, as written *)

(** "calling stop() must cancel any scheduled restart": after
    [stopMediaMTX] no restart is pending, the handle is cleared and no
    later event spawns a child. *)
Definition Spec_stop_cancels_restart : Prop :=
  forall (t0 : Z) (evs : list Event),
    let s := run (boot t0) evs in
    (0 < pendingRestarts s)%nat ->
    let s' := stopMediaMTX s in
    pendingRestarts s' = 0%nat /\
    mediamtxProcess s' = None /\
    forall evs', spawns (trace (run s' evs')) = spawns (trace s').

(** "the nth scheduled restart delay equals min(initialDelay * 2^n,
    maxDelay)" for all [n <= maxRestarts], counting restarts from 0 as
    the sequence 2000, 4000, ... does: the nth restart is the one
    scheduled by the (n+1)th crash in a row. *)
Definition Spec_nth_delay (t0 : Z) (code : option Z) : Prop :=
  forall n : nat,
    Z.of_nat n <= maxRestarts cfg ->
    restartDelays (trace (crashLoop (repeat code (S n)) (boot t0))) !! n
      = Some (backoff n).

(** The same sentence counting restarts from 1. *)
Definition Spec_nth_delay_from_1 (t0 : Z) (code : option Z) : Prop :=
  forall n : nat,
    (1 <= n)%nat -> Z.of_nat n <= maxRestarts cfg ->
    restartDelays (trace (crashLoop (repeat code n) (boot t0))) !! (n - 1)%nat
      = Some (backoff n).

(** "the stability timer performs this reset only when, at the moment it
    fires, the process handle is still the same one that was started when
    the timer was armed and it has been running continuously". *)
Definition Spec_reset_only_if_still_running : Prop :=
  forall (t0 : Z) (evs : list Event) (id : nat) (t : Timer),
    0 < t0 ->
    let s := run (boot t0) evs in
    findTimer id s = Some t ->
    callback t = CbStabilityCheck ->
    restartState (step s (TimerFires id)) <> restartState s ->
    mediamtxProcess s = armedFor t /\
    exists p, armedFor t = Some p /\ isRunning p s = true.

End WithConfig.

End Supervisor.

(* ===================================================================== *)
(** * Node's path module (POSIX flavour)                                  *)
(* ===================================================================== *)

(** [path.join] belongs to the Node runtime, not to this repository; it is
    modelled after [lib/path.js]: the arguments are glued with a slash and
    the result is normalised segment by segment. *)
Module NodePath.

Definition slash : ascii := "/"%char.

(** The pieces of a path between slashes, empty pieces included. *)
Fixpoint segments (s : string) : list string :=
  match s with
  | EmptyString => [EmptyString]
  | String c s' =>
      if Ascii.eqb c slash then EmptyString :: segments s'
      else match segments s' with
           | seg :: rest => String c seg :: rest
           | [] => [String c EmptyString]
           end
  end.

(** [normalizeString]: [stack] holds the segments kept so far, last one
    first.  Empty and "." segments vanish, ".." removes the segment before
    it, or is kept when there is none and the path is relative. *)
Fixpoint normalizeSegments (allowAboveRoot : bool) (stack segs : list string)
  : list string :=
  match segs with
  | [] => rev stack
  | seg :: rest =>
      if String.eqb seg "" || String.eqb seg "." then
        normalizeSegments allowAboveRoot stack rest
      else if String.eqb seg ".." then
        match stack with
        | top :: below =>
            if String.eqb top ".." then
              normalizeSegments allowAboveRoot
                (if allowAboveRoot then ".."%string :: stack else stack) rest
            else normalizeSegments allowAboveRoot below rest
        | [] =>
            normalizeSegments allowAboveRoot
              (if allowAboveRoot then [".."%string] else []) rest
        end
      else normalizeSegments allowAboveRoot (seg :: stack) rest
  end.

(** ["/a/b"] from [["a"; "b"]]. *)
Fixpoint absPath (segs : list string) : string :=
  match segs with
  | [] => EmptyString
  | seg :: rest => String slash (seg ++ absPath rest)
  end.

(** ["a/b"] from [["a"; "b"]]. *)
Definition joinSegments (segs : list string) : string :=
  match segs with
  | [] => EmptyString
  | seg :: rest => (seg ++ absPath rest)%string
  end.

Fixpoint endsWithSlash (s : string) : bool :=
  match s with
  | EmptyString => false
  | String c EmptyString => Ascii.eqb c slash
  | String _ s' => endsWithSlash s'
  end.

Definition isAbsolute (s : string) : bool :=
  match s with
  | String c _ => Ascii.eqb c slash
  | EmptyString => false
  end.

(** [path.normalize] *)
Definition normalize (path : string) : string :=
  if String.eqb path "" then "."%string
  else
    let p := joinSegments
               (normalizeSegments (negb (isAbsolute path)) [] (segments path)) in
    if String.eqb p "" then
      if isAbsolute path then "/"%string
      else if endsWithSlash path then "./"%string else "."%string
    else
      let p' := if endsWithSlash path then (p ++ "/")%string else p in
      if isAbsolute path then String slash p' else p'.

(** [path.join(a, b)] *)
Definition join (a b : string) : string :=
  let joined :=
    if String.eqb a "" then b
    else if String.eqb b "" then a
    else (a ++ String slash b)%string in
  if String.eqb joined "" then "."%string else normalize joined.

(** A plain file or directory name. *)
Fixpoint noSlash (s : string) : bool :=
  match s with
  | EmptyString => true
  | String c s' => negb (Ascii.eqb c slash) && noSlash s'
  end.

Definition isName (s : string) : bool :=
  noSlash s && negb (String.eqb s "") && negb (String.eqb s ".")
  && negb (String.eqb s "..").

(** [p] lies strictly below the directory [dir]. *)
Definition isInside (dir p : string) : bool :=
  String.prefix (dir ++ "/") p.

End NodePath.

(* ===================================================================== *)
(** * Capture lifecycle manager (src/camera/captureService.js)            *)
(* ===================================================================== *)

Module Capture.
Import NodePath.

(** ** JavaScript values used by the service *)

(** The result of [parseInt]. *)
Inductive JSNumber :=
  | Num (z : Z)
  | NaN.

(** A number inside a template literal. *)
Definition showNumber (n : JSNumber) : string :=
  match n with
  | Num z => pretty z
  | NaN => "NaN"
  end.

(** [a >= b]; every comparison with [NaN] is false. *)
Definition geNumber (n : JSNumber) (b : Z) : bool :=
  match n with
  | Num z => b <=? z
  | NaN => false
  end.

(** A settled promise: the value it resolved with, or the message of the
    [Error] it was rejected with. *)
Inductive Outcome (A : Type) :=
  | Resolved (a : A)
  | Rejected (message : string).
Arguments Resolved {A} a.
Arguments Rejected {A} message.

(** [s.startsWith(p)] *)
Definition startsWith (s p : string) : bool := String.prefix p s.

(** [s.slice(-n)] *)
Definition sliceLast (n : nat) (s : string) : string :=
  String.substring (String.length s - n) n s.

(** [s.replace(/[:.]/g, '-')] *)
Fixpoint dashColonsAndDots (s : string) : string :=
  match s with
  | EmptyString => EmptyString
  | String c s' =>
      String (if Ascii.eqb c ":" || Ascii.eqb c "." then "-"%char else c)
             (dashColonsAndDots s')
  end.

(** [s.replace('M', '')]: the first occurrence only. *)
Fixpoint dropFirstM (s : string) : string :=
  match s with
  | EmptyString => EmptyString
  | String c s' => if Ascii.eqb c "M" then s' else String c (dropFirstM s')
  end.

Definition isWhite (c : ascii) : bool :=
  let n := nat_of_ascii c in
  Nat.eqb n 32 || (Nat.leb 9 n && Nat.leb n 13).

Definition digitOf (c : ascii) : option Z :=
  let n := nat_of_ascii c in
  if Nat.leb 48 n && Nat.leb n 57 then Some (Z.of_nat (n - 48)) else None.

Fixpoint skipWhite (s : string) : string :=
  match s with
  | String c s' => if isWhite c then skipWhite s' else s
  | EmptyString => EmptyString
  end.

(** The longest run of decimal digits at the front of [s], read with [acc]
    as the value so far; [None] when there is no digit. *)
Fixpoint readDigits (acc : option Z) (s : string) : option Z :=
  match s with
  | EmptyString => acc
  | String c s' =>
      match digitOf c with
      | Some d => readDigits (Some (10 * default 0 acc + d)) s'
      | None => acc
      end
  end.

(** [parseInt(s, 10)] *)
Definition parseInt (s : string) : JSNumber :=
  let t := skipWhite s in
  let '(sign, body) :=
    match t with
    | String "-" r => (-1, r)
    | String "+" r => (1, r)
    | _ => (1, t)
    end in
  match readDigits None body with
  | Some v => Num (sign * v)
  | None => NaN
  end.

(** ** The service and its surroundings *)

Definition pid := nat.

Definition MIN_DISK_SPACE_MB : Z := 500.

(** The fields of a [CaptureService] object. *)
Record CaptureService := {
  recordingProcess : option pid;
  isRecording : bool;
  currentVideoFile : option string;
  recordingStartTime : option Z
}.

(** [constructor()] *)
Definition constructor : CaptureService :=
  {| recordingProcess := None; isRecording := false;
     currentVideoFile := None; recordingStartTime := None |}.

(** What the service does to the outside world. *)
Inductive Action :=
  | HttpGet                              (* http.get(MEDIAMTX_API) *)
  | Sleep (ms : Z)                       (* await setTimeout(r, ms) *)
  | ExecDf                               (* execAsync(`df -BM ...`) *)
  | ExecFfmpegPhoto (path : string)      (* execAsync(`ffmpeg ... -frames:v 1`) *)
  | SpawnFfmpeg (p : pid) (path : string)
  | Stat (path : string)
  | Access (path : string)
  | Unlink (path : string)
  | StdinWrite (p : pid) (data : string)
  | StdinEnd (p : pid)
  | Kill (p : pid)                       (* kill('SIGTERM') *)
  | SetTimeout (ms : Z)
  | ClearTimeout.

(** The outside world: the files on disk with their sizes, the clock and
    the actions performed so far, oldest first. *)
Record World := {
  fs : gmap string Z;
  now : Z;
  actions : list Action
}.

Definition act (a : Action) (w : World) : World :=
  {| fs := fs w; now := now w; actions := actions w ++ [a] |}.

Definition sleep (ms : Z) (w : World) : World :=
  {| fs := fs w; now := now w + ms; actions := actions w ++ [Sleep ms] |}.

Definition setFs (f : gmap string Z) (w : World) : World :=
  {| fs := f; now := now w; actions := actions w |}.

(** What the environment answers during one call. *)
Record Env := {
  (** does the [n]th health probe of the call (from 1) find the
      'telescope' path ready; request errors, timeouts and unparsable
      answers all count as "no" *)
  probe : nat -> bool;
  (** stdout of the [df] pipeline when [execAsync] resolves, which it
      does whenever [awk], the last command, ends with status 0; [None]
      when [execAsync] rejects *)
  dfOutput : option string;
  (** [new Date().toISOString()] when the file name is generated and when
      the result object is built *)
  isoTime : string;
  isoLater : string;
  (** the one-shot capture command run on a path: the files afterwards,
      and the diagnostic ([error.stderr || error.stdout || error.message])
      when it fails or times out *)
  ffmpegPhoto : string -> gmap string Z -> gmap string Z * option string;
  (** the child object the next [spawn] returns *)
  freshPid : pid
}.

(** A name that passes the prefix check of [getFilePath] and climbs out of
    the photos directory. *)
Definition escapingName : string := "photo_/../../../mediamtx.yml".

(** An environment in which the stream is never ready and the [df]
    pipeline is rejected. *)
Definition deadEnv : Env :=
  {| probe := fun _ => false; dfOutput := None;
     isoTime := "2024-05-06T07:08:09.123Z";
     isoLater := "2024-05-06T07:08:12.456Z";
     ffmpegPhoto := fun path files => (<[path := 1024]> files, None);
     freshPid := 7%nat |}.

(** An environment in which the stream is ready at the second probe and
    the [df] pipeline is rejected. *)
Definition noDfEnv : Env :=
  {| probe := fun n => Nat.eqb n 2; dfOutput := None;
     isoTime := "2024-05-06T07:08:09.123Z";
     isoLater := "2024-05-06T07:08:12.456Z";
     ffmpegPhoto := fun path files => (<[path := 1024]> files, None);
     freshPid := 7%nat |}.

Definition emptyWorld (t : Z) : World :=
  {| fs := ∅; now := t; actions := [] |}.

(** The same environment with another answer of the [df] command. *)
Definition withDf (out : option string) (env : Env) : Env :=
  {| probe := probe env; dfOutput := out; isoTime := isoTime env;
     isoLater := isoLater env; ffmpegPhoto := ffmpegPhoto env;
     freshPid := freshPid env |}.

(** What is on the disk besides the files of a [World], and what [unlink]
    may not do. *)
Record Disk := {
  (** something other than a file of [fs] at a path, a directory say: the
      size [stat] shows for it and the message of the error [unlink]
      throws for it *)
  others : string -> option (Z * string);
  (** the message of the error [unlink] throws for a file of [fs] that it
      may not remove *)
  denied : string -> option string
}.

(** A disk that holds the files of [fs] and nothing else, all of which
    [unlink] can remove. *)
Definition plainDisk : Disk :=
  {| others := fun _ => None; denied := fun _ => None |}.

(** [fsPromises.stat(path)]: the size, or [None] when it throws because
    nothing is at the path.  [fsPromises.access(path)] succeeds in the same
    cases. *)
Definition statSize (disk : Disk) (w : World) (path : string) : option Z :=
  match fs w !! path with
  | Some size => Some size
  | None => fst <$> others disk path
  end.

(** The message of the error [fsPromises.unlink] throws for a missing
    file. *)
Definition unlinkEnoentText (path : string) : string :=
  ("ENOENT: no such file or directory, unlink '" ++ path ++ "'")%string.

(** [fsPromises.unlink(path)]: the message of the error when it throws,
    and the world afterwards. *)
Definition unlink (disk : Disk) (path : string) (w : World)
  : option string * World :=
  let w1 := act (Unlink path) w in
  match fs w1 !! path with
  | Some _ =>
      match denied disk path with
      | Some msg => (Some msg, w1)
      | None => (None, setFs (delete path (fs w1)) w1)
      end
  | None =>
      match others disk path with
      | Some (_, msg) => (Some msg, w1)
      | None => (Some (unlinkEnoentText path), w1)
      end
  end.

(** Three probes, one second apart. *)
Definition probeRound : list Action :=
  [HttpGet; Sleep 1000; HttpGet; Sleep 1000; HttpGet].

(** Does [stat] fail to show a non-empty file. *)
Definition noFile (found : option Z) : Prop :=
  match found with
  | Some size => size <= 0
  | None => True
  end.

Section Deployment.

(** The project directory, as the list of its path segments;
    [captureService.js] lives in [src/camera] below it. *)
Variable root : list string.

Definition dirname : string := absPath (root ++ ["src"; "camera"]%string).

Definition CAPTURES_DIR : string := join dirname "../../captures".
Definition PHOTOS_DIR : string := join CAPTURES_DIR "photos".
Definition VIDEOS_DIR : string := join CAPTURES_DIR "videos".

(** [generateFilename(type, extension)] *)
Definition generateFilename (env : Env) (type extension : string) : string :=
  let timestamp := String.substring 0 19 (dashColonsAndDots (isoTime env)) in
  (type ++ "_" ++ timestamp ++ "." ++ extension)%string.

(** The loop of [checkStreamHealth]; [fuel] counts the iterations left and
    [attempt] is the loop variable.  The inner promise never rejects, so
    the [catch] branch of the source cannot run. *)
Fixpoint healthLoop (env : Env) (retries : nat) (delayMs : Z)
    (fuel attempt : nat) (w : World) : bool * World :=
  match fuel with
  | O => (false, w)
  | S fuel' =>
      let w1 := act HttpGet w in
      if probe env attempt then (true, w1)
      else
        let w2 := if (attempt <? retries)%nat then sleep delayMs w1 else w1 in
        healthLoop env retries delayMs fuel' (S attempt) w2
  end.

(** [checkStreamHealth(retries = 3, delayMs = 1000)] *)
Definition checkStreamHealth (env : Env) (w : World) : bool * World :=
  healthLoop env 3 1000 3 1 w.

Record DiskSpace := {
  available : JSNumber;
  sufficient : bool
}.

(** [checkDiskSpace()] *)
Definition checkDiskSpace (env : Env) (w : World) : DiskSpace * World :=
  let w1 := act ExecDf w in
  match dfOutput env with
  | Some stdout =>
      let availableMB := parseInt (dropFirstM stdout) in
      ({| available := availableMB;
          sufficient := geNumber availableMB MIN_DISK_SPACE_MB |}, w1)
  | None => ({| available := Num 0; sufficient := false |}, w1)
  end.

Record Photo := {
  photoFilename : string;
  photoPath : string;
  photoSize : Z;
  photoTimestamp : string
}.

Definition notReadyText : string :=
  "Stream not ready - MediaMTX may be starting up".

(** The message of the error [fs.promises.stat] throws for a missing file. *)
Definition enoentText (path : string) : string :=
  ("ENOENT: no such file or directory, stat '" ++ path ++ "'")%string.

(** [capturePhoto()] on a disk *)
Definition capturePhotoOn (disk : Disk) (env : Env) (w : World)
  : Outcome Photo * World :=
  let filename := generateFilename env "photo" "jpg" in
  let filepath := join PHOTOS_DIR filename in
  let '(streamReady, w1) := checkStreamHealth env w in
  if negb streamReady then (Rejected notReadyText, w1)
  else
    let w2 := act (ExecFfmpegPhoto filepath) w1 in
    let '(files, failure) := ffmpegPhoto env filepath (fs w2) in
    let w3 := setFs files w2 in
    let caught (errorOutput : string) (wc : World) :=
      (* best-effort removal of a partial file: the error of [unlink] is
         dropped; then rethrow *)
      let wd := snd (unlink disk filepath wc) in
      (Rejected ("Photo capture failed: " ++ sliceLast 200 errorOutput)%string,
       wd) in
    match failure with
    | Some errorOutput => caught errorOutput w3
    | None =>
        let w4 := act (Stat filepath) w3 in
        match statSize disk w4 filepath with
        | Some size =>
            (Resolved {| photoFilename := filename; photoPath := filepath;
                         photoSize := size; photoTimestamp := isoLater env |},
             w4)
        | None => caught (enoentText filepath) w4
        end
    end.

(** [capturePhoto()] where the disk holds the files of the world and
    nothing else. *)
Definition capturePhoto (env : Env) (w : World) : Outcome Photo * World :=
  capturePhotoOn plainDisk env w.

Record Started := {
  startedFilename : string;
  startedPath : string;
  startTime : string;
  diskSpaceAvailable : JSNumber
}.

Definition insufficientText (d : DiskSpace) : string :=
  ("Insufficient disk space: " ++ showNumber (available d)
   ++ "MB available, need " ++ pretty MIN_DISK_SPACE_MB ++ "MB")%string.

(** [startRecording()] *)
Definition startRecording (env : Env) (svc : CaptureService) (w : World)
  : Outcome Started * CaptureService * World :=
  if isRecording svc then (Rejected "Already recording", svc, w)
  else
    let '(streamReady, w1) := checkStreamHealth env w in
    if negb streamReady then (Rejected notReadyText, svc, w1)
    else
      let '(diskSpace, w2) := checkDiskSpace env w1 in
      if negb (sufficient diskSpace) then
        (Rejected (insufficientText diskSpace), svc, w2)
      else
        let filename := generateFilename env "video" "mp4" in
        let filepath := join VIDEOS_DIR filename in
        let w3 := act (SpawnFfmpeg (freshPid env) filepath) w2 in
        let svc' := {| recordingProcess := Some (freshPid env);
                       isRecording := true;
                       currentVideoFile := Some filepath;
                       recordingStartTime := Some (now w3) |} in
        (Resolved {| startedFilename := filename; startedPath := filepath;
                     startTime := isoLater env;
                     diskSpaceAvailable := available diskSpace |},
         svc', w3).

(** [getFilePath(filename)] *)
Definition getFilePath (filename : string) : option string :=
  if startsWith filename "photo_" then Some (join PHOTOS_DIR filename)
  else if startsWith filename "video_" then Some (join VIDEOS_DIR filename)
  else None.

(** [deleteCapture(filename)] on a disk; it resolves with
    [{ success: true, filename }].  The error of [access] is replaced by
    "File not found"; the error of [unlink] is not caught. *)
Definition deleteCaptureOn (disk : Disk) (filename : string) (w : World)
  : Outcome string * World :=
  match getFilePath filename with
  | None => (Rejected "Invalid filename", w)
  | Some filepath =>
      let w1 := act (Access filepath) w in
      match statSize disk w1 filepath with
      | None => (Rejected "File not found", w1)
      | Some _ =>
          match unlink disk filepath w1 with
          | (Some msg, w2) => (Rejected msg, w2)
          | (None, w2) => (Resolved filename, w2)
          end
      end
  end.

(** [deleteCapture(filename)] where the disk holds the files of the world
    and nothing else. *)
Definition deleteCapture (filename : string) (w : World)
  : Outcome string * World :=
  deleteCaptureOn plainDisk filename w.

End Deployment.

(** ** Stopping a recording *)

(** The recording child is driven through callbacks: the promise of
    [stopRecording] stays pending until the child's 'exit' event.  The
    state below is the service together with the child it records with. *)

Inductive Stdin :=
  | Writable         (* stdin.writable *)
  | NotWritable      (* ended or destroyed *)
  | Throwing.        (* writable, but write() throws *)

Inductive Signal :=
  | Quit             (* 'q' on stdin: ffmpeg's cooperative stop *)
  | Term.            (* SIGTERM *)

Record Stopped := {
  stoppedFilename : string;
  stoppedPath : string;
  stoppedSize : Z;
  stoppedDuration : Z;
  endTime : string
}.

(** One call of [stopRecording()] that got past its guard: the constants
    of its closure, its timer while it is pending, and how and when its
    promise settled. *)
Record StopCall := {
  filepath : option string;
  duration : Z;
  timeoutDue : option Z;
  settled : option (Outcome Stopped * Z)
}.

Record Recorder := {
  service : CaptureService;
  child : pid;
  stdin : Stdin;
  startListener : bool;      (* once('exit') of startRecording not yet run *)
  calls : list StopCall;     (* oldest first *)
  clock : Z;                 (* Date.now() *)
  signals : list (Z * Signal)   (* what was sent to the child, and when *)
}.

Definition gracefulTimeout : Z := 5000.
Definition syncDelay : Z := 500.
Definition retryDelay : Z := 300.
Definition statRetries : nat := 3.

Definition notRecordingText : string := "Not currently recording".
Definition verificationText : string :=
  "Video file not found or empty after recording".

(** [path.basename] of a path that does not end in a slash. *)
Definition basename (p : string) : string := List.last (segments p) p.

Definition send (sg : Signal) (r : Recorder) : Recorder :=
  {| service := service r; child := child r;
     stdin := match sg with Quit => NotWritable | Term => stdin r end;
     startListener := startListener r; calls := calls r; clock := clock r;
     signals := signals r ++ [(clock r, sg)] |}.

(** The [try] block at the end of [stopRecording]: 'q' and [end()] on a
    writable stdin, SIGTERM otherwise or when writing throws. *)
Definition requestStop (r : Recorder) : Recorder :=
  match stdin r with
  | Writable => send Quit r
  | NotWritable => send Term r
  | Throwing => send Term r
  end.

(** [stopRecording()]: the rejection of the guard, or the state with one
    more pending call. *)
Definition stopRecording (r : Recorder) : Recorder + string :=
  let svc := service r in
  if negb (isRecording svc) || negb (bool_decide (is_Some (recordingProcess svc)))
  then inr notRecordingText
  else
    let c := {| filepath := currentVideoFile svc;
                duration := (clock r - default 0 (recordingStartTime svc)) / 1000;
                timeoutDue := Some (clock r + gracefulTimeout);
                settled := None |} in
    inl (requestStop
           {| service := service r; child := child r; stdin := stdin r;
              startListener := startListener r; calls := calls r ++ [c];
              clock := clock r; signals := signals r |}).

Definition idle (svc : CaptureService) : CaptureService :=
  {| recordingProcess := None; isRecording := false;
     currentVideoFile := currentVideoFile svc;
     recordingStartTime := recordingStartTime svc |}.

(** The timer callback of call number [i]: SIGTERM if a child is still
    held. *)
Definition timeoutFires (i : nat) (r : Recorder) : Recorder :=
  match calls r !! i with
  | Some c =>
      match timeoutDue c with
      | Some due =>
          let c' := {| filepath := filepath c; duration := duration c;
                       timeoutDue := None; settled := settled c |} in
          let r1 := {| service := service r; child := child r;
                       stdin := stdin r; startListener := startListener r;
                       calls := <[i := c']> (calls r);
                       clock := Z.max (clock r) due;
                       signals := signals r |} in
          if bool_decide (is_Some (recordingProcess (service r1)))
          then send Term r1 else r1
      | None => r
      end
  | None => r
  end.

(** The rest of the 'exit' listener after the session was reset: wait,
    then look at the file up to three times.  [stat i] is what the [i]th
    [fs.promises.stat] finds: a size, or nothing when it throws.  The
    result is the settlement and its time. *)
Fixpoint verifyLoop (stat : nat -> option Z) (iso : string)
    (path : string) (dur : Z) (fuel i : nat) (t : Z)
  : Outcome Stopped * Z :=
  match fuel with
  | O => (Rejected verificationText, t)
  | S fuel' =>
      match stat i with
      | Some size =>
          if 0 <? size then
            (Resolved {| stoppedFilename := basename path;
                         stoppedPath := path; stoppedSize := size;
                         stoppedDuration := dur; endTime := iso |}, t)
          else verifyLoop stat iso path dur fuel' (S i) (t + retryDelay)
      | None => verifyLoop stat iso path dur fuel' (S i) (t + retryDelay)
      end
  end.

Definition verify (stat : nat -> option Z) (iso : string) (t : Z)
    (c : StopCall) : StopCall :=
  match settled c with
  | Some _ => c
  | None =>
      let stat' := match filepath c with
                   | Some _ => stat
                   | None => fun _ => None     (* stat(null) throws *)
                   end in
      {| filepath := filepath c; duration := duration c;
         timeoutDue := timeoutDue c;
         settled := Some (verifyLoop stat' iso (default "" (filepath c))
                            (duration c) statRetries 0 (t + syncDelay)) |}
  end.

Definition pendingCall (c : StopCall) : bool :=
  match settled c with
  | None => true
  | Some _ => false
  end.

(** [clearTimeout(timeout)] in the listener of a pending call. *)
Definition clearTimer (c : StopCall) : StopCall :=
  if pendingCall c then
    {| filepath := filepath c; duration := duration c;
       timeoutDue := None; settled := settled c |}
  else c.

(** The synchronous part of the 'exit' event at time [t]: the listener
    installed by [startRecording], and then the first lines of each pending
    [stopRecording] listener, which clear its timer and reset the
    session. *)
Definition exitSync (t : Z) (r : Recorder) : Recorder :=
  let svc0 := service r in
  let svc1 := if startListener r && isRecording svc0 then idle svc0 else svc0 in
  let svc2 := if existsb pendingCall (calls r) then idle svc1 else svc1 in
  {| service := svc2; child := child r; stdin := stdin r;
     startListener := false; calls := map clearTimer (calls r);
     clock := Z.max (clock r) t; signals := signals r |}.

(** The 'exit' event of the child at time [t]: the synchronous part, and
    then the rest of each pending listener. *)
Definition childExit (stat : nat -> option Z) (iso : string) (t : Z)
    (r : Recorder) : Recorder :=
  let r1 := exitSync t r in
  {| service := service r1; child := child r1; stdin := stdin r1;
     startListener := startListener r1;
     calls := map (verify stat iso (clock r1)) (calls r1);
     clock := clock r1; signals := signals r1 |}.

(** How the child reacts to what it is sent: the time it takes to exit
    after the signal, or nothing when it ignores the signal. *)
Record Behaviour := {
  onQuit : option Z;
  onTerm : option Z
}.

Definition reaction (b : Behaviour) (sg : Signal) : option Z :=
  match sg with
  | Quit => onQuit b
  | Term => onTerm b
  end.

Definition earlier (a b : option Z) : option Z :=
  match a, b with
  | Some x, Some y => Some (Z.min x y)
  | Some x, None => Some x
  | None, _ => b
  end.

(** When the child exits, given what it has been sent so far. *)
Definition exitTime (b : Behaviour) (sent : list (Z * Signal)) : option Z :=
  fold_right
    (fun '(t, sg) acc => earlier (option_map (Z.add t) (reaction b sg)) acc)
    None sent.

(** One [stopRecording()] call on a recorder with no call pending, played
    to the end: the child exits before the timer, or the timer fires and
    the child exits afterwards, or it never exits. *)
Definition stopAndWait (b : Behaviour) (stat : nat -> option Z) (iso : string)
    (r : Recorder) : Recorder + string :=
  match stopRecording r with
  | inr msg => inr msg
  | inl r1 =>
      let i := length (calls r) in
      let due := clock r + gracefulTimeout in
      let escalate :=
        let r2 := timeoutFires i r1 in
        match exitTime b (signals r2) with
        | Some te => childExit stat iso te r2
        | None => r2
        end in
      inl match exitTime b (signals r1) with
          | Some te => if te <? due then childExit stat iso te r1 else escalate
          | None => escalate
          end
  end.

(** The settlement of the last call, if it has settled. *)
Definition lastSettled (r : Recorder) : option (Outcome Stopped * Z) :=
  match List.last (map Some (calls r)) None with
  | Some c => settled c
  | None => None
  end.

(** "stopRecording() where the capture command ignores the graceful
    signal still completes within gracefulTimeout +
    terminationGracePeriod": for a recorder with an active session, a
    writable stdin and no stop under way, whatever the child does when it
    is sent SIGTERM.  The source has no constant of that name, so the
    period is a parameter here. *)
Definition Spec_stop_completes_within (terminationGracePeriod : Z) : Prop :=
  forall (b : Behaviour) (stat : nat -> option Z) (iso : string)
         (r r' : Recorder),
    onQuit b = None ->
    isRecording (service r) = true ->
    is_Some (recordingProcess (service r)) ->
    stdin r = Writable -> calls r = [] -> signals r = [] ->
    stopAndWait b stat iso r = inl r' ->
    exists o t, lastSettled r' = Some (o, t) /\
                t <= clock r + gracefulTimeout + terminationGracePeriod.

(** A recorder as [startRecording] leaves it at time [t]. *)
Definition recording (p : pid) (path : string) (t : Z) (i : Stdin) : Recorder :=
  {| service := {| recordingProcess := Some p; isRecording := true;
                   currentVideoFile := Some path;
                   recordingStartTime := Some t |};
     child := p; stdin := i; startListener := true; calls := [];
     clock := t; signals := [] |}.

End Capture.

(* ===================================================================== *)
(** * Further invariants of the supervisor                                *)
(* ===================================================================== *)

Module SupervisorInvariants.
Import Supervisor.

Section WithConfig.

Variable cfg : RestartConfig.

(** Timer ids are handed out in increasing order. *)
Definition Fresh (s : Sup) : Prop :=
  forall t, In t (timers s) -> (timerId t < nextTimer s)%nat.

(** The backoff delay stays between its two configured ends. *)
Definition DelayInv (s : Sup) : Prop :=
  initialDelay cfg <= delay (restartState s) <= maxDelay cfg.

(** The failure counter runs from 0 to one past the cap, and past the cap
    nothing is left to run. *)
Definition CountInv (s : Sup) : Prop :=
  0 <= count (restartState s) /\
  (count (restartState s) <= maxRestarts cfg \/
   (count (restartState s) = maxRestarts cfg + 1 /\ Halted s)).

(** When the stability timers were armed: never after now, before any
    pending restart is due, and, for a timer armed for a child that is no
    longer the one held, before the child held now was started. *)
Definition ArmedBefore (s : Sup) : Prop :=
  (forall t, In t (timers s) -> callback t = CbStabilityCheck ->
     due t - resetAfter cfg <= clock s) /\
  (forall t u, In t (timers s) -> In u (timers s) ->
     callback t = CbStabilityCheck -> callback u = CbStartMediaMTX ->
     due t - resetAfter cfg < due u) /\
  (forall t q p l, In t (timers s) -> callback t = CbStabilityCheck ->
     armedFor t = Some q -> mediamtxProcess s = Some p -> q <> p ->
     lastStableTime (restartState s) = Some l ->
     due t - resetAfter cfg < l).

End WithConfig.

End SupervisorInvariants.

(* ===================================================================== *)
(** * More of the capture service                                         *)
(* ===================================================================== *)

Module CaptureExtra.
Import NodePath Capture.

(** [checkStreamHealth(retries, delayMs)] with its two parameters; the
    service always calls it with the defaults 3 and 1000. *)
Definition checkStreamHealthWith (env : Env) (retries : nat) (delayMs : Z)
    (w : World) : bool * World :=
  healthLoop env retries delayMs retries 1 w.

(** [n] probes with a wait between one and the next. *)
Fixpoint probing (delayMs : Z) (n : nat) : list Action :=
  match n with
  | O => []
  | S O => [HttpGet]
  | S m => HttpGet :: Sleep delayMs :: probing delayMs m
  end.

(** The first attempt, counted from 1, at which the stream is ready. *)
Definition firstReady (env : Env) (retries : nat) : option nat :=
  List.find (probe env) (seq 1 retries).

(** What [getRecordingStatus()] returns. *)
Inductive RecordingStatus :=
  | NotRecording
  | RecordingNow (filename : string) (duration : Z) (startTime : string).

(** [getRecordingStatus()] at time [t]; [toISOString] renders
    [new Date(ms).toISOString()].  [path.basename(null)] throws, which is
    [None] here. *)
Definition getRecordingStatus (toISOString : Z -> string)
    (svc : CaptureService) (t : Z) : option RecordingStatus :=
  if negb (isRecording svc) then Some NotRecording
  else
    match currentVideoFile svc with
    | None => None
    | Some file =>
        Some (RecordingNow (basename file)
                ((t - default 0 (recordingStartTime svc)) / 1000)
                (toISOString (default 0 (recordingStartTime svc))))
    end.

(** The invariant of a recording session: the four fields are set
    together. *)
Definition SessionOk (svc : CaptureService) : Prop :=
  (isRecording svc = true <-> is_Some (recordingProcess svc)) /\
  (isRecording svc = true ->
   is_Some (currentVideoFile svc) /\ is_Some (recordingStartTime svc)).

Definition isSpawn (a : Action) : bool :=
  match a with
  | SpawnFfmpeg _ _ => true
  | _ => false
  end.

(** The capture children spawned so far. *)
Definition spawned (w : World) : list Action :=
  List.filter isSpawn (actions w).

(** An environment in which everything works: the stream is ready, 12345
    MB are free and the capture command writes 2048 bytes. *)
Definition goodEnv : Env :=
  {| probe := fun _ => true; dfOutput := Some "12345M"%string;
     isoTime := "2024-05-06T07:08:09.123Z";
     isoLater := "2024-05-06T07:08:10.456Z";
     ffmpegPhoto := fun path files => (<[path := 2048]> files, None);
     freshPid := 7%nat |}.

(** An environment in which the stream is ready and the capture command
    leaves an empty file and fails, the media server having gone. *)
Definition brokenEnv : Env :=
  {| probe := fun _ => true; dfOutput := Some "12345M"%string;
     isoTime := "2024-05-06T07:08:09.123Z";
     isoLater := "2024-05-06T07:08:10.456Z";
     ffmpegPhoto := fun path files =>
       (<[path := 0]> files,
        Some "ffmpeg version 5.1.6 Copyright (c) 2000-2024 the FFmpeg developers built with gcc 12 (Debian 12.2.0-14) configuration: --prefix=/usr --enable-gpl --enable-libx264 [tcp @ 0x55a3c1d2e4a0] Connection to tcp://localhost:8554?timeout=6000000 failed: Connection refused rtsp://localhost:8554/telescope: Connection refused"%string);
     freshPid := 7%nat |}.

(** The photos directory of the project /srv and nothing else besides the
    files. *)
Definition photosDirOnly : Disk :=
  {| others := fun p =>
       if String.eqb p "/srv/captures/photos"
       then Some (4096,
                  "EISDIR: illegal operation on a directory, unlink '/srv/captures/photos'"%string)
       else None;
     denied := fun _ => None |}.

End CaptureExtra.

(* ===================================================================== *)
(** * Stream service (the class StreamService)                             *)
(* ===================================================================== *)

Module Stream.

Local Open Scope string_scope.

Definition quote : string := String (ascii_of_nat 34) EmptyString.
Definition newline : string := String (ascii_of_nat 10) EmptyString.

Definition FFMPEG_BASE : string := "ffmpeg -f v4l2 -input_format mjpeg".

Definition FFMPEG_FLAGS : string :=
  "-fflags nobuffer+discardcorrupt+flush_packets -flags low_delay -avioflags direct -thread_queue_size 32 -probesize 32 -analyzeduration 0 -i /dev/video0 -an -c:v h264_v4l2m2m -pix_fmt yuv420p -b:v 1200k -g 5 -keyint_min 5 -bf 0 -f rtsp -rtsp_transport tcp rtsp://localhost:$RTSP_PORT/$MTX_PATH".

(** The keys of [STREAM_CONFIGS]. *)
Inductive Mode :=
  | Normal
  | Binned.

Definition modeName (m : Mode) : string :=
  match m with
  | Normal => "normal"
  | Binned => "binned"
  end.

Record StreamConfig := {
  videoSize : string;
  framerate : Z;
  scale : option string
}.

(** [STREAM_CONFIGS] *)
Definition STREAM_CONFIGS (m : Mode) : StreamConfig :=
  match m with
  | Normal => {| videoSize := "640x480"; framerate := 30; scale := None |}
  | Binned => {| videoSize := "1280x960"; framerate := 30;
                 scale := Some "640:480:flags=area" |}
  end.

(** [s.slice(n)] *)
Fixpoint dropChars (n : nat) (s : string) : string :=
  match n, s with
  | O, _ => s
  | S n', String _ s' => dropChars n' s'
  | S _, EmptyString => EmptyString
  end.

(** [s.replace(target, replacement)] with a string pattern: the first
    occurrence only.  (The replacements used here hold no [$] pattern.) *)
Fixpoint replaceFirst (target replacement s : string) : string :=
  if String.prefix target s then
    replacement ++ dropChars (String.length target) s
  else
    match s with
    | EmptyString => EmptyString
    | String c s' => String c (replaceFirst target replacement s')
    end.

(** [s.includes(sub)] *)
Fixpoint includes (s sub : string) : bool :=
  String.prefix sub s ||
  match s with
  | EmptyString => false
  | String _ s' => includes s' sub
  end.

(** [generateFFmpegCommand(mode)] *)
Definition generateFFmpegCommand (m : Mode) : string :=
  let config := STREAM_CONFIGS m in
  let cmd := FFMPEG_BASE ++ " -video_size " ++ videoSize config
             ++ " -framerate " ++ pretty (framerate config)
             ++ " " ++ FFMPEG_FLAGS in
  match scale config with
  | Some sc =>
      replaceFirst "-c:v h264_v4l2m2m"
        ("-vf " ++ quote ++ "scale=" ++ sc ++ quote ++ " -c:v h264_v4l2m2m")
        cmd
  | None => cmd
  end.

Definition unlines (ls : list string) : string :=
  fold_right (fun l acc => l ++ newline ++ acc) EmptyString ls.

(** [generateConfig(mode)] *)
Definition generateConfig (m : Mode) : string :=
  unlines
    [ "# MediaMTX Configuration for Telescope Camera";
      "# Ultra Low-latency WebRTC streaming - Optimized for Pi 3";
      "# Mode: " ++ modeName m;
      "";
      "# Logging";
      "logLevel: warn";
      "logDestinations: [stdout]";
      "";
      "# API (for health checks)";
      "api: yes";
      "apiAddress: 127.0.0.1:9997";
      "";
      "# WebRTC - Primary streaming protocol (ultra low latency)";
      "webrtc: yes";
      "webrtcAddress: :8889";
      "webrtcAllowOrigins: ['*']";
      "webrtcICEServers2: []";
      "";
      "# RTSP - Used internally for capture";
      "rtsp: yes";
      "rtspAddress: :8554";
      "";
      "# Minimal buffer settings for lowest latency";
      "readBufferCount: 256";
      "writeQueueSize: 128";
      "";
      "# Disable unused protocols";
      "hls: no";
      "srt: no";
      "rtmp: no";
      "";
      "# Stream paths";
      "paths:";
      "  telescope:";
      "    runOnInit: >";
      "      " ++ generateFFmpegCommand m;
      "    runOnInitRestart: yes" ].

(** The field of a [StreamService] object. *)
Record StreamService := {
  currentMode : Mode
}.

(** [constructor()] *)
Definition constructor : StreamService := {| currentMode := Normal |}.

(** What the service does to the outside. *)
Inductive Action :=
  | WriteConfig (content : string)       (* fs.writeFileSync(MEDIAMTX_CONFIG, ...) *)
  | Pkill                                (* pkill -f "ffmpeg.*video0.*rtsp" *)
  | Sleep (ms : Z).

(** The configuration file, if it is there, and the actions so far. *)
Record Disk := {
  configFile : option string;
  actions : list Action
}.

(** What the environment does during one call: whether writing the file
    throws, and with which message, and whether [pkill] fails. *)
Record Env := {
  writeError : option string;
  pkillFails : bool
}.

(** The object [setBinning] resolves with; the early return has no
    [binning] field. *)
Record BinningSet := {
  setSuccess : bool;
  setMode : string;
  setBinningField : option bool;
  message : string
}.

Definition modeOf (enabled : bool) : Mode :=
  if enabled then Binned else Normal.

Definition sameMode (a b : Mode) : bool :=
  String.eqb (modeName a) (modeName b).

(** [setBinning(enabled)]: the resolved object or the message of the error
    thrown, the service and the disk afterwards. *)
Definition setBinning (env : Env) (enabled : bool)
    (svc : StreamService) (d : Disk)
  : (BinningSet + string) * StreamService * Disk :=
  let mode := modeOf enabled in
  if sameMode mode (currentMode svc) then
    (inl {| setSuccess := true; setMode := modeName mode;
            setBinningField := None;
            message := "Already in this mode" |}, svc, d)
  else
    let config := generateConfig mode in
    match writeError env with
    | Some msg => (inr ("Failed to set binning: " ++ msg), svc, d)
    | None =>
        let d1 := {| configFile := Some config;
                     actions := actions d ++ [WriteConfig config; Pkill;
                                              Sleep 500] |} in
        (inl {| setSuccess := true; setMode := modeName mode;
                setBinningField := Some enabled;
                message := if enabled
                           then "2x2 binning enabled (4x brighter)"
                           else "Binning disabled (full resolution)" |},
         {| currentMode := mode |}, d1)
    end.

(** The object [getBinningStatus] returns. *)
Record BinningStatus := {
  success : bool;
  binning : bool;
  statusMode : string;
  error : option string
}.

(** [getBinningStatus()]; [readError] is the message of the error when the
    file cannot be read. *)
Definition getBinningStatus (readError : string)
    (svc : StreamService) (d : Disk) : BinningStatus * StreamService :=
  match configFile d with
  | Some config =>
      let isBinned := includes config "1280x960" && includes config "scale=" in
      let svc' := {| currentMode := modeOf isBinned |} in
      ({| success := true; binning := isBinned;
          statusMode := modeName (currentMode svc'); error := None |}, svc')
  | None =>
      ({| success := false; binning := false; statusMode := "normal";
          error := Some readError |}, svc)
  end.

End Stream.

(* ===================================================================== *)
(** * Listing the captures                                                *)
(* ===================================================================== *)

Module Listing.
Import NodePath Capture.

(** [s.endsWith(suffix)] *)
Fixpoint endsWith (s suffix : string) : bool :=
  String.eqb s suffix ||
  match s with
  | EmptyString => false
  | String _ s' => endsWith s' suffix
  end.

(** One entry of a listing; [created] is the birth time in milliseconds,
    which the source carries as an ISO string and turns back into a date
    to compare. *)
Record Entry := {
  filename : string;
  size : Z;
  created : Z
}.

(** What the file system answers: the names in a directory, unless
    reading it fails, and size and birth time of a path, unless [stat]
    fails. *)
Record Files := {
  readdir : string -> option (list string);
  statOf : string -> option (Z * Z)
}.

(** [Array.prototype.sort] with the comparator
    [(a, b) => new Date(b.created) - new Date(a.created)]: a stable sort,
    newest first. *)
Fixpoint insertNewest (x : Entry) (l : list Entry) : list Entry :=
  match l with
  | [] => [x]
  | y :: l' =>
      if created y <=? created x then x :: l else y :: insertNewest x l'
  end.

Definition sortNewestFirst (l : list Entry) : list Entry :=
  fold_right insertNewest [] l.

(** The [map] callback: an entry, or [null] when [stat] fails. *)
Definition statEntry (files : Files) (dir name : string) : option Entry :=
  match statOf files (join dir name) with
  | Some (size, birth) =>
      Some {| filename := name; size := size; created := birth |}
  | None => None
  end.

(** One of the two blocks of [listCaptures]: the directory is read, names
    with the extension are kept, stat failures dropped and the rest
    sorted; a directory that cannot be read gives the empty list. *)
Definition listDir (files : Files) (dir extension : string) : list Entry :=
  match readdir files dir with
  | Some names =>
      sortNewestFirst
        (omap (statEntry files dir)
              (List.filter (fun f => endsWith f extension) names))
  | None => []
  end.

Record Captures := {
  photos : list Entry;
  videos : list Entry
}.

(** [listCaptures(type)] *)
Definition listCaptures (root : list string) (files : Files) (type : string)
  : Captures :=
  {| photos := if String.eqb type "all" || String.eqb type "photos"
               then listDir files (PHOTOS_DIR root) ".jpg" else [];
     videos := if String.eqb type "all" || String.eqb type "videos"
               then listDir files (VIDEOS_DIR root) ".mp4" else [] |}.

(** Newest first. *)
Definition newerFirst (a b : Entry) : Prop := created b <= created a.

End Listing.

(* ===================================================================== *)
(** * The camera controller                                               *)
(* ===================================================================== *)

Module V4L2.

Local Open Scope string_scope.

Definition DEVICE : string := "/dev/video0".

(** [PRESETS], with the keys in the order they are written. *)
Definition PRESETS : list (string * list (string * Z)) :=
  [ ("planetary",
     [ ("auto_exposure", 1); ("exposure_time_absolute", 100); ("gain", 200);
       ("gamma", 100); ("sharpness", 5); ("white_balance_automatic", 0);
       ("white_balance_temperature", 4600);
       ("focus_automatic_continuous", 0); ("focus_absolute", 512) ]);
    ("lunar",
     [ ("auto_exposure", 1); ("exposure_time_absolute", 50); ("gain", 100);
       ("gamma", 90); ("sharpness", 3); ("white_balance_automatic", 0);
       ("white_balance_temperature", 5000);
       ("focus_automatic_continuous", 0); ("focus_absolute", 512) ]);
    ("dso",
     [ ("auto_exposure", 1); ("exposure_time_absolute", 5000); ("gain", 800);
       ("gamma", 150); ("sharpness", 0); ("white_balance_automatic", 0);
       ("white_balance_temperature", 5500);
       ("focus_automatic_continuous", 0); ("focus_absolute", 512) ]);
    ("focusing",
     [ ("auto_exposure", 1); ("exposure_time_absolute", 500); ("gain", 400);
       ("gamma", 110); ("sharpness", 7); ("white_balance_automatic", 1);
       ("focus_automatic_continuous", 1) ]) ].

(** The property names every object literal inherits from
    [Object.prototype]. *)
Definition objectPrototype : list string :=
  [ "constructor"; "__defineGetter__"; "__defineSetter__"; "hasOwnProperty";
    "__lookupGetter__"; "__lookupSetter__"; "isPrototypeOf";
    "propertyIsEnumerable"; "toString"; "valueOf"; "__proto__";
    "toLocaleString" ].

Fixpoint assoc {A : Type} (key : string) (l : list (string * A)) : option A :=
  match l with
  | [] => None
  | (k, v) :: l' => if String.eqb key k then Some v else assoc key l'
  end.

(** [PRESETS[presetName]] as [applyPreset] uses it: the test
    [if (!preset)] and then [Object.entries(preset)].  A preset gives its
    entries; a name inherited from [Object.prototype] gives a function or
    an object, which passes the test and has no entries; any other name
    gives [undefined]. *)
Definition presetEntries (presetName : string) : option (list (string * Z)) :=
  match assoc presetName PRESETS with
  | Some preset => Some preset
  | None =>
      if List.existsb (String.eqb presetName) objectPrototype
      then Some []
      else None
  end.

Record V4L2Controller := {
  device : string
}.

(** [constructor(device = DEVICE)] *)
Definition constructor : V4L2Controller := {| device := DEVICE |}.

(** [getPresets()] *)
Definition getPresets : list string := map fst PRESETS.

(** The shell: whether a command fails, and with which message, given
    the commands run before it. *)
Definition Exec := list string -> string -> option string.

(** A computation runs commands, which are logged in order, and resolves
    with a value or rejects with the message of the error. *)
Definition M (A : Type) : Type := list string -> (A + string) * list string.

Definition ret {A : Type} (a : A) : M A := fun log => (inl a, log).

Definition bind {A B : Type} (m : M A) (k : A -> M B) : M B :=
  fun log =>
    match m log with
    | (inl a, log') => k a log'
    | (inr msg, log') => (inr msg, log')
    end.

Declare Scope command_scope.
Delimit Scope command_scope with command.
Notation "m ;; k" := (bind m (fun _ => k))
  (at level 100, k at level 200, right associativity) : command_scope.

Definition when (b : bool) (m : M unit) : M unit :=
  if b then m else ret tt.

(** [runCommand(cmd)], without the output, which the callers below do not
    use. *)
Definition runCommand (exec : Exec) (cmd : string) : M unit :=
  fun log =>
    match exec log cmd with
    | Some msg => (inr ("Command failed: " ++ msg), (log ++ [cmd])%list)
    | None => (inl tt, (log ++ [cmd])%list)
    end.

(** [v4l2-ctl -d ${this.device} -c ${assignment}] *)
Definition ctl (this : V4L2Controller) (assignment : string) : string :=
  "v4l2-ctl -d " ++ device this ++ " -c " ++ assignment.

(** [setControl(name, value)] for an integer [value]. *)
Definition setControl (exec : Exec) (this : V4L2Controller)
    (name : string) (value : Z) : M (string * Z) :=
  (when (String.eqb name "exposure_time_absolute")
        (runCommand exec (ctl this "auto_exposure=1")) ;;
   when (String.eqb name "white_balance_temperature")
        (runCommand exec (ctl this "white_balance_automatic=0")) ;;
   when (String.eqb name "focus_absolute")
        (runCommand exec (ctl this "focus_automatic_continuous=0")) ;;
   runCommand exec (ctl this (name ++ "=" ++ pretty value)) ;;
   ret (name, value))%command.

(** One element of [results]. *)
Record PresetResult := {
  control : string;
  value : Z;
  success : bool;
  error : option string
}.

(** The loop of [applyPreset]: a control that cannot be set is recorded
    and the loop goes on. *)
Fixpoint applyEntries (exec : Exec) (this : V4L2Controller)
    (entries : list (string * Z)) (results : list PresetResult)
  : M (list PresetResult) :=
  match entries with
  | [] => ret results
  | (c, v) :: rest =>
      fun log =>
        match setControl exec this c v log with
        | (inl _, log') =>
            applyEntries exec this rest
              (results ++ [{| control := c; value := v; success := true;
                              error := None |}])%list log'
        | (inr msg, log') =>
            applyEntries exec this rest
              (results ++ [{| control := c; value := v; success := false;
                              error := Some msg |}])%list log'
        end
  end.

(** [applyPreset(presetName)] *)
Definition applyPreset (exec : Exec) (this : V4L2Controller)
    (presetName : string) : M (string * list PresetResult) :=
  match presetEntries presetName with
  | None => fun log => (inr ("Unknown preset: " ++ presetName), log)
  | Some entries =>
      bind (applyEntries exec this entries [])
           (fun results => ret (presetName, results))
  end.

(** The control that has to be switched to manual before [name] can be
    set, if there is one. *)
Definition manualMode (name : string) : option string :=
  if String.eqb name "exposure_time_absolute" then Some "auto_exposure=1"
  else if String.eqb name "white_balance_temperature"
       then Some "white_balance_automatic=0"
  else if String.eqb name "focus_absolute"
       then Some "focus_automatic_continuous=0"
  else None.

(** The commands a successful [setControl(name, value)] runs. *)
Definition commandsOf (this : V4L2Controller) (name : string) (value : Z)
  : list string :=
  match manualMode name with
  | Some assignment => [ctl this assignment]
  | None => []
  end ++ [ctl this (name ++ "=" ++ pretty value)].

(** The control and the value a result is about. *)
Definition entryOf (r : PresetResult) : string * Z := (control r, value r).

(** The first command of every control of a preset, and all the commands
    of its controls, in the order of the preset. *)
Definition firstCommands (this : V4L2Controller)
    (entries : list (string * Z)) : list string :=
  map (fun e => hd "" (commandsOf this (fst e) (snd e))) entries.

Definition allCommands (this : V4L2Controller)
    (entries : list (string * Z)) : list string :=
  concat (map (fun e => commandsOf this (fst e) (snd e)) entries).

End V4L2.

(* ===================================================================== *)
(** * Facts about the supervisor                                          *)
(* ===================================================================== *)

Module SupervisorFacts.
Import Supervisor.

Section Facts.

Variable cfg : RestartConfig.

(** ** Field-by-field behaviour of the operations *)

Lemma stabilityCheck_resetDue (s : Sup) :
  stabilityCheck cfg s = if resetDue cfg s then resetRestartState cfg s else s.
Proof.
  unfold stabilityCheck, resetDue, truthy.
  destruct (mediamtxProcess s); [|reflexivity].
  destruct (lastStableTime (restartState s)) as [t|]; [|reflexivity].
  destruct (t =? 0); simpl; [reflexivity|].
  destruct (resetAfter cfg <=? clock s - t); reflexivity.
Qed.

Lemma stabilityCheck_frame (s : Sup) :
  mediamtxProcess (stabilityCheck cfg s) = mediamtxProcess s /\
  timers (stabilityCheck cfg s) = timers s /\
  clock (stabilityCheck cfg s) = clock s /\
  nextPid (stabilityCheck cfg s) = nextPid s /\
  nextTimer (stabilityCheck cfg s) = nextTimer s /\
  running (stabilityCheck cfg s) = running s /\
  trace (stabilityCheck cfg s) = trace s.
Proof.
  rewrite stabilityCheck_resetDue.
  destruct (resetDue cfg s); repeat split; reflexivity.
Qed.

Lemma stopMediaMTX_frame (s : Sup) :
  mediamtxProcess (stopMediaMTX s) = None /\
  timers (stopMediaMTX s) = timers s /\
  restartState (stopMediaMTX s) = restartState s /\
  clock (stopMediaMTX s) = clock s /\
  nextPid (stopMediaMTX s) = nextPid s /\
  nextTimer (stopMediaMTX s) = nextTimer s /\
  running (stopMediaMTX s) = running s.
Proof.
  unfold stopMediaMTX.
  destruct (mediamtxProcess s) eqn:E; simpl; repeat split; auto.
Qed.

Lemma stopMediaMTX_trace (s : Sup) :
  trace (stopMediaMTX s) =
    trace s ++ match mediamtxProcess s with
               | Some p => [Kill p]
               | None => []
               end.
Proof.
  unfold stopMediaMTX.
  destruct (mediamtxProcess s); simpl; [reflexivity|].
  symmetry; apply app_nil_r.
Qed.

Lemma findTimer_stop (id : nat) (s : Sup) :
  findTimer id (stopMediaMTX s) = findTimer id s.
Proof.
  unfold findTimer.
  destruct (stopMediaMTX_frame s) as (_ & -> & _). reflexivity.
Qed.

(** ** Invariants of every execution *)

Lemma isRunning_In (p : pid) (s : Sup) : isRunning p s = true <-> In p (running s).
Proof.
  unfold isRunning. rewrite existsb_exists. split.
  - intros (x & Hx & E). apply Nat.eqb_eq in E. now subst.
  - intros H. exists p. split; [assumption|apply Nat.eqb_refl].
Qed.

Lemma length_le_1_In {A} (l : list A) (x y : A) :
  (length l <= 1)%nat -> In x l -> In y l -> x = y.
Proof.
  destruct l as [|a [|b l]]; simpl; intros HL Hx Hy; try lia; try tauto.
  destruct Hx as [<-|[]], Hy as [<-|[]]. reflexivity.
Qed.

Lemma filter_length_le {A} (f : A -> bool) (l : list A) :
  (length (List.filter f l) <= length l)%nat.
Proof.
  induction l as [|a l IH]; simpl; [lia|]. destruct (f a); simpl; lia.
Qed.

Lemma filter_remove_lt {A} (f : A -> bool) (l : list A) (x : A) :
  In x l -> f x = false -> (length (List.filter f l) < length l)%nat.
Proof.
  induction l as [|a l IH]; simpl; [tauto|].
  intros [->|H] Hf.
  - rewrite Hf. pose proof (filter_length_le f l). lia.
  - specialize (IH H Hf). destruct (f a); simpl; lia.
Qed.

Lemma filter_filter_comm {A} (f g : A -> bool) (l : list A) :
  List.filter f (List.filter g l) = List.filter g (List.filter f l).
Proof.
  induction l as [|a l IH]; simpl; [reflexivity|].
  destruct (f a) eqn:Ef, (g a) eqn:Eg; simpl;
    rewrite ?Ef, ?Eg, IH; reflexivity.
Qed.

Lemma findTimer_In (id : nat) (s : Sup) (t : Timer) :
  findTimer id s = Some t -> In t (timers s) /\ timerId t = id.
Proof.
  unfold findTimer. intros H. apply find_some in H as [H1 H2].
  apply Nat.eqb_eq in H2. auto.
Qed.

Lemma pendingRestarts_pop (t : Timer) (s : Sup) :
  In t (timers s) -> callback t = CbStartMediaMTX ->
  (pendingRestarts (popTimer t s) < pendingRestarts s)%nat.
Proof.
  intros Hin Hcb. unfold pendingRestarts, popTimer. simpl.
  rewrite filter_filter_comm.
  apply filter_remove_lt with (x := t).
  - apply filter_In. split; [assumption|]. unfold isRestartTimer. now rewrite Hcb.
  - now rewrite Nat.eqb_refl.
Qed.

Lemma pendingRestarts_pop_le (t : Timer) (s : Sup) :
  (pendingRestarts (popTimer t s) <= pendingRestarts s)%nat.
Proof.
  unfold pendingRestarts, popTimer. simpl.
  rewrite filter_filter_comm. apply filter_length_le.
Qed.

Lemma pendingRestarts_app (s : Sup) (ts : list Timer) (l : list Timer) :
  length (List.filter isRestartTimer (ts ++ l)) =
  (length (List.filter isRestartTimer ts) +
   length (List.filter isRestartTimer l))%nat.
Proof. now rewrite List.filter_app, length_app. Qed.

Lemma Inv_startMediaMTX (t0 : Z) (s : Sup) :
  t0 <= clock s -> running s = [] -> pendingRestarts s = 0%nat ->
  (forall t p, In t (timers s) -> armedFor t = Some p -> (p < nextPid s)%nat) ->
  Inv cfg t0 (startMediaMTX cfg s).
Proof.
  intros Hclk Hrun Hpr Harm.
  unfold Inv, startMediaMTX, pendingRestarts, isRunning in *. simpl.
  rewrite Hrun. simpl. rewrite List.filter_app, length_app. simpl.
  repeat split.
  - assumption.
  - lia.
  - intros p [= <-]. lia.
  - intros t p Hin Ha. apply in_app_iff in Hin as [Hin|[<-|[]]].
    + specialize (Harm t p Hin Ha). lia.
    + simpl in Ha. injection Ha as <-. lia.
  - intros t p Hin Hcb Ha [= <-] _.
    apply in_app_iff in Hin as [Hin|[<-|[]]].
    + specialize (Harm t _ Hin Ha). lia.
    + left. simpl. rewrite Z.add_simpl_r. split; [reflexivity|assumption].
Qed.

Lemma Inv_boot (t0 : Z) : Inv cfg t0 (boot cfg t0).
Proof.
  apply Inv_startMediaMTX; simpl; try reflexivity; try lia.
Qed.

(** A state in which no child is running satisfies the part of the
    invariant that speaks about running children for free. *)
Lemma Inv_quiet (t0 : Z) (s : Sup) :
  t0 <= clock s -> running s = [] -> (pendingRestarts s <= 1)%nat ->
  (forall p, mediamtxProcess s = Some p -> (p < nextPid s)%nat) ->
  (forall t p, In t (timers s) -> armedFor t = Some p -> (p < nextPid s)%nat) ->
  Inv cfg t0 s.
Proof.
  intros Hclk Hrun Hpr Hh Harm. unfold Inv.
  repeat split; try assumption.
  - rewrite Hrun. simpl. lia.
  - intros t p _ _ _ _ Hr. unfold isRunning in Hr. rewrite Hrun in Hr.
    discriminate.
Qed.

Lemma scheduleRestart_frame (s : Sup) :
  mediamtxProcess (scheduleRestart cfg s) = mediamtxProcess s /\
  clock (scheduleRestart cfg s) = clock s /\
  nextPid (scheduleRestart cfg s) = nextPid s /\
  running (scheduleRestart cfg s) = running s /\
  (timers (scheduleRestart cfg s) = timers s \/
   timers (scheduleRestart cfg s) =
     timers s ++ [{| timerId := nextTimer s;
                     due := clock s + delay (restartState s);
                     callback := CbStartMediaMTX;
                     armedFor := mediamtxProcess s |}]).
Proof.
  unfold scheduleRestart. simpl.
  destruct (maxRestarts cfg <? count (restartState s) + 1); simpl;
    repeat split; auto.
Qed.

Lemma onExit_frame (code : option Z) (s : Sup) :
  mediamtxProcess (onExit cfg code s) = mediamtxProcess s /\
  clock (onExit cfg code s) = clock s /\
  nextPid (onExit cfg code s) = nextPid s /\
  running (onExit cfg code s) = running s /\
  (timers (onExit cfg code s) = timers s \/
   timers (onExit cfg code s) =
     timers s ++ [{| timerId := nextTimer s;
                     due := clock s + delay (restartState s);
                     callback := CbStartMediaMTX;
                     armedFor := mediamtxProcess s |}]).
Proof.
  unfold onExit.
  assert (H0 : forall s1, s1 = broadcast (StreamStopped code) s ->
     mediamtxProcess s1 = mediamtxProcess s /\ clock s1 = clock s /\
     nextPid s1 = nextPid s /\ running s1 = running s /\
     timers s1 = timers s /\ nextTimer s1 = nextTimer s /\
     restartState s1 = restartState s).
  { intros s1 ->. simpl. repeat split. }
  destruct (H0 _ eq_refl) as (E1 & E2 & E3 & E4 & E5 & E6 & E7).
  destruct (scheduleRestart_frame (broadcast (StreamStopped code) s))
    as (F1 & F2 & F3 & F4 & F5).
  rewrite E1, E2, E3, E4, E5, E6, E7 in *.
  destruct code as [[| |]|]; simpl; auto 10.
Qed.

Lemma exit_leaves_none_running (t0 : Z) (s : Sup) (p : pid) :
  Inv cfg t0 s -> isRunning p s = true ->
  running (removeRunning p s) = [] /\ pendingRestarts s = 0%nat.
Proof.
  intros (_ & H1 & _) Hr. apply isRunning_In in Hr.
  assert (Hlt : (length (running (removeRunning p s)) < length (running s))%nat).
  { simpl. apply filter_remove_lt with (x := p); [assumption|].
    now rewrite Nat.eqb_refl. }
  split; [|lia].
  destruct (running (removeRunning p s)); [reflexivity|simpl in Hlt; lia].
Qed.

Lemma Inv_step (t0 : Z) (s : Sup) (e : Event) :
  Inv cfg t0 s -> Inv cfg t0 (step cfg s e).
Proof.
  intros HI. pose proof HI as (Hclk & H1 & Hh & Harm & H2).
  destruct e as [p code|p msg|id|ms|]; simpl.
  - (* exit *)
    destruct (isRunning p s) eqn:Hr; [|assumption].
    destruct (exit_leaves_none_running _ _ _ HI Hr) as [Hnone Hpr].
    destruct (onExit_frame code (removeRunning p s))
      as (E1 & E2 & E3 & E4 & E5).
    apply Inv_quiet.
    + rewrite E2. assumption.
    + rewrite E4. assumption.
    + unfold pendingRestarts in *. destruct E5 as [-> | ->]; simpl.
      * simpl in Hpr. lia.
      * rewrite List.filter_app, length_app. simpl. simpl in Hpr. lia.
    + rewrite E1, E3. assumption.
    + rewrite E3. intros t q Hin Ha. destruct E5 as [E5|E5]; rewrite E5 in Hin.
      * eapply Harm; eassumption.
      * apply in_app_iff in Hin as [Hin|[<-|[]]].
        -- eapply Harm; eassumption.
        -- simpl in Ha. apply Hh. assumption.
  - (* error *)
    destruct (isRunning p s); assumption.
  - (* timer *)
    destruct (findTimer id s) as [t|] eqn:Hf; [|assumption].
    apply findTimer_In in Hf as [Hin _].
    assert (Hsub : forall u, In u (timers (popTimer t s)) -> In u (timers s)).
    { intros u Hu. simpl in Hu. apply filter_In in Hu. tauto. }
    destruct (callback t) eqn:Hcb; simpl.
    + pose proof (pendingRestarts_pop t s Hin Hcb) as Hlt.
      apply Inv_startMediaMTX.
      * simpl. lia.
      * simpl. destruct (running s); [reflexivity|simpl in H1; lia].
      * lia.
      * intros u q Hu. simpl. apply Harm. auto.
    + pose proof (pendingRestarts_pop_le t s) as Hle.
      destruct (stabilityCheck_frame (popTimer t s))
        as (E1 & E2 & E3 & E4 & E5 & E6 & E7).
      unfold Inv, pendingRestarts, isRunning in *.
      rewrite E1, E2, E3, E4, E6. simpl.
      repeat split.
      * lia.
      * simpl in Hle. lia.
      * assumption.
      * intros u q Hu. apply Harm. apply Hsub. assumption.
      * intros u q Hu Hc Ha Hp Hrun.
        rewrite stabilityCheck_resetDue.
        destruct (resetDue cfg (popTimer t s)); simpl.
        -- right. split; reflexivity.
        -- apply H2 with (p := q); auto.
  - (* time passes *)
    unfold Inv, pendingRestarts, isRunning in *. simpl.
    repeat split; try assumption. lia.
  - (* stop *)
    destruct (stopMediaMTX_frame s) as (E1 & E2 & E3 & E4 & E5 & E6 & E7).
    unfold Inv, pendingRestarts, isRunning in *.
    rewrite E1, E2, E3, E4, E5, E7.
    repeat split; try assumption.
    + intros q [=].
    + intros t q _ _ _ [=].
Qed.

Lemma Inv_run (t0 : Z) (evs : list Event) (s : Sup) :
  Inv cfg t0 s -> Inv cfg t0 (run cfg s evs).
Proof.
  revert s. induction evs as [|e evs IH]; intros s HI; simpl; [assumption|].
  apply IH. apply Inv_step. assumption.
Qed.

Lemma spawns_app (a b : list Effect) : spawns (a ++ b) = spawns a ++ spawns b.
Proof. unfold spawns. apply omap_app. Qed.

Lemma restartDelays_app (a b : list Effect) :
  restartDelays (a ++ b) = restartDelays a ++ restartDelays b.
Proof. unfold restartDelays. apply omap_app. Qed.

Lemma permanentFailures_app (a b : list Effect) :
  permanentFailures (a ++ b) = (permanentFailures a + permanentFailures b)%nat.
Proof. unfold permanentFailures. now rewrite List.filter_app, length_app. Qed.

(** ** stop() and a pending restart *)

(** C1 (as amended): [stopMediaMTX] sends SIGTERM to the child it holds, if
    any, and clears the handle, but leaves every pending timer in place: a
    restart that was scheduled before the stop is still pending after it,
    and when it fires it spawns a new child. *)
Theorem stop_leaves_restart_pending (s : Sup) (id : nat) (t : Timer) :
  findTimer id s = Some t ->
  callback t = CbStartMediaMTX ->
  let s' := stopMediaMTX s in
  mediamtxProcess s' = None /\
  trace s' = trace s ++ match mediamtxProcess s with
                        | Some p => [Kill p]
                        | None => []
                        end /\
  timers s' = timers s /\
  findTimer id s' = Some t /\
  let s'' := step cfg s' (TimerFires id) in
  mediamtxProcess s'' = Some (nextPid s) /\
  spawns (trace s'') = spawns (trace s) ++ [nextPid s] /\
  isRunning (nextPid s) s'' = true.
Proof.
  intros Hf Hcb s'.
  destruct (stopMediaMTX_frame s) as (E1 & E2 & E3 & E4 & E5 & E6 & E7).
  pose proof (stopMediaMTX_trace s) as Etr.
  pose proof (findTimer_stop id s) as Ef. fold s' in E1, E2, E5, E7, Etr, Ef.
  repeat split; try assumption.
  - congruence.
  - simpl. rewrite Ef, Hf, Hcb. simpl. now rewrite E5.
  - simpl. rewrite Ef, Hf, Hcb. simpl.
    rewrite E5, Etr, <- !app_assoc, !spawns_app.
    destruct (mediamtxProcess s); simpl; rewrite ?app_nil_r; reflexivity.
  - simpl. rewrite Ef, Hf, Hcb. unfold isRunning. simpl.
    rewrite E5, existsb_app. simpl. rewrite Nat.eqb_refl.
    now rewrite orb_true_r.
Qed.

End Facts.

(** The restart scheduled by the crash of child 0 is pending when the
    supervisor is stopped and spawns child 1 when it fires. *)
Lemma stop_leaves_restart_pending_witness :
  let s := run MEDIAMTX_RESTART (boot MEDIAMTX_RESTART 1000)
             [Elapse 500; ProcExit 0%nat (Some 1)] in
  let s'' := step MEDIAMTX_RESTART (stopMediaMTX s) (TimerFires 1%nat) in
  mediamtxProcess s'' = Some 1%nat /\
  spawns (trace s'') = [0%nat; 1%nat].
Proof.
  pose proof (stop_leaves_restart_pending MEDIAMTX_RESTART
                (run MEDIAMTX_RESTART (boot MEDIAMTX_RESTART 1000)
                   [Elapse 500; ProcExit 0%nat (Some 1)])
                1%nat
                {| timerId := 1; due := 3500; callback := CbStartMediaMTX;
                   armedFor := Some 0%nat |}
                ltac:(vm_compute; reflexivity) ltac:(reflexivity)) as H.
  cbv zeta in H. destruct H as (_ & _ & _ & _ & H1 & H2 & _).
  split; [exact H1 | exact H2].
Defined.

(** C1, counterexample: child 0 crashes, its restart is scheduled, the
    supervisor is stopped, and the timer still fires and spawns child 1. *)
Lemma stop_does_not_cancel_restart :
  ~ Spec_stop_cancels_restart MEDIAMTX_RESTART.
Proof.
  intros H.
  specialize (H 1000 [Elapse 500; ProcExit 0%nat (Some 1)]).
  cbv zeta in H. destruct H as (H & _); [vm_compute; lia|].
  vm_compute in H. discriminate.
Qed.

(** ** The stability timer *)

Section Stability.

Variable cfg : RestartConfig.

(** What the callback of the stability timer tests: the state is reset
    to [{count: 0, delay: initialDelay}] exactly when some handle is held,
    [lastStableTime] is set and at least [resetAfter] has passed since it;
    otherwise nothing changes.  If the child the timer was armed for is
    still the one held and still running, the state is reset after the
    timer has fired. *)
Theorem stability_timer_resets_when_due
    (t0 : Z) (evs : list Event) (id : nat) (t : Timer) :
  0 < t0 ->
  let s := run cfg (boot cfg t0) evs in
  findTimer id s = Some t ->
  callback t = CbStabilityCheck ->
  let s' := step cfg s (TimerFires id) in
  (resetDue cfg (popTimer t s) = true ->
     restartState s' =
       {| count := 0; delay := initialDelay cfg; lastStableTime := None |}) /\
  (resetDue cfg (popTimer t s) = false -> s' = popTimer t s) /\
  (forall p, armedFor t = Some p -> mediamtxProcess s = Some p ->
     isRunning p s = true ->
     count (restartState s') = 0 /\
     delay (restartState s') = initialDelay cfg).
Proof.
  intros Ht0 s Hf Hcb s'.
  assert (Es' : s' = stabilityCheck cfg (popTimer t s)).
  { unfold s'. simpl. now rewrite Hf, Hcb. }
  rewrite Es', stabilityCheck_resetDue.
  split; [|split].
  - intros ->. reflexivity.
  - intros ->. reflexivity.
  - intros p Ha Hp Hr.
    pose proof (Inv_run cfg t0 evs _ (Inv_boot cfg t0)) as (_ & _ & _ & _ & H2).
    fold s in H2. apply findTimer_In in Hf as [Hin _].
    destruct (resetDue cfg (popTimer t s)) eqn:Hd; [split; reflexivity|].
    destruct (H2 t p Hin Hcb Ha Hp Hr) as [[Hl Hge]|Hz]; [|exact Hz].
    exfalso. unfold resetDue in Hd. simpl in Hd. rewrite Hp, Hl in Hd.
    apply andb_false_iff in Hd as [Hd|Hd].
    + apply negb_false_iff, Z.eqb_eq in Hd. lia.
    + apply Z.leb_gt in Hd. lia.
Qed.

End Stability.

(** A child that has been up for [resetAfter] after one crash: the
    counter goes back from 1 to 0 and the delay from 4000 to 2000. *)
Lemma stability_timer_resets_when_due_witness :
  let s := run MEDIAMTX_RESTART (boot MEDIAMTX_RESTART 1000)
             [Elapse 500; ProcExit 0%nat (Some 1); TimerFires 1%nat;
              TimerFires 0%nat] in
  restartState s =
    {| count := 1; delay := 4000; lastStableTime := Some 3500 |} /\
  restartState (step MEDIAMTX_RESTART s (TimerFires 2%nat)) =
    {| count := 0; delay := 2000; lastStableTime := None |}.
Proof.
  pose proof (stability_timer_resets_when_due MEDIAMTX_RESTART 1000
                [Elapse 500; ProcExit 0%nat (Some 1); TimerFires 1%nat;
                 TimerFires 0%nat]
                2%nat
                {| timerId := 2; due := 303500; callback := CbStabilityCheck;
                   armedFor := Some 1%nat |}
                ltac:(lia) ltac:(vm_compute; reflexivity) ltac:(reflexivity))
    as H.
  cbv zeta in H. destruct H as (H & _ & _).
  split; [vm_compute; reflexivity|].
  apply H. vm_compute. reflexivity.
Defined.

(** The sentence of the specification fails on the code: child 1 is
    started at 3500 after one crash and exits cleanly at 4500; nothing
    clears the handle, so when its stability timer fires at 303500 the
    restart state is reset although the child has been gone for almost
    five minutes. *)
Lemma reset_although_child_exited :
  ~ Spec_reset_only_if_still_running MEDIAMTX_RESTART.
Proof.
  intros H.
  specialize (H 1000
                [Elapse 500; ProcExit 0%nat (Some 1); TimerFires 1%nat;
                 Elapse 1000; ProcExit 1%nat (Some 0); TimerFires 0%nat]
                2%nat
                {| timerId := 2; due := 303500; callback := CbStabilityCheck;
                   armedFor := Some 1%nat |}
                ltac:(lia)).
  cbv zeta in H.
  destruct H as (_ & p & Hp & Hr).
  - vm_compute. reflexivity.
  - reflexivity.
  - vm_compute. discriminate.
  - injection Hp as <-. vm_compute in Hr. discriminate.
Qed.

(** C3 (a defect of the code): the stability timer is meant to forgive
    the failures of a child that has been running for [resetAfter], as the
    comment "Mark as stable after running for a while", the variable
    [runningTime] and the log line "MediaMTX stable for 5 minutes" say.
    But the callback tests only that a handle is held, and the exit
    handler never clears the handle, so the reset also happens for a child
    that is gone.  Two runs of the server from time 1000:

    - child 0 crashes at 1500, child 1 is started at 3500 and exits with
      code 0 at 4500; when its timer fires at 303500 no child is running, and
      the state goes from [{count: 1, delay: 4000}] to
      [{count: 0, delay: 2000}];
    - six children crash as soon as they are started, child 6 is started
      at 123000 and crashes at 373000, which makes [count] 7 and schedules
      a restart in 60 s; when the timer of child 6 fires at 423000 no child is
      running, that restart is still pending, and the state goes from
      [{count: 7, delay: 60000}] to [{count: 0, delay: 2000}]. *)
Theorem stability_timer_forgives_dead_child :
  let cfg := MEDIAMTX_RESTART in
  let s1 := run cfg (boot cfg 1000)
              [Elapse 500; ProcExit 0%nat (Some 1); TimerFires 1%nat;
               Elapse 1000; ProcExit 1%nat (Some 0); TimerFires 0%nat] in
  let s2 := run cfg (boot cfg 1000)
              (crashes 6 ++ [Elapse 250000; ProcExit 6%nat (Some 1)]) in
  (findTimer 2 s1 = Some {| timerId := 2; due := 303500;
                            callback := CbStabilityCheck;
                            armedFor := Some 1%nat |} /\
   running s1 = [] /\
   restartState s1
     = {| count := 1; delay := 4000; lastStableTime := Some 3500 |} /\
   restartState (step cfg s1 (TimerFires 2%nat))
     = {| count := 0; delay := 2000; lastStableTime := None |}) /\
  (findTimer 12 s2 = Some {| timerId := 12; due := 423000;
                             callback := CbStabilityCheck;
                             armedFor := Some 6%nat |} /\
   running s2 = [] /\
   clock s2 = 373000 /\
   pendingRestarts s2 = 1%nat /\
   restartState s2
     = {| count := 7; delay := 60000; lastStableTime := Some 123000 |} /\
   restartState (step cfg s2 (TimerFires 12%nat))
     = {| count := 0; delay := 2000; lastStableTime := None |} /\
   pendingRestarts (step cfg s2 (TimerFires 12%nat)) = 1%nat).
Proof.
  cbv zeta. split; repeat split; vm_compute; reflexivity.
Qed.

(** ** The restart cap *)

Section RestartCap.

Variable cfg : RestartConfig.

Lemma no_restart_timer (s : Sup) (t : Timer) :
  pendingRestarts s = 0%nat -> In t (timers s) ->
  callback t = CbStabilityCheck.
Proof.
  unfold pendingRestarts. intros H0 Hin.
  destruct (callback t) eqn:Hcb; [|reflexivity].
  assert (Hf : In t (List.filter isRestartTimer (timers s))).
  { apply filter_In. split; [assumption|]. unfold isRestartTimer. now rewrite Hcb. }
  destruct (List.filter isRestartTimer (timers s)); [destruct Hf|discriminate].
Qed.

Lemma Halted_step (s : Sup) (e : Event) :
  Halted s ->
  Halted (step cfg s e) /\
  exists extra, trace (step cfg s e) = trace s ++ extra /\ harmless extra.
Proof.
  intros [Hrun Hpr].
  assert (Hnil : exists extra, trace s = trace s ++ extra /\ harmless extra).
  { exists []. rewrite app_nil_r. repeat split. }
  assert (Hnot : forall p, isRunning p s = false).
  { intros p. unfold isRunning. now rewrite Hrun. }
  destruct e as [p code|p msg|id|ms|]; simpl.
  - rewrite Hnot. split; [split|]; assumption.
  - rewrite Hnot. split; [split|]; assumption.
  - destruct (findTimer id s) as [t|] eqn:Hf; [|split; [split|]; assumption].
    apply findTimer_In in Hf as [Hin _].
    rewrite (no_restart_timer s t Hpr Hin). simpl.
    destruct (stabilityCheck_frame cfg (popTimer t s))
      as (E1 & E2 & E3 & E4 & E5 & E6 & E7).
    pose proof (pendingRestarts_pop_le t s) as Hle.
    unfold Halted, pendingRestarts in *. rewrite E2, E6, E7. simpl.
    split; [split|]; try assumption. simpl in Hle. lia.
  - split; [split|]; assumption.
  - destruct (stopMediaMTX_frame s) as (E1 & E2 & E3 & E4 & E5 & E6 & E7).
    unfold Halted, pendingRestarts in *. rewrite E2, E7.
    split; [split; assumption|].
    rewrite stopMediaMTX_trace. eexists. split; [reflexivity|].
    destruct (mediamtxProcess s); repeat split.
Qed.

Lemma harmless_app (a b : list Effect) :
  harmless a -> harmless b -> harmless (a ++ b).
Proof.
  unfold harmless. intros (A1 & A2 & A3) (B1 & B2 & B3).
  rewrite restartDelays_app, spawns_app, permanentFailures_app.
  rewrite A1, A2, A3, B1, B2, B3. repeat split.
Qed.

Lemma Halted_run (evs : list Event) (s : Sup) :
  Halted s ->
  Halted (run cfg s evs) /\
  exists extra, trace (run cfg s evs) = trace s ++ extra /\ harmless extra.
Proof.
  revert s. induction evs as [|e evs IH]; intros s Hs; simpl.
  - split; [assumption|]. exists []. rewrite app_nil_r. repeat split.
  - destruct (Halted_step s e Hs) as (Hs1 & x1 & E1 & Hx1).
    destruct (IH _ Hs1) as (Hs2 & x2 & E2 & Hx2).
    split; [assumption|]. exists (x1 ++ x2).
    rewrite E2, E1, app_assoc. split; [reflexivity|].
    apply harmless_app; assumption.
Qed.

Hypothesis cap_nonneg : 0 <= maxRestarts cfg.

Lemma InvFailure_boot (t0 : Z) : InvFailure cfg (boot cfg t0).
Proof. left. split; [reflexivity|exact cap_nonneg]. Qed.

Lemma InvFailure_step (t0 : Z) (s : Sup) (e : Event) :
  Inv cfg t0 s -> InvFailure cfg s -> forged e = false ->
  InvFailure cfg (step cfg s e).
Proof.
  intros HI [[Hpf Hc]|[Hpf Hh]] Hforged.
  2:{ right. destruct (Halted_step s e Hh) as (Hh' & x & -> & _ & _ & Hx).
      rewrite permanentFailures_app, Hx. split; [lia|assumption]. }
  destruct e as [p code|p msg|id|ms|]; simpl.
  - destruct (isRunning p s) eqn:Hr; [|left; split; assumption].
    destruct (exit_leaves_none_running cfg _ _ _ HI Hr) as [Hnone Hpr].
    unfold onExit.
    assert (Hbase : InvFailure cfg
              (broadcast (StreamStopped code) (removeRunning p s))).
    { left. simpl. rewrite permanentFailures_app, Hpf. split; [reflexivity|assumption]. }
    assert (Hsched : InvFailure cfg
              (scheduleRestart cfg
                 (broadcast (StreamStopped code) (removeRunning p s)))).
    { unfold scheduleRestart. simpl.
      destruct (maxRestarts cfg <? count (restartState s) + 1) eqn:Hm.
      - right. unfold Halted, pendingRestarts. simpl.
        rewrite !permanentFailures_app, Hpf. simpl in Hnone.
        repeat split; assumption.
      - left. simpl. rewrite !permanentFailures_app, Hpf.
        apply Z.ltb_ge in Hm. split; [reflexivity|assumption]. }
    destruct code as [[| |]|]; assumption.
  - destruct (isRunning p s); [|left; split; assumption].
    left. simpl. rewrite permanentFailures_app, Hpf.
    unfold permanentFailures. simpl. simpl in Hforged. rewrite Hforged.
    split; [reflexivity|assumption].
  - destruct (findTimer id s) as [t|] eqn:Hf; [|left; split; assumption].
    destruct (callback t); simpl.
    + left. simpl. rewrite !permanentFailures_app, Hpf.
      split; [reflexivity|assumption].
    + rewrite stabilityCheck_resetDue.
      destruct (resetDue cfg (popTimer t s)); left; simpl;
        (split; [assumption|]); [exact cap_nonneg|assumption].
  - left. split; assumption.
  - left. destruct (stopMediaMTX_frame s) as (_ & _ & -> & _).
    rewrite stopMediaMTX_trace, permanentFailures_app, Hpf.
    split; [|assumption]. destruct (mediamtxProcess s); reflexivity.
Qed.

Lemma InvFailure_run (t0 : Z) (evs : list Event) (s : Sup) :
  Inv cfg t0 s -> InvFailure cfg s -> Forall (fun e => forged e = false) evs ->
  InvFailure cfg (run cfg s evs).
Proof.
  revert s. induction evs as [|e evs IH]; intros s HI HF Hev; simpl;
    [assumption|].
  inversion Hev as [|? ? He Hevs]; subst.
  apply IH; [apply Inv_step|eapply InvFailure_step|]; eassumption.
Qed.

(** C5: once [count] has gone past [maxRestarts], the permanent-failure
    event has been broadcast exactly once, and whatever happens afterwards
    no restart is scheduled, no child is spawned and the event is not
    broadcast again: no child runs and no restart is pending.  The call of
    [scheduleRestart] that takes [count] past the cap broadcasts the event
    and sets no timer.  The events before the cap are any in which no
    'error' event carries the text of the permanent-failure event. *)
Theorem restart_cap_is_final (t0 : Z) (evs evs' : list Event) :
  Forall (fun e => forged e = false) evs ->
  let s := run cfg (boot cfg t0) evs in
  maxRestarts cfg < count (restartState s) ->
  let s' := run cfg s evs' in
  permanentFailures (trace s) = 1%nat /\
  permanentFailures (trace s') = 1%nat /\
  restartDelays (trace s') = restartDelays (trace s) /\
  spawns (trace s') = spawns (trace s) /\
  running s' = [] /\ pendingRestarts s' = 0%nat /\
  forall s0, maxRestarts cfg <= count (restartState s0) ->
    timers (scheduleRestart cfg s0) = timers s0 /\
    trace (scheduleRestart cfg s0) =
      trace s0 ++ [Broadcast (StreamError failureText)].
Proof.
  intros Hev s Hc s'.
  assert (Hlocal : forall s0, maxRestarts cfg <= count (restartState s0) ->
            timers (scheduleRestart cfg s0) = timers s0 /\
            trace (scheduleRestart cfg s0) =
              trace s0 ++ [Broadcast (StreamError failureText)]).
  { intros s0 H0. unfold scheduleRestart. simpl.
    assert (E : (maxRestarts cfg <? count (restartState s0) + 1) = true)
      by (apply Z.ltb_lt; lia).
    rewrite E. split; reflexivity. }
  pose proof (InvFailure_run t0 evs _ (Inv_boot cfg t0) (InvFailure_boot t0) Hev)
    as [[_ Hle]|[Hpf Hh]].
  { fold s in Hle. lia. }
  fold s in Hpf, Hh.
  destruct (Halted_run evs' s Hh) as ([Hr Hp] & x & Ex & Hd & Hs & Hx).
  fold s' in Hr, Hp, Ex.
  rewrite Ex, permanentFailures_app, restartDelays_app, spawns_app.
  rewrite Hd, Hs, Hx, Hpf, !app_nil_r. repeat split; try assumption.
  - apply Hlocal. assumption.
  - apply Hlocal. assumption.
Qed.

End RestartCap.

(** Eleven crashes in a row, then the last stability timer fires, the
    server is shut down and a stale exit is reported. *)
Lemma restart_cap_is_final_witness :
  let s := run MEDIAMTX_RESTART (boot MEDIAMTX_RESTART 1000) (crashes 11) in
  let s' := run MEDIAMTX_RESTART s
              [TimerFires 20%nat; Shutdown; ProcExit 10%nat (Some 1)] in
  count (restartState s) = 11 /\
  permanentFailures (trace s) = 1%nat /\
  permanentFailures (trace s') = 1%nat /\
  restartDelays (trace s') = restartDelays (trace s) /\
  spawns (trace s') = spawns (trace s) /\
  running s' = [] /\ pendingRestarts s' = 0%nat.
Proof.
  split; [vm_compute; reflexivity|].
  destruct (restart_cap_is_final MEDIAMTX_RESTART ltac:(simpl; lia) 1000
              (crashes 11)
              [TimerFires 20%nat; Shutdown; ProcExit 10%nat (Some 1)]
              ltac:(repeat constructor) ltac:(vm_compute; reflexivity))
    as (H1 & H2 & H3 & H4 & H5 & H6 & _).
  repeat split; assumption.
Defined.

(** ** Backoff delays *)

Section Backoff.

Variable cfg : RestartConfig.
Hypothesis maxDelay_nonneg : 0 <= maxDelay cfg.
Hypothesis initial_le_max : initialDelay cfg <= maxDelay cfg.

Lemma backoff_0 : backoff cfg 0 = initialDelay cfg.
Proof. unfold backoff. simpl. lia. Qed.

Lemma backoff_S (k : nat) :
  backoff cfg (S k) = Z.min (backoff cfg k * 2) (maxDelay cfg).
Proof.
  unfold backoff. rewrite Nat2Z.inj_succ, Z.pow_succ_r by lia. lia.
Qed.

Lemma findTimer_fresh (id : nat) (s : Sup) :
  (forall t, In t (timers s) -> (timerId t < id)%nat) ->
  findTimer id s = None.
Proof.
  intros H. unfold findTimer.
  destruct (List.find _ (timers s)) as [t|] eqn:E; [|reflexivity].
  apply find_some in E as [Hin He]. apply Nat.eqb_eq in He.
  specialize (H t Hin). lia.
Qed.

Lemma find_app_fresh (id : nat) (l : list Timer) (t : Timer) :
  (forall u, In u l -> (timerId u < id)%nat) -> timerId t = id ->
  List.find (fun u => Nat.eqb (timerId u) id) (l ++ [t]) = Some t.
Proof.
  intros H Ht. induction l as [|a l IH]; simpl.
  - now rewrite Ht, Nat.eqb_refl.
  - destruct (Nat.eqb_spec (timerId a) id) as [E|E].
    + specialize (H a (or_introl eq_refl)). lia.
    + apply IH. intros u Hu. apply H. now right.
Qed.

Lemma Stuck_crashLoop (codes : list (option Z)) (s : Sup) :
  Stuck s -> crashLoop cfg codes s = s.
Proof.
  intros [Hdead Hfresh]. induction codes as [|c cs IH]; simpl; [reflexivity|].
  destruct (mediamtxProcess s) as [p|] eqn:Hp; [|reflexivity].
  rewrite (Hdead p eq_refl), (findTimer_fresh _ s Hfresh). exact IH.
Qed.

Lemma crash_once (k : nat) (s : Sup) (p : pid) (c : option Z) :
  Crashing cfg k s -> mediamtxProcess s = Some p -> c <> Some 0 ->
  let s' := run cfg s [ProcExit p c; TimerFires (nextTimer s)] in
  (Z.of_nat k < maxRestarts cfg ->
     Crashing cfg (S k) s' /\
     restartDelays (trace s') = restartDelays (trace s) ++ [backoff cfg k]) /\
  (maxRestarts cfg <= Z.of_nat k ->
     Stuck s' /\ restartDelays (trace s') = restartDelays (trace s)).
Proof.
  intros ((q & Hq & Hr) & Hc & Hd & Hfresh) Hp Hne s'.
  rewrite Hp in Hq. injection Hq as <-.
  assert (Es : step cfg s (ProcExit p c) =
               scheduleRestart cfg (broadcast (StreamStopped c) (removeRunning p s))).
  { simpl. rewrite Hr. unfold onExit. destruct c as [[| |]|]; congruence. }
  unfold s'.
  change (run cfg s [ProcExit p c; TimerFires (nextTimer s)])
    with (step cfg (step cfg s (ProcExit p c)) (TimerFires (nextTimer s))).
  rewrite Es. clear Es.
  unfold scheduleRestart. simpl. rewrite Hc.
  split; intros Hk.
  - assert (Hm : (maxRestarts cfg <? Z.of_nat k + 1) = false)
      by (apply Z.ltb_ge; lia).
    rewrite Hm. unfold findTimer. simpl.
    rewrite find_app_fresh by (assumption || reflexivity). simpl.
    split.
    + unfold Crashing, isRunning. simpl. repeat split.
      * exists (nextPid s). split; [reflexivity|].
        rewrite existsb_app. simpl. rewrite Nat.eqb_refl.
        now rewrite orb_true_r.
      * lia.
      * rewrite backoff_S, Hd. reflexivity.
      * intros t Hin. apply in_app_iff in Hin as [Hin|[<-|[]]]; [|simpl; lia].
        apply filter_In in Hin as [Hin _].
        apply in_app_iff in Hin as [Hin|[<-|[]]]; [|simpl; lia].
        specialize (Hfresh t Hin). lia.
    + rewrite !restartDelays_app. simpl. rewrite Hd, !app_nil_r. reflexivity.
  - assert (Hm : (maxRestarts cfg <? Z.of_nat k + 1) = true)
      by (apply Z.ltb_lt; lia).
    rewrite Hm. unfold findTimer. simpl.
    fold (findTimer (nextTimer s) s). rewrite (findTimer_fresh _ s Hfresh).
    simpl.
    split.
    + unfold Stuck, isRunning. simpl. split; [|assumption].
      intros q Hq. rewrite Hp in Hq. injection Hq as <-.
      apply not_true_is_false. intros H. apply existsb_exists in H as (x & Hx & E).
      apply Nat.eqb_eq in E. subst x. apply filter_In in Hx as [_ Hx].
      rewrite Nat.eqb_refl in Hx. discriminate.
    + rewrite !restartDelays_app. simpl. rewrite !app_nil_r. reflexivity.
Qed.

Lemma crashLoop_delays (codes : list (option Z)) :
  Forall (fun c => c <> Some 0) codes ->
  forall (k : nat) (s : Sup),
  Crashing cfg k s ->
  restartDelays (trace (crashLoop cfg codes s)) =
    restartDelays (trace s) ++
    map (backoff cfg)
        (seq k (Nat.min (length codes) (Z.to_nat (maxRestarts cfg) - k))).
Proof.
  induction 1 as [|c cs Hc Hcs IH]; intros k s HC.
  - simpl. now rewrite app_nil_r.
  - pose proof HC as ((p & Hp & Hr) & _).
    cbn [crashLoop]. rewrite Hp.
    destruct (crash_once k s p c HC Hp Hc) as [Hlt Hge].
    destruct (Z.lt_ge_cases (Z.of_nat k) (maxRestarts cfg)) as [Hk|Hk].
    + destruct (Hlt Hk) as [HC' Hd]. rewrite (IH _ _ HC'), Hd, <- app_assoc.
      f_equal.
      replace (Nat.min (length (c :: cs)) (Z.to_nat (maxRestarts cfg) - k))
        with (S (Nat.min (length cs) (Z.to_nat (maxRestarts cfg) - S k)))
        by (simpl length; lia).
      reflexivity.
    + destruct (Hge Hk) as [HS Hd].
      rewrite (Stuck_crashLoop cs _ HS), Hd.
      replace (Nat.min (length (c :: cs)) (Z.to_nat (maxRestarts cfg) - k))
        with 0%nat by lia.
      simpl. now rewrite app_nil_r.
Qed.

Lemma Crashing_boot (t0 : Z) : Crashing cfg 0 (boot cfg t0).
Proof.
  unfold Crashing. simpl. repeat split.
  - exists 0%nat. split; reflexivity.
  - symmetry. apply backoff_0.
  - intros t [<-|[]]. simpl. lia.
Qed.

(** C2 (as amended): in a run of consecutive nonzero exits the restarts
    are scheduled with the delays [min(initialDelay * 2^k, maxDelay)] for
    k = 0, 1, ..., and exactly [maxRestarts] of them are scheduled: the
    restart number k exists for [k < maxRestarts] only. *)
Theorem crash_loop_delays (t0 : Z) (codes : list (option Z)) :
  Forall (fun c => c <> Some 0) codes ->
  restartDelays (trace (crashLoop cfg codes (boot cfg t0))) =
    map (backoff cfg)
        (seq 0 (Nat.min (length codes) (Z.to_nat (maxRestarts cfg)))).
Proof.
  intros Hc.
  rewrite (crashLoop_delays codes Hc 0 _ (Crashing_boot t0)).
  rewrite Nat.sub_0_r. reflexivity.
Qed.

End Backoff.

(** Six crashes in a row with the shipped configuration. *)
Lemma crash_loop_delays_witness :
  restartDelays
    (trace (crashLoop MEDIAMTX_RESTART (repeat (Some 1) 6)
              (boot MEDIAMTX_RESTART 1000)))
  = [2000; 4000; 8000; 16000; 32000; 60000].
Proof.
  rewrite (crash_loop_delays MEDIAMTX_RESTART ltac:(simpl; lia)
             ltac:(simpl; lia) 1000 (repeat (Some 1) 6)).
  - reflexivity.
  - repeat constructor; discriminate.
Defined.

(** C2, counterexample: counting from 0, restart number 10 = maxRestarts
    does not exist, because the eleventh crash is the permanent failure;
    counting from 1, the first delay is 2000 and not min(2000 * 2, 60000). *)
Lemma no_restart_number_maxRestarts :
  ~ Spec_nth_delay MEDIAMTX_RESTART 1000 (Some 1) /\
  ~ Spec_nth_delay_from_1 MEDIAMTX_RESTART 1000 (Some 1).
Proof.
  split; intros H.
  - specialize (H 10%nat ltac:(simpl; lia)). vm_compute in H. discriminate.
  - specialize (H 1%nat ltac:(lia) ltac:(simpl; lia)). vm_compute in H.
    discriminate.
Qed.

End SupervisorFacts.

(* ===================================================================== *)
(** * Facts about the capture lifecycle manager                           *)
(* ===================================================================== *)

Module CaptureFacts.
Import NodePath Capture.

(** ** The plain disk *)

(** On the plain disk [unlink] removes the file, if there is one. *)
Lemma unlink_plainDisk (path : string) (w : World) :
  snd (unlink plainDisk path w)
  = setFs (delete path (fs w)) (act (Unlink path) w).
Proof.
  unfold unlink. cbn [act fs denied others plainDisk].
  destruct (fs w !! path) eqn:E; [reflexivity|].
  cbn [snd]. unfold setFs. cbn [fs now actions].
  now rewrite delete_id.
Qed.

Lemma capturePhoto_eq (root : list string) (env : Env) (w : World) :
  capturePhoto root env w
  = let filename := generateFilename env "photo" "jpg" in
    let filepath := join (PHOTOS_DIR root) filename in
    let '(streamReady, w1) := checkStreamHealth env w in
    if negb streamReady then (Rejected notReadyText, w1)
    else
      let w2 := act (ExecFfmpegPhoto filepath) w1 in
      let '(files, failure) := ffmpegPhoto env filepath (fs w2) in
      let w3 := setFs files w2 in
      let caught (errorOutput : string) (wc : World) :=
        let wd := setFs (delete filepath (fs wc)) (act (Unlink filepath) wc) in
        (Rejected ("Photo capture failed: " ++ sliceLast 200 errorOutput)%string,
         wd) in
      match failure with
      | Some errorOutput => caught errorOutput w3
      | None =>
          let w4 := act (Stat filepath) w3 in
          match fs w4 !! filepath with
          | Some size =>
              (Resolved {| photoFilename := filename; photoPath := filepath;
                           photoSize := size;
                           photoTimestamp := isoLater env |},
               w4)
          | None => caught (enoentText filepath) w4
          end
      end.
Proof.
  unfold capturePhoto, capturePhotoOn. cbv zeta.
  destruct (checkStreamHealth env w) as [ready w1].
  destruct ready; [|reflexivity]. cbn [negb].
  destruct (ffmpegPhoto env _ _) as [files failure].
  destruct failure as [e|].
  - now rewrite unlink_plainDisk.
  - unfold statSize. cbn [others plainDisk].
    destruct (fs _ !! _); [reflexivity|].
    cbn [fmap option_fmap option_map]. now rewrite unlink_plainDisk.
Qed.

Lemma deleteCapture_eq (root : list string) (filename : string) (w : World) :
  deleteCapture root filename w
  = match getFilePath root filename with
    | None => (Rejected "Invalid filename", w)
    | Some filepath =>
        let w1 := act (Access filepath) w in
        match fs w1 !! filepath with
        | None => (Rejected "File not found", w1)
        | Some _ =>
            (Resolved filename,
             setFs (delete filepath (fs w1)) (act (Unlink filepath) w1))
        end
    end.
Proof.
  unfold deleteCapture, deleteCaptureOn.
  destruct (getFilePath root filename) as [p|]; [|reflexivity].
  cbv zeta. unfold statSize, unlink. cbn [act fs others denied plainDisk].
  destruct (fs w !! p); reflexivity.
Qed.

(** ** Paths *)

Section Paths.

Local Open Scope string_scope.
#[local] Arguments String.append !s1 s2 : simpl nomatch.

Lemma append_assoc (a b c : string) : (a ++ b) ++ c = a ++ (b ++ c).
Proof. induction a as [|x a IH]; simpl; [reflexivity|]. now rewrite IH. Qed.

Lemma prefix_append (a b c : string) :
  String.prefix (a ++ b) (a ++ c) = String.prefix b c.
Proof.
  induction a as [|x a IH]; simpl; [reflexivity|].
  destruct (ascii_dec x x) as [_|N]; [exact IH|congruence].
Qed.

Lemma absPath_app (a b : list string) :
  absPath (a ++ b) = absPath a ++ absPath b.
Proof.
  induction a as [|x a IH]; simpl; [reflexivity|].
  now rewrite IH, append_assoc.
Qed.

Lemma absPath_isAbsolute (ds : list string) (f : string) :
  isAbsolute (absPath ds ++ String slash f) = true.
Proof. destruct ds; reflexivity. Qed.

Lemma segments_name (d x : string) :
  noSlash d = true -> isAbsolute x = true ->
  segments (d ++ x) = d :: tail (segments x).
Proof.
  intros Hd Hx. induction d as [|c d IH].
  - destruct x as [|y x]; [discriminate|]. simpl in *. now rewrite Hx.
  - simpl in Hd. apply andb_true_iff in Hd as [Hc Hd].
    simpl. apply negb_true_iff in Hc. rewrite Hc, (IH Hd). reflexivity.
Qed.

Lemma isName_noSlash (d : string) : isName d = true -> noSlash d = true.
Proof.
  unfold isName. intros H.
  repeat (apply andb_true_iff in H as [H _]). exact H.
Qed.

Lemma segments_absPath (ds : list string) (f : string) :
  Forall (fun d => isName d = true) ds ->
  segments (absPath ds ++ String slash f) = "" :: ds ++ segments f.
Proof.
  induction 1 as [|d ds Hd Hds IH]; [reflexivity|].
  change (absPath (d :: ds) ++ String slash f)
    with (String slash ((d ++ absPath ds) ++ String slash f)).
  rewrite append_assoc.
  change (segments (String slash (d ++ absPath ds ++ String slash f)))
    with ("" :: segments (d ++ absPath ds ++ String slash f)).
  rewrite segments_name, IH;
    [reflexivity|now apply isName_noSlash|apply absPath_isAbsolute].
Qed.

Lemma normalizeSegments_names (a : bool) (ds stack segs : list string) :
  Forall (fun d => isName d = true) ds ->
  normalizeSegments a stack (ds ++ segs) =
    normalizeSegments a (rev ds ++ stack) segs.
Proof.
  intros H. revert stack.
  induction H as [|d ds Hd Hds IH]; intros stack; [reflexivity|].
  unfold isName in Hd.
  apply andb_true_iff in Hd as [Hd H3]. apply andb_true_iff in Hd as [Hd H2].
  apply andb_true_iff in Hd as [_ H1].
  apply negb_true_iff in H1, H2, H3.
  simpl. rewrite H1, H2, H3. simpl. rewrite IH, <- app_assoc. reflexivity.
Qed.

Lemma endsWithSlash_append (a b : string) :
  b <> "" -> endsWithSlash (a ++ b) = endsWithSlash b.
Proof.
  intros Hb. induction a as [|x a IH]; [reflexivity|].
  simpl. destruct (a ++ b) eqn:E; [|exact IH].
  destruct a; simpl in E; [congruence|discriminate].
Qed.

(** Joining a relative path onto an absolute directory given by its
    segments: the directory's segments are the stack the relative path is
    normalised on. *)
Lemma join_absPath (ds res : list string) (f : string) :
  Forall (fun d => isName d = true) ds -> ds <> [] ->
  f <> "" -> endsWithSlash (String slash f) = false ->
  normalizeSegments false (rev ds) (segments f) = res ->
  Forall (fun d => isName d = true) res -> res <> [] ->
  join (absPath ds) f = absPath res.
Proof.
  intros Hds Hne Hf Hend Hres Hnames Hres_ne.
  unfold join.
  destruct ds as [|d ds]; [congruence|].
  destruct f as [|c f]; [congruence|].
  change (absPath (d :: ds) =? "") with false.
  change (String c f =? "") with false. cbn [negb].
  set (path := absPath (d :: ds) ++ String slash (String c f)).
  assert (Hp : (path =? "") = false) by reflexivity.
  rewrite Hp. unfold normalize. rewrite Hp.
  assert (Habs : isAbsolute path = true) by reflexivity.
  rewrite Habs. cbn [negb]. cbv zeta.
  assert (Hend' : endsWithSlash path = false).
  { unfold path. rewrite endsWithSlash_append by discriminate. exact Hend. }
  rewrite Hend'. unfold path. rewrite (segments_absPath _ _ Hds).
  change (normalizeSegments false [] ("" :: (d :: ds) ++ segments (String c f)))
    with (normalizeSegments false [] ((d :: ds) ++ segments (String c f))).
  rewrite (normalizeSegments_names _ _ _ _ Hds), app_nil_r, Hres.
  destruct res as [|r res]; [congruence|].
  inversion Hnames as [|? ? Hr _]; subst.
  destruct r as [|y r]; [discriminate|]. reflexivity.
Qed.

Variable root : list string.
Hypothesis root_names : Forall (fun d => isName d = true) root.

Lemma names_app (l : list string) :
  Forall (fun d => isName d = true) l ->
  Forall (fun d => isName d = true) (root ++ l).
Proof. intros H. apply Forall_app. split; assumption. Qed.

Lemma CAPTURES_DIR_eq : CAPTURES_DIR root = absPath (root ++ ["captures"]).
Proof.
  unfold CAPTURES_DIR, dirname.
  apply join_absPath.
  - apply names_app. repeat constructor.
  - destruct root; discriminate.
  - discriminate.
  - reflexivity.
  - rewrite rev_app_distr. simpl. now rewrite rev_involutive.
  - apply names_app. repeat constructor.
  - destruct root; discriminate.
Qed.

Lemma PHOTOS_DIR_eq :
  PHOTOS_DIR root = absPath (root ++ ["captures"; "photos"]).
Proof.
  unfold PHOTOS_DIR. rewrite CAPTURES_DIR_eq.
  apply join_absPath.
  - apply names_app. repeat constructor.
  - destruct root; discriminate.
  - discriminate.
  - reflexivity.
  - rewrite rev_app_distr. simpl. now rewrite rev_involutive, <- app_assoc.
  - apply names_app. repeat constructor.
  - destruct root; discriminate.
Qed.

Lemma getFilePath_escapingName :
  getFilePath root escapingName = Some (absPath (root ++ ["mediamtx.yml"])).
Proof.
  unfold getFilePath.
  change (startsWith escapingName "photo_") with true. cbv iota.
  rewrite PHOTOS_DIR_eq. f_equal.
  apply join_absPath.
  - apply names_app. repeat constructor.
  - destruct root; discriminate.
  - discriminate.
  - reflexivity.
  - rewrite rev_app_distr. simpl. now rewrite rev_involutive.
  - apply names_app. repeat constructor.
  - destruct root; discriminate.
Qed.

Lemma escaped_outside_photos :
  isInside (PHOTOS_DIR root) (absPath (root ++ ["mediamtx.yml"])) = false.
Proof.
  unfold isInside.
  rewrite PHOTOS_DIR_eq, !absPath_app, append_assoc, prefix_append.
  reflexivity.
Qed.

(** C9: [getFilePath] looks at the prefix of the name and at nothing
    else: a name that starts with neither "photo_" nor "video_" gives
    [null], any other name gives the plain [path.join] of its directory
    and the name.  The name "photo_/../../../mediamtx.yml" is accepted and
    leads to [mediamtx.yml] in the project directory, outside the photos
    directory, and [deleteCapture] removes that file when it exists. *)
Theorem getFilePath_checks_prefix_only :
  (forall f, startsWith f "photo_" = false -> startsWith f "video_" = false ->
     getFilePath root f = None) /\
  (forall f, startsWith f "photo_" = true ->
     getFilePath root f = Some (join (PHOTOS_DIR root) f)) /\
  (forall f, startsWith f "photo_" = false -> startsWith f "video_" = true ->
     getFilePath root f = Some (join (VIDEOS_DIR root) f)) /\
  let p := absPath (root ++ ["mediamtx.yml"]) in
  startsWith escapingName "photo_" = true /\
  getFilePath root escapingName = Some p /\
  isInside (PHOTOS_DIR root) p = false /\
  forall (w : World) (size : Z),
    fs w !! p = Some size ->
    fst (deleteCapture root escapingName w) = Resolved escapingName /\
    fs (snd (deleteCapture root escapingName w)) = delete p (fs w) /\
    fs (snd (deleteCapture root escapingName w)) !! p = None.
Proof.
  split; [|split; [|split]].
  - intros f H1 H2. unfold getFilePath. now rewrite H1, H2.
  - intros f H1. unfold getFilePath. now rewrite H1.
  - intros f H1 H2. unfold getFilePath. now rewrite H1, H2.
  - intros p. split; [reflexivity|].
    split; [apply getFilePath_escapingName|].
    split; [apply escaped_outside_photos|].
    intros w size Hw. rewrite !deleteCapture_eq.
    rewrite getFilePath_escapingName. fold p. simpl. rewrite Hw. simpl.
    repeat split. apply lookup_delete_eq.
Qed.

End Paths.

(** The project in /home/pi/telescope: the accepted name reaches the
    configuration file of the media server. *)
Lemma getFilePath_checks_prefix_only_witness :
  getFilePath ["home"; "pi"; "telescope"]%string escapingName
    = Some "/home/pi/telescope/mediamtx.yml"%string /\
  isInside (PHOTOS_DIR ["home"; "pi"; "telescope"]%string)
           "/home/pi/telescope/mediamtx.yml" = false /\
  PHOTOS_DIR ["home"; "pi"; "telescope"]%string
    = "/home/pi/telescope/captures/photos"%string.
Proof.
  destruct (getFilePath_checks_prefix_only ["home"; "pi"; "telescope"]%string
              ltac:(repeat constructor))
    as (_ & _ & _ & _ & H1 & H2 & _).
  split; [exact H1|]. split; [exact H2|]. reflexivity.
Defined.

Section Calls.

Variable root : list string.

(** ** Health probe *)

Lemma checkStreamHealth_never_ready (env : Env) (w : World) :
  probe env 1 = false -> probe env 2 = false -> probe env 3 = false ->
  checkStreamHealth env w =
    (false, {| fs := fs w; now := now w + 1000 + 1000;
               actions := actions w ++ probeRound |}).
Proof.
  intros H1 H2 H3. unfold checkStreamHealth. simpl.
  rewrite H1, H2, H3. simpl. unfold act, sleep. simpl.
  rewrite <- !app_assoc. reflexivity.
Qed.

Lemma checkStreamHealth_fs (env : Env) (w : World) :
  fs (snd (checkStreamHealth env w)) = fs w.
Proof.
  unfold checkStreamHealth. simpl.
  destruct (probe env 1); [reflexivity|]. simpl.
  destruct (probe env 2); [reflexivity|]. simpl.
  destruct (probe env 3); reflexivity.
Qed.

(** ** startRecording() while a session is active *)

(** C6: [startRecording()] called while [isRecording] is true is rejected
    with the conflict error at once: the four session fields are as they
    were, and nothing was probed, spawned or waited for. *)
Theorem startRecording_conflict (env : Env) (svc : CaptureService) (w : World) :
  isRecording svc = true ->
  startRecording root env svc w = (Rejected "Already recording", svc, w).
Proof. intros H. unfold startRecording. rewrite H. reflexivity. Qed.

(** ** A failing disk probe *)

(** The [catch] branch: when [execAsync] rejects, because the shell could
    not be run or the pipeline ended with a status other than 0,
    [checkDiskSpace] answers [{available: 0, sufficient: false}];
    [startRecording()] then fails with the ordinary insufficient-space
    error for 0 MB, the very outcome of a probe that worked and measured
    0 MB, and the session is untouched. *)
Theorem disk_probe_failure_reads_as_full_disk
    (env : Env) (svc : CaptureService) (w : World) :
  dfOutput env = None ->
  isRecording svc = false ->
  fst (checkStreamHealth env w) = true ->
  fst (checkDiskSpace env w) = {| available := Num 0; sufficient := false |} /\
  fst (startRecording root env svc w) =
    (Rejected "Insufficient disk space: 0MB available, need 500MB", svc) /\
  startRecording root (withDf (Some "0M") env) svc w =
    startRecording root env svc w.
Proof.
  intros Hdf Hrec Hready.
  split; [|split].
  - unfold checkDiskSpace. rewrite Hdf. reflexivity.
  - unfold startRecording. rewrite Hrec.
    destruct (checkStreamHealth env w) as [ready w1]. simpl in Hready.
    subst ready. simpl. unfold checkDiskSpace. rewrite Hdf. reflexivity.
  - unfold startRecording. rewrite Hrec.
    change (checkStreamHealth (withDf (Some "0M") env) w)
      with (checkStreamHealth env w).
    destruct (checkStreamHealth env w) as [ready w1]. simpl in Hready.
    subst ready. simpl. unfold checkDiskSpace. rewrite Hdf. reflexivity.
Qed.

(** C10 (a defect of the code): the [catch] branch is there to turn a
    failed probe into [{available: 0, sufficient: false}], but it does not
    see [df] fail.  The status of the pipeline is the status of its last
    command, [awk], which is 0 also when [df] failed and printed nothing:
    [execAsync] resolves with an empty [stdout].  [parseInt] of it is
    [NaN], and so it is for every output without a number at its front:
    [checkDiskSpace] answers [{available: NaN, sufficient: false}], not
    [{available: 0, sufficient: false}], and [startRecording()] fails with
    the insufficient-space error for "NaNMB", not for 0 MB.  The session
    is untouched and nothing is spawned. *)
Theorem failed_df_reads_as_NaN
    (env : Env) (svc : CaptureService) (w : World) (stdout : string) :
  dfOutput env = Some stdout ->
  parseInt (dropFirstM stdout) = NaN ->
  isRecording svc = false ->
  fst (checkStreamHealth env w) = true ->
  fst (checkDiskSpace env w) = {| available := NaN; sufficient := false |} /\
  fst (checkDiskSpace env w) <> {| available := Num 0; sufficient := false |} /\
  fst (startRecording root env svc w) =
    (Rejected "Insufficient disk space: NaNMB available, need 500MB", svc) /\
  actions (snd (startRecording root env svc w))
    = actions (snd (checkStreamHealth env w)) ++ [ExecDf].
Proof.
  intros Hdf Hnan Hrec Hready.
  assert (Hd : checkDiskSpace env w
               = ({| available := NaN; sufficient := false |}, act ExecDf w)).
  { unfold checkDiskSpace. rewrite Hdf. cbv zeta. now rewrite Hnan. }
  split; [now rewrite Hd|]. split; [rewrite Hd; discriminate|].
  unfold startRecording. rewrite Hrec.
  destruct (checkStreamHealth env w) as [ready w1]. simpl in Hready.
  subst ready. cbn [negb snd]. unfold checkDiskSpace. rewrite Hdf.
  cbv zeta. rewrite Hnan. split; reflexivity.
Qed.

(** ** capturePhoto() on a stream that never gets ready *)

(** C8: when all three health probes fail, [capturePhoto()] is rejected
    with the not-ready error, which no capture failure can produce; it
    probed three times with one second in between and did nothing else:
    the capture command was not run and the files on disk are unchanged,
    so the generated photo path was not created. *)
Theorem capturePhoto_not_ready (env : Env) (w : World) :
  probe env 1 = false -> probe env 2 = false -> probe env 3 = false ->
  let '(result, w') := capturePhoto root env w in
  result = Rejected notReadyText /\
  (forall diagnostic,
     notReadyText <> ("Photo capture failed: " ++ diagnostic)%string) /\
  actions w' = actions w ++ probeRound /\
  (forall path, ~ In (ExecFfmpegPhoto path) probeRound) /\
  fs w' = fs w /\
  fs w' !! join (PHOTOS_DIR root) (generateFilename env "photo" "jpg")
    = fs w !! join (PHOTOS_DIR root) (generateFilename env "photo" "jpg").
Proof.
  intros H1 H2 H3. rewrite capturePhoto_eq. cbv zeta.
  rewrite (checkStreamHealth_never_ready env w H1 H2 H3). simpl.
  repeat split.
  - intros d. discriminate.
  - intros path Hin. simpl in Hin. intuition discriminate.
Qed.

End Calls.

(** A second [startRecording()] during a session. *)
Lemma startRecording_conflict_witness :
  let svc := {| recordingProcess := Some 3%nat; isRecording := true;
                currentVideoFile :=
                  Some "/srv/captures/videos/video_2024-05-06T07-00-00.mp4"%string;
                recordingStartTime := Some 1000 |} in
  startRecording ["srv"%string] noDfEnv svc (emptyWorld 5000)
    = (Rejected "Already recording", svc, emptyWorld 5000).
Proof.
  exact (startRecording_conflict ["srv"%string] noDfEnv
           {| recordingProcess := Some 3%nat; isRecording := true;
              currentVideoFile :=
                Some "/srv/captures/videos/video_2024-05-06T07-00-00.mp4"%string;
              recordingStartTime := Some 1000 |}
           (emptyWorld 5000) eq_refl).
Defined.

(** The [df] pipeline is rejected while the stream is ready. *)
Lemma disk_probe_failure_reads_as_full_disk_witness :
  fst (checkDiskSpace noDfEnv (emptyWorld 5000))
    = {| available := Num 0; sufficient := false |} /\
  fst (startRecording ["srv"%string] noDfEnv constructor (emptyWorld 5000))
    = (Rejected "Insufficient disk space: 0MB available, need 500MB",
       constructor) /\
  startRecording ["srv"%string] (withDf (Some "0M"%string) noDfEnv)
      constructor (emptyWorld 5000)
    = startRecording ["srv"%string] noDfEnv constructor (emptyWorld 5000).
Proof.
  exact (disk_probe_failure_reads_as_full_disk ["srv"%string] noDfEnv
           constructor (emptyWorld 5000) eq_refl eq_refl eq_refl).
Defined.

(** [df] cannot find the captures directory: the pipeline prints nothing
    and ends with status 0. *)
Lemma failed_df_reads_as_NaN_witness :
  fst (checkDiskSpace (withDf (Some ""%string) noDfEnv) (emptyWorld 5000))
    = {| available := NaN; sufficient := false |} /\
  fst (startRecording ["srv"%string] (withDf (Some ""%string) noDfEnv)
         constructor (emptyWorld 5000))
    = (Rejected "Insufficient disk space: NaNMB available, need 500MB",
       constructor).
Proof.
  destruct (failed_df_reads_as_NaN ["srv"%string]
              (withDf (Some ""%string) noDfEnv) constructor (emptyWorld 5000)
              ""%string eq_refl eq_refl eq_refl eq_refl)
    as (H1 & _ & H2 & _).
  split; [exact H1|exact H2].
Defined.

(** A photo requested while the stream is down. *)
Lemma capturePhoto_not_ready_witness :
  capturePhoto ["srv"%string] deadEnv (emptyWorld 5000)
    = (Rejected notReadyText,
       {| fs := ∅; now := 7000; actions := probeRound |}).
Proof.
  pose proof (capturePhoto_not_ready ["srv"%string] deadEnv (emptyWorld 5000)
                eq_refl eq_refl eq_refl) as H.
  destruct (capturePhoto ["srv"%string] deadEnv (emptyWorld 5000))
    as [result w'] eqn:E.
  destruct H as (H1 & _). vm_compute in E.
  injection E as <- <-. reflexivity.
Defined.

(** ** The 'exit' event while a stop is pending *)

Lemma lookup_map {A B} (f : A -> B) (l : list A) (i : nat) :
  map f l !! i = option_map f (l !! i).
Proof.
  revert i. induction l as [|a l IH]; intros [|i]; simpl; auto.
Qed.

Lemma verifyLoop_no_file (stat : nat -> option Z) (iso path : string)
    (dur : Z) (fuel i : nat) (t : Z) :
  (forall k, (i <= k < i + fuel)%nat -> noFile (stat k)) ->
  verifyLoop stat iso path dur fuel i t =
    (Rejected verificationText, t + retryDelay * Z.of_nat fuel).
Proof.
  revert i t. induction fuel as [|fuel IH]; intros i t H.
  - simpl. f_equal. lia.
  - assert (Hi : noFile (stat i)) by (apply H; lia).
    assert (Hrest : verifyLoop stat iso path dur fuel (S i) (t + retryDelay) =
              (Rejected verificationText,
               t + retryDelay * Z.of_nat (S fuel))).
    { rewrite IH by (intros k Hk; apply H; lia). f_equal. lia. }
    simpl. unfold noFile in Hi. destruct (stat i) as [size|]; [|exact Hrest].
    destruct (0 <? size) eqn:E; [apply Z.ltb_lt in E; lia|exact Hrest].
Qed.

Lemma exitSync_idle (t : Z) (r : Recorder) :
  existsb pendingCall (calls r) = true ->
  isRecording (service (exitSync t r)) = false /\
  recordingProcess (service (exitSync t r)) = None.
Proof. intros H. unfold exitSync. simpl. rewrite H. split; reflexivity. Qed.

(** C7: while a [stopRecording()] is pending, the 'exit' event resets the
    session to idle in its synchronous part, before any look at the file
    and whatever the look will find; a pending call whose three [stat]
    attempts all find no file, or an empty one, is rejected with the
    verification error, 1400 ms after the exit, and the session is idle
    all the same. *)
Theorem exit_resets_session_before_verification
    (stat stat' : nat -> option Z) (iso iso' : string) (t : Z) (r : Recorder) :
  existsb pendingCall (calls r) = true ->
  let r' := childExit stat iso t r in
  isRecording (service r') = false /\
  recordingProcess (service r') = None /\
  service r' = service (exitSync t r) /\
  service (childExit stat' iso' t r) = service r' /\
  forall i c,
    calls r !! i = Some c -> settled c = None ->
    (forall k, (k < 3)%nat -> noFile (stat k)) ->
    exists c', calls r' !! i = Some c' /\
      settled c' =
        Some (Rejected verificationText,
              Z.max (clock r) t + syncDelay + 3 * retryDelay).
Proof.
  intros Hp r'. destruct (exitSync_idle t r Hp) as [H1 H2].
  repeat split; try assumption.
  intros i c Hc Hs Hstat. unfold r', childExit. simpl.
  rewrite !lookup_map, Hc. simpl. eexists. split; [reflexivity|].
  unfold verify, clearTimer, pendingCall. rewrite Hs.
  cbn -[verifyLoop Z.mul Z.add Z.max]. f_equal.
  destruct (filepath c).
  - rewrite verifyLoop_no_file.
    + f_equal.
    + intros k Hk. apply Hstat. unfold statRetries in Hk. lia.
  - rewrite verifyLoop_no_file.
    + f_equal.
    + intros k _. exact I.
Qed.

(** A recording stopped at 61000 whose child exits 200 ms later without
    having written the file. *)
Lemma exit_resets_session_before_verification_witness :
  let r := match stopRecording (recording 3%nat "/srv/captures/videos/video_1.mp4"
                                  1000 Writable) with
           | inl r1 => r1
           | inr _ => recording 3%nat "" 0 Writable
           end in
  let r' := childExit (fun _ => None) "2024-05-06T07:08:09.123Z" 1200 r in
  service r' =
    {| recordingProcess := None; isRecording := false;
       currentVideoFile := Some "/srv/captures/videos/video_1.mp4"%string;
       recordingStartTime := Some 1000 |} /\
  (settled <$> calls r') =
    [Some (Rejected verificationText, 2600)].
Proof.
  pose proof (exit_resets_session_before_verification
                (fun _ => None) (fun _ => None)
                "2024-05-06T07:08:09.123Z" "2024-05-06T07:08:09.123Z" 1200
                (match stopRecording
                         (recording 3%nat "/srv/captures/videos/video_1.mp4"
                            1000 Writable) with
                 | inl r1 => r1
                 | inr _ => recording 3%nat "" 0 Writable
                 end)
                ltac:(reflexivity)) as H.
  cbv zeta in H. destruct H as (_ & _ & _ & _ & H).
  destruct (H 0%nat
              {| filepath := Some "/srv/captures/videos/video_1.mp4"%string;
                 duration := 0; timeoutDue := Some 6000; settled := None |}
              ltac:(reflexivity) ltac:(reflexivity)
              ltac:(intros; exact I)) as (c' & _ & _).
  split; vm_compute; reflexivity.
Defined.

(** ** Graceful stop and escalation *)

Lemma verifyLoop_time (stat : nat -> option Z) (iso path : string)
    (dur : Z) (fuel i : nat) (t : Z) :
  t <= snd (verifyLoop stat iso path dur fuel i t)
    <= t + retryDelay * Z.of_nat fuel.
Proof.
  revert i t. induction fuel as [|fuel IH]; intros i t.
  - simpl. lia.
  - assert (Hrest := IH (S i) (t + retryDelay)).
    rewrite Nat2Z.inj_succ. cbn [verifyLoop].
    destruct (stat i) as [size|]; [destruct (0 <? size)|];
      cbn [snd]; unfold retryDelay in *; lia.
Qed.

#[local] Arguments verifyLoop : simpl never.

(** C4 (as amended): on a writable stdin [stopRecording()] first sends the
    cooperative stop; if the child has not exited 5000 ms later it sends
    SIGTERM, and that is the last thing it does to the child.  The call
    completes only after the child's exit, 500 ms plus at most three
    300 ms retries later: a child that ignores the cooperative stop and
    exits [d] ms after SIGTERM lets the call complete between
    [5000 + d + 500] and [5000 + d + 1400] ms after it was made, with the
    session idle; a child that ignores SIGTERM too leaves the call pending
    and the session active. *)
Theorem stop_escalates_then_waits_for_exit
    (b : Behaviour) (stat : nat -> option Z) (iso : string) (r : Recorder) :
  onQuit b = None ->
  isRecording (service r) = true ->
  is_Some (recordingProcess (service r)) ->
  stdin r = Writable -> calls r = [] -> signals r = [] ->
  exists r',
    stopAndWait b stat iso r = inl r' /\
    signals r' = [(clock r, Quit); (clock r + gracefulTimeout, Term)] /\
    match onTerm b with
    | Some d =>
        0 <= d ->
        exists o ts,
          lastSettled r' = Some (o, ts) /\
          clock r + gracefulTimeout + d + syncDelay <= ts /\
          ts <= clock r + gracefulTimeout + d + syncDelay + 3 * retryDelay /\
          isRecording (service r') = false /\
          recordingProcess (service r') = None
    | None => lastSettled r' = None /\ service r' = service r
    end.
Proof.
  intros Hq Hrec [p Hp] Hin Hc Hs.
  destruct r as [svc ch sin sl cs clk sg]. simpl in *. subst sin cs sg.
  destruct svc as [rp ir cvf rst]. simpl in *. subst rp ir.
  unfold stopAndWait, stopRecording. simpl.
  unfold exitTime, reaction. simpl. rewrite Hq. simpl.
  unfold timeoutFires. simpl.
  assert (Hmax : Z.max clk (clk + gracefulTimeout) = clk + gracefulTimeout)
    by (unfold gracefulTimeout; lia).
  rewrite Hmax. simpl.
  destruct (onTerm b) as [d|]; simpl.
  - eexists. split; [reflexivity|]. split; [reflexivity|].
    intros Hd. unfold lastSettled, childExit. simpl.
    unfold verify, clearTimer. simpl.
    assert (Hmax' : Z.max (clk + gracefulTimeout) (clk + gracefulTimeout + d)
                    = clk + gracefulTimeout + d) by lia.
    rewrite Hmax'.
    pose proof (verifyLoop_time
                  (match cvf with Some _ => stat | None => fun _ => None end)
                  iso (default ""%string cvf) ((clk - default 0 rst) / 1000)
                  statRetries 0 (clk + gracefulTimeout + d + syncDelay)) as Ht.
    destruct (verifyLoop _ iso _ _ statRetries 0 _) as [o ts] eqn:E.
    exists o, ts. cbn [snd] in Ht.
    unfold statRetries, retryDelay, syncDelay, gracefulTimeout in *.
    repeat split; try reflexivity; lia.
  - eexists. split; [reflexivity|]. split; [reflexivity|].
    split; reflexivity.
Qed.

(** A child that ignores 'q' and takes 10 ms to die of SIGTERM, and a
    file that shows up at the third look. *)
Lemma stop_escalates_then_waits_for_exit_witness :
  exists r',
    stopAndWait {| onQuit := None; onTerm := Some 10 |}
      (fun i => if Nat.eqb i 2 then Some 4096 else None)
      "2024-05-06T07:08:09.123Z"
      (recording 3%nat "/srv/captures/videos/video_1.mp4" 1000 Writable)
    = inl r' /\
    signals r' = [(1000, Quit); (6000, Term)] /\
    exists o ts, lastSettled r' = Some (o, ts) /\ 6510 <= ts <= 7410.
Proof.
  destruct (stop_escalates_then_waits_for_exit
              {| onQuit := None; onTerm := Some 10 |}
              (fun i => if Nat.eqb i 2 then Some 4096 else None)
              "2024-05-06T07:08:09.123Z"
              (recording 3%nat "/srv/captures/videos/video_1.mp4" 1000 Writable)
              eq_refl eq_refl ltac:(eexists; reflexivity)
              eq_refl eq_refl eq_refl)
    as (r' & H1 & H2 & H3).
  exists r'. split; [exact H1|]. split; [exact H2|].
  simpl in H3. destruct (H3 ltac:(lia)) as (o & ts & Hl & Hlo & Hhi & _).
  exists o, ts. split; [exact Hl|]. unfold gracefulTimeout, syncDelay, retryDelay in *.
  lia.
Defined.

(** C4, counterexample: a child that ignores both the cooperative stop
    and SIGTERM never exits, and the call never completes, whatever the
    grace period is taken to be. *)
Lemma stop_never_completes_without_exit :
  ~ exists grace, Spec_stop_completes_within grace.
Proof.
  intros [grace H].
  destruct (H {| onQuit := None; onTerm := None |} (fun _ => Some 4096)
              "2024-05-06T07:08:09.123Z"
              (recording 3%nat "/srv/captures/videos/video_1.mp4" 1000 Writable)
              _ eq_refl eq_refl ltac:(eexists; reflexivity)
              eq_refl eq_refl eq_refl eq_refl)
    as (o & t & Hl & _).
  vm_compute in Hl. discriminate.
Qed.

End CaptureFacts.

(* ===================================================================== *)
(** * More facts about the supervisor                                     *)
(* ===================================================================== *)

Module SupervisorMore.
Import Supervisor SupervisorInvariants SupervisorFacts.

Section Invariants.

Variable cfg : RestartConfig.

(** ** One child at a time *)

(** X1: whatever happens after boot, at most one media-server child is
    running, and never a running child together with a pending restart or
    two pending restarts. *)
Theorem one_child_or_one_restart (t0 : Z) (evs : list Event) :
  let s := run cfg (boot cfg t0) evs in
  (length (running s) <= 1)%nat /\
  (pendingRestarts s <= 1)%nat /\
  (length (running s) + pendingRestarts s <= 1)%nat.
Proof.
  intros s.
  pose proof (Inv_run cfg t0 evs _ (Inv_boot cfg t0)) as (_ & H & _).
  fold s in H. lia.
Qed.

(** ** The delay stays in range *)

Hypothesis initial_nonneg : 0 <= initialDelay cfg.
Hypothesis initial_le_max : initialDelay cfg <= maxDelay cfg.

Lemma DelayInv_scheduleRestart (s : Sup) :
  DelayInv cfg s -> DelayInv cfg (scheduleRestart cfg s).
Proof.
  unfold DelayInv, scheduleRestart. simpl. intros H.
  destruct (maxRestarts cfg <? count (restartState s) + 1); simpl; lia.
Qed.

Lemma DelayInv_step (s : Sup) (e : Event) :
  DelayInv cfg s -> DelayInv cfg (step cfg s e).
Proof.
  intros H. destruct e as [p code|p msg|id|ms|]; simpl.
  - destruct (isRunning p s); [|assumption]. unfold onExit.
    assert (H1 : DelayInv cfg (broadcast (StreamStopped code) (removeRunning p s)))
      by exact H.
    destruct code as [[| |]|]; try assumption;
      apply DelayInv_scheduleRestart; assumption.
  - destruct (isRunning p s); assumption.
  - destruct (findTimer id s) as [t|]; [|assumption].
    destruct (callback t); simpl.
    + exact H.
    + rewrite stabilityCheck_resetDue.
      destruct (resetDue cfg (popTimer t s)); [|exact H].
      unfold DelayInv. simpl. lia.
  - exact H.
  - unfold DelayInv. destruct (stopMediaMTX_frame s) as (_ & _ & -> & _).
    exact H.
Qed.

(** X2: in every state reached after boot the backoff delay lies between
    [initialDelay] and [maxDelay]. *)
Theorem delay_stays_in_range (t0 : Z) (evs : list Event) :
  initialDelay cfg
    <= delay (restartState (run cfg (boot cfg t0) evs))
    <= maxDelay cfg.
Proof.
  assert (H : forall s, DelayInv cfg s -> DelayInv cfg (run cfg s evs)).
  { induction evs as [|e evs' IH]; intros s Hs; simpl; [assumption|].
    apply IH, DelayInv_step, Hs. }
  apply H. unfold DelayInv. simpl. lia.
Qed.

End Invariants.

(** The shipped configuration after three crashes and a stability reset
    in between. *)
Lemma delay_stays_in_range_witness :
  2000 <= delay (restartState
                   (run MEDIAMTX_RESTART (boot MEDIAMTX_RESTART 1000)
                      (crashes 3 ++ [Elapse 400000; TimerFires 6%nat;
                                     ProcExit 3%nat None])))
       <= 60000.
Proof.
  exact (delay_stays_in_range MEDIAMTX_RESTART ltac:(simpl; lia)
           ltac:(simpl; lia) 1000
           (crashes 3 ++ [Elapse 400000; TimerFires 6%nat;
                          ProcExit 3%nat None])).
Defined.

(** ** The failure counter *)

Section Counter.

Variable cfg : RestartConfig.
Hypothesis cap_nonneg : 0 <= maxRestarts cfg.

Lemma Halted_not_running (s : Sup) (p : pid) :
  Halted s -> isRunning p s = false.
Proof. intros [Hr _]. unfold isRunning. now rewrite Hr. Qed.

Lemma CountInv_step (t0 : Z) (s : Sup) (e : Event) :
  Inv cfg t0 s -> CountInv cfg s -> CountInv cfg (step cfg s e).
Proof.
  intros HI [H0 HC].
  assert (Hhalt : Halted s -> Halted (step cfg s e))
    by (intros Hh; apply (Halted_step cfg s e Hh)).
  destruct e as [p code|p msg|id|ms|]; simpl in *.
  - destruct (isRunning p s) eqn:Hr; [|split; assumption].
    destruct HC as [HC|[_ Hh]];
      [|rewrite (Halted_not_running s p Hh) in Hr; discriminate].
    destruct (exit_leaves_none_running cfg _ _ _ HI Hr) as [Hnone Hpr].
    assert (Hsched : CountInv cfg
              (scheduleRestart cfg
                 (broadcast (StreamStopped code) (removeRunning p s)))).
    { unfold CountInv, scheduleRestart. simpl.
      destruct (maxRestarts cfg <? count (restartState s) + 1) eqn:Hm; simpl.
      - apply Z.ltb_lt in Hm. split; [lia|]. right. split; [lia|].
        split; assumption.
      - apply Z.ltb_ge in Hm. split; [lia|]. left. lia. }
    unfold onExit. destruct code as [[| |]|]; try exact Hsched.
    split; [assumption|left; assumption].
  - destruct (isRunning p s); split; assumption.
  - destruct (findTimer id s) as [t|] eqn:Hf; [|split; assumption].
    destruct (callback t); simpl in *.
    + split; [assumption|]. destruct HC as [HC|[HC Hh]]; [left; assumption|].
      right. split; [assumption|]. apply Hhalt, Hh.
    + rewrite stabilityCheck_resetDue in *.
      destruct (resetDue cfg (popTimer t s)); simpl.
      * unfold CountInv. simpl. split; [lia|left; exact cap_nonneg].
      * split; [assumption|]. destruct HC as [HC|[HC Hh]]; [left; assumption|].
        right. split; [assumption|]. apply Hhalt, Hh.
  - split; [assumption|]. destruct HC as [HC|[HC Hh]]; [left; assumption|].
    right. split; [assumption|]. apply Hhalt, Hh.
  - destruct (stopMediaMTX_frame s) as (_ & _ & E & _).
    unfold CountInv. rewrite E. split; [assumption|].
    destruct HC as [HC|[HC Hh]]; [left; assumption|].
    right. split; [assumption|]. apply Hhalt, Hh.
Qed.

Lemma CountInv_run (t0 : Z) (evs : list Event) (s : Sup) :
  Inv cfg t0 s -> CountInv cfg s -> CountInv cfg (run cfg s evs).
Proof.
  revert s. induction evs as [|e evs IH]; intros s HI HC; simpl; [assumption|].
  apply IH; [apply Inv_step|eapply CountInv_step]; eassumption.
Qed.

(** X3: the failure counter never leaves [0 .. maxRestarts + 1], and in
    every state where it stands at [maxRestarts + 1] no child runs and no
    restart is pending. *)
Theorem count_stays_in_range (t0 : Z) (evs : list Event) :
  let s := run cfg (boot cfg t0) evs in
  0 <= count (restartState s) <= maxRestarts cfg + 1 /\
  (count (restartState s) = maxRestarts cfg + 1 ->
   running s = [] /\ pendingRestarts s = 0%nat).
Proof.
  intros s.
  assert (H : CountInv cfg s).
  { apply (CountInv_run t0 evs _ (Inv_boot cfg t0)).
    split; simpl; [lia|left; exact cap_nonneg]. }
  destruct H as [H0 [H1|[H1 Hh]]].
  - split; [lia|]. intros E. lia.
  - split; [lia|]. intros _. exact Hh.
Qed.

End Counter.

(** Fifteen crashes in a row with the shipped configuration: the counter
    stops at 11. *)
Lemma count_stays_in_range_witness :
  let s := run MEDIAMTX_RESTART (boot MEDIAMTX_RESTART 1000) (crashes 15) in
  0 <= count (restartState s) <= 11 /\
  (count (restartState s) = 11 ->
   running s = [] /\ pendingRestarts s = 0%nat).
Proof.
  exact (count_stays_in_range MEDIAMTX_RESTART ltac:(simpl; lia) 1000
           (crashes 15)).
Defined.

(** ** A clean exit *)

Section CleanExit.

Variable cfg : RestartConfig.

(** X4: when the running child exits with code 0 the supervisor leaves
    the restart state alone, schedules nothing, and from then on never
    spawns a child or schedules a restart again, whatever timers fire. *)
Theorem clean_exit_is_final
    (t0 : Z) (evs evs' : list Event) (p : pid) :
  let s := run cfg (boot cfg t0) evs in
  isRunning p s = true ->
  let s1 := step cfg s (ProcExit p (Some 0)) in
  let s2 := run cfg s1 evs' in
  restartState s1 = restartState s /\
  trace s1 = trace s ++ [Broadcast (StreamStopped (Some 0))] /\
  timers s1 = timers s /\
  spawns (trace s2) = spawns (trace s) /\
  restartDelays (trace s2) = restartDelays (trace s) /\
  running s2 = [].
Proof.
  intros s Hr s1 s2.
  pose proof (Inv_run cfg t0 evs _ (Inv_boot cfg t0)) as HI. fold s in HI.
  destruct (exit_leaves_none_running cfg _ _ _ HI Hr) as [Hnone Hpr].
  assert (E1 : s1 = broadcast (StreamStopped (Some 0)) (removeRunning p s)).
  { unfold s1. simpl. now rewrite Hr. }
  assert (Hh : Halted s1).
  { rewrite E1. split; [exact Hnone|exact Hpr]. }
  destruct (Halted_run cfg evs' s1 Hh) as ([Hr2 _] & x & Ex & Hd & Hs & _).
  fold s2 in Hr2, Ex.
  repeat split; try (rewrite E1; reflexivity); try assumption.
  - rewrite Ex, E1. simpl. rewrite !spawns_app, Hs. simpl.
    now rewrite !app_nil_r.
  - rewrite Ex, E1. simpl. rewrite !restartDelays_app, Hd. simpl.
    now rewrite !app_nil_r.
Qed.

End CleanExit.

(** The second child exits cleanly; later timers and a shutdown change
    nothing. *)
Lemma clean_exit_is_final_witness :
  let s := run MEDIAMTX_RESTART (boot MEDIAMTX_RESTART 1000) (crashes 1) in
  let s1 := step MEDIAMTX_RESTART s (ProcExit 1%nat (Some 0)) in
  let s2 := run MEDIAMTX_RESTART s1
              [TimerFires 0%nat; TimerFires 2%nat; Shutdown] in
  restartState s1 = restartState s /\
  trace s1 = trace s ++ [Broadcast (StreamStopped (Some 0))] /\
  timers s1 = timers s /\
  spawns (trace s2) = spawns (trace s) /\
  restartDelays (trace s2) = restartDelays (trace s) /\
  running s2 = [].
Proof.
  exact (clean_exit_is_final MEDIAMTX_RESTART 1000 (crashes 1)
           [TimerFires 0%nat; TimerFires 2%nat; Shutdown] 1%nat eq_refl).
Defined.

(** ** stop() on a healthy child *)

Section StopRunning.

Variable cfg : RestartConfig.

Lemma Fresh_setTimeout (cb : Callback) (ms : Z) (s : Sup) :
  Fresh s -> Fresh (setTimeout cb ms s).
Proof.
  unfold Fresh. simpl. intros H t Hin.
  apply in_app_iff in Hin as [Hin|[<-|[]]]; [specialize (H t Hin)|simpl]; lia.
Qed.

Lemma Fresh_step (s : Sup) (e : Event) : Fresh s -> Fresh (step cfg s e).
Proof.
  intros H. destruct e as [p code|p msg|id|ms|]; simpl.
  - destruct (isRunning p s); [|assumption]. unfold onExit.
    assert (H1 : Fresh (scheduleRestart cfg
              (broadcast (StreamStopped code) (removeRunning p s)))).
    { unfold scheduleRestart. simpl.
      destruct (maxRestarts cfg <? count (restartState s) + 1); [exact H|].
      intros t Hin. simpl in Hin.
      apply in_app_iff in Hin as [Hin|[<-|[]]]; simpl;
        [specialize (H t Hin)|]; lia. }
    destruct code as [[| |]|]; try exact H1. exact H.
  - destruct (isRunning p s); assumption.
  - destruct (findTimer id s) as [t|]; [|assumption].
    assert (Hpop : Fresh (popTimer t s)).
    { intros u Hu. simpl in Hu. apply filter_In in Hu as [Hu _]. apply H, Hu. }
    destruct (callback t); simpl.
    + apply (Fresh_setTimeout CbStabilityCheck _
               (setRestartState _ (spawn (popTimer t s)))).
      exact Hpop.
    + rewrite stabilityCheck_resetDue.
      destruct (resetDue cfg (popTimer t s)); exact Hpop.
  - exact H.
  - unfold Fresh. destruct (stopMediaMTX_frame s) as (_ & -> & _ & _ & _ & -> & _).
    exact H.
Qed.

Lemma Fresh_run (evs : list Event) (s : Sup) :
  Fresh s -> Fresh (run cfg s evs).
Proof.
  revert s. induction evs as [|e evs IH]; intros s H; simpl; [assumption|].
  apply IH, Fresh_step, H.
Qed.

Lemma Fresh_boot (t0 : Z) : Fresh (boot cfg t0).
Proof. intros t [<-|[]]. simpl. lia. Qed.

(** X5: [stopMediaMTX] on a running child clears the handle, but when the
    child then dies of the signal, its exit is reported with a null code,
    which the exit handler counts as a failure: below the cap a restart is
    scheduled with the current delay, and when that timer fires the media
    server is spawned again.  The same holds for any exit code other than
    0. *)
Theorem exit_after_stop_schedules_restart
    (t0 : Z) (evs : list Event) (p : pid) (code : option Z) :
  let s := run cfg (boot cfg t0) evs in
  mediamtxProcess s = Some p ->
  isRunning p s = true ->
  count (restartState s) < maxRestarts cfg ->
  code <> Some 0 ->
  let s2 := run cfg s [Shutdown; ProcExit p code] in
  mediamtxProcess s2 = None /\
  trace s2 = trace s ++ [Kill p; Broadcast (StreamStopped code);
                         SetTimeout CbStartMediaMTX (delay (restartState s))] /\
  pendingRestarts s2 = 1%nat /\
  count (restartState s2) = count (restartState s) + 1 /\
  let s3 := step cfg s2 (TimerFires (nextTimer s)) in
  mediamtxProcess s3 = Some (nextPid s) /\
  spawns (trace s3) = spawns (trace s) ++ [nextPid s].
Proof.
  intros s Hp Hr Hc Hcode s2.
  pose proof (Inv_run cfg t0 evs _ (Inv_boot cfg t0)) as HI. fold s in HI.
  pose proof (Fresh_run evs _ (Fresh_boot t0)) as HF. fold s in HF.
  destruct (exit_leaves_none_running cfg _ _ _ HI Hr) as [_ Hpr].
  assert (E1 : step cfg s Shutdown = setProcess None (emit (Kill p) s)).
  { simpl. unfold stopMediaMTX. now rewrite Hp. }
  assert (Hm : (maxRestarts cfg <? count (restartState s) + 1) = false)
    by (apply Z.ltb_ge; lia).
  assert (E2 : s2 =
    setRestartState
      {| count := count (restartState s) + 1;
         delay := Z.min (delay (restartState s) * 2) (maxDelay cfg);
         lastStableTime := lastStableTime (restartState s) |}
      (setTimeout CbStartMediaMTX (delay (restartState s))
         (setRestartState
            {| count := count (restartState s) + 1;
               delay := delay (restartState s);
               lastStableTime := lastStableTime (restartState s) |}
            (broadcast (StreamStopped code)
               (removeRunning p (setProcess None (emit (Kill p) s))))))).
  { unfold s2.
    change (run cfg s [Shutdown; ProcExit p code])
      with (step cfg (step cfg s Shutdown) (ProcExit p code)).
    rewrite E1.
    assert (Hr1 : isRunning p (setProcess None (emit (Kill p) s)) = true)
      by exact Hr.
    change (step cfg (setProcess None (emit (Kill p) s)) (ProcExit p code))
      with (if isRunning p (setProcess None (emit (Kill p) s))
            then onExit cfg code
                   (removeRunning p (setProcess None (emit (Kill p) s)))
            else setProcess None (emit (Kill p) s)).
    rewrite Hr1. unfold onExit, scheduleRestart. simpl. rewrite Hm.
    destruct code as [[| |]|]; try reflexivity. congruence. }
  rewrite E2. simpl.
  assert (Hfind : List.find (fun t => Nat.eqb (timerId t) (nextTimer s))
                    (timers s ++
                     [{| timerId := nextTimer s;
                         due := clock s + delay (restartState s);
                         callback := CbStartMediaMTX; armedFor := None |}])
                  = Some {| timerId := nextTimer s;
                            due := clock s + delay (restartState s);
                            callback := CbStartMediaMTX; armedFor := None |})
    by (apply find_app_fresh; [exact HF|reflexivity]).
  unfold findTimer. simpl. rewrite Hfind. simpl.
  repeat split.
  - rewrite <- !app_assoc. reflexivity.
  - unfold pendingRestarts in *. simpl. rewrite List.filter_app, length_app.
    simpl. lia.
  - rewrite <- !app_assoc, !spawns_app. simpl. reflexivity.
Qed.

End StopRunning.

(** The first child is stopped half a second after boot and dies of the
    signal: two seconds later the media server is running again. *)
Lemma exit_after_stop_schedules_restart_witness :
  let s := run MEDIAMTX_RESTART (boot MEDIAMTX_RESTART 1000) [Elapse 500] in
  let s2 := run MEDIAMTX_RESTART s [Shutdown; ProcExit 0%nat None] in
  mediamtxProcess s2 = None /\
  trace s2 = trace s ++ [Kill 0%nat; Broadcast (StreamStopped None);
                         SetTimeout CbStartMediaMTX 2000] /\
  pendingRestarts s2 = 1%nat /\
  count (restartState s2) = 1 /\
  let s3 := step MEDIAMTX_RESTART s2 (TimerFires 1%nat) in
  mediamtxProcess s3 = Some 1%nat /\
  spawns (trace s3) = [0%nat; 1%nat].
Proof.
  exact (exit_after_stop_schedules_restart MEDIAMTX_RESTART 1000 [Elapse 500]
           0%nat None eq_refl eq_refl ltac:(simpl; lia)
           ltac:(discriminate)).
Defined.

(** ** Stability timers of superseded children *)

Section StaleTimers.

Variable cfg : RestartConfig.
Hypothesis initial_pos : 0 < initialDelay cfg.
Hypothesis initial_le_max : initialDelay cfg <= maxDelay cfg.

Lemma onExit_lastStableTime (code : option Z) (s : Sup) :
  lastStableTime (restartState (onExit cfg code s))
    = lastStableTime (restartState s).
Proof.
  unfold onExit, scheduleRestart. simpl.
  destruct code as [[| |]|]; simpl; try reflexivity;
    destruct (maxRestarts cfg <? count (restartState s) + 1); reflexivity.
Qed.

Lemma ArmedBefore_step (t0 : Z) (s : Sup) (e : Event) :
  Inv cfg t0 s -> DelayInv cfg s -> ArmedBefore cfg s ->
  ArmedBefore cfg (step cfg s e).
Proof.
  intros HI HD (Ha & Hb & Hc).
  destruct e as [p code|p msg|id|ms|]; simpl.
  - (* exit *)
    destruct (isRunning p s) eqn:Hr; [|repeat split; assumption].
    destruct (onExit_frame cfg code (removeRunning p s))
      as (E1 & E2 & _ & _ & E5).
    pose proof (onExit_lastStableTime code (removeRunning p s)) as E6.
    simpl in E1, E2, E5, E6. unfold ArmedBefore. rewrite E1, E2, E6.
    unfold DelayInv in HD.
    destruct E5 as [-> | ->]; [repeat split; assumption|].
    repeat split.
    + intros t Hin Hcb. apply in_app_iff in Hin as [Hin|[<-|[]]];
        [auto|discriminate].
    + intros t u Ht Hu Hct Hcu.
      apply in_app_iff in Ht as [Ht|[<-|[]]]; [|discriminate].
      apply in_app_iff in Hu as [Hu|[<-|[]]]; [eauto|].
      simpl. specialize (Ha t Ht Hct). lia.
    + intros t q p' l Hin Hcb. apply in_app_iff in Hin as [Hin|[<-|[]]];
        [eauto|discriminate].
  - destruct (isRunning p s); repeat split; assumption.
  - (* timer *)
    destruct (findTimer id s) as [u|] eqn:Hf; [|repeat split; assumption].
    apply findTimer_In in Hf as [Hu _].
    assert (Hsub : forall t, In t (timers (popTimer u s)) -> In t (timers s)).
    { intros t Ht. simpl in Ht. apply filter_In in Ht. tauto. }
    destruct (callback u) eqn:Hcu; simpl.
    + (* a restart fires *)
      destruct HI as (_ & H1 & _ & Harm & _).
      pose proof (pendingRestarts_pop u s Hu Hcu) as Hlt.
      assert (Hnone : pendingRestarts (popTimer u s) = 0%nat) by lia.
      unfold ArmedBefore. simpl. repeat split.
      * intros t Hin Hcb. apply in_app_iff in Hin as [Hin|[<-|[]]].
        -- specialize (Ha t (Hsub t Hin) Hcb). lia.
        -- simpl. lia.
      * intros t u' Ht Hu' Hct Hcu'.
        apply in_app_iff in Hu' as [Hu'|[<-|[]]]; [|discriminate].
        pose proof (no_restart_timer (popTimer u s) u' Hnone Hu') as Hstab.
        congruence.
      * intros t q p' l Hin Hcb Hq [= <-] Hne [= <-].
        apply in_app_iff in Hin as [Hin|[<-|[]]].
        -- specialize (Hb t u (Hsub t Hin) Hu Hcb Hcu). lia.
        -- simpl in Hq. congruence.
    + (* a stability timer fires *)
      destruct (stabilityCheck_frame cfg (popTimer u s))
        as (E1 & E2 & E3 & _).
      unfold ArmedBefore. rewrite E1, E2, E3. simpl. repeat split.
      * intros t Hin Hcb. specialize (Ha t (Hsub t Hin) Hcb). lia.
      * intros t u' Ht Hu'. apply Hb; auto.
      * intros t q p' l Hin Hcb Hq Hp Hne Hl.
        rewrite stabilityCheck_resetDue in Hl.
        destruct (resetDue cfg (popTimer u s)); [discriminate|].
        eapply Hc; eauto.
  - (* time passes *)
    unfold ArmedBefore. simpl. repeat split; try assumption.
    intros t Hin Hcb. specialize (Ha t Hin Hcb). lia.
  - (* stop *)
    destruct (stopMediaMTX_frame s) as (E1 & E2 & E3 & E4 & _).
    unfold ArmedBefore. rewrite E1, E2, E3, E4.
    repeat split; try assumption. intros t q p' l _ _ _ [=].
Qed.

Lemma ArmedBefore_run (t0 : Z) (evs : list Event) (s : Sup) :
  Inv cfg t0 s -> DelayInv cfg s -> ArmedBefore cfg s ->
  ArmedBefore cfg (run cfg s evs).
Proof.
  revert s. induction evs as [|e evs IH]; intros s HI HD HA; simpl;
    [assumption|].
  apply IH; [apply Inv_step|apply DelayInv_step; try lia|
             eapply ArmedBefore_step]; eassumption.
Qed.

Lemma ArmedBefore_boot (t0 : Z) : ArmedBefore cfg (boot cfg t0).
Proof.
  unfold ArmedBefore. simpl. repeat split.
  - intros t [<-|[]] _. simpl. lia.
  - intros t u [<-|[]] [<-|[]] _. discriminate.
  - intros t q p l [<-|[]] _ [= <-] [= <-]. congruence.
Qed.

(** X6: a stability timer armed for a child that has since been
    superseded, or stopped, does nothing when it fires on time: the
    restart state, the handle and the trace stay as they are, only the
    timer is used up.  (The restart state can be reset by such a timer
    only when it fires late.) *)
Theorem stale_stability_timer_is_harmless
    (t0 : Z) (evs : list Event) (id : nat) (t : Timer) (q : pid) :
  let s := run cfg (boot cfg t0) evs in
  findTimer id s = Some t ->
  callback t = CbStabilityCheck ->
  armedFor t = Some q ->
  mediamtxProcess s <> Some q ->
  clock s <= due t ->
  step cfg s (TimerFires id) = popTimer t s.
Proof.
  intros s Hf Hcb Hq Hne Hclk.
  assert (HA : ArmedBefore cfg s).
  { apply ArmedBefore_run with (t0 := t0).
    - apply Inv_boot.
    - unfold DelayInv. simpl. lia.
    - apply ArmedBefore_boot. }
  destruct HA as (_ & _ & Hc).
  simpl. rewrite Hf, Hcb. simpl. rewrite stabilityCheck_resetDue.
  apply findTimer_In in Hf as [Hin _].
  destruct (resetDue cfg (popTimer t s)) eqn:Hd; [|reflexivity].
  exfalso. unfold resetDue in Hd. simpl in Hd.
  destruct (mediamtxProcess s) as [p|] eqn:Hp; [|discriminate].
  destruct (lastStableTime (restartState s)) as [l|] eqn:Hl; [|discriminate].
  apply andb_true_iff in Hd as [_ Hd]. apply Z.leb_le in Hd.
  assert (Hqp : q <> p) by congruence.
  specialize (Hc t q p l Hin Hcb Hq eq_refl Hqp eq_refl). lia.
Qed.

End StaleTimers.

(** The timer of the first child fires on time, 297.5 s after the second
    child was started. *)
Lemma stale_stability_timer_is_harmless_witness :
  let s := run MEDIAMTX_RESTART (boot MEDIAMTX_RESTART 1000)
             [Elapse 500; ProcExit 0%nat (Some 1); TimerFires 1%nat] in
  step MEDIAMTX_RESTART s (TimerFires 0%nat)
    = popTimer {| timerId := 0; due := 301000; callback := CbStabilityCheck;
                  armedFor := Some 0%nat |} s.
Proof.
  exact (stale_stability_timer_is_harmless MEDIAMTX_RESTART
           ltac:(simpl; lia) ltac:(simpl; lia) 1000
           [Elapse 500; ProcExit 0%nat (Some 1); TimerFires 1%nat]
           0%nat
           {| timerId := 0; due := 301000; callback := CbStabilityCheck;
              armedFor := Some 0%nat |}
           0%nat eq_refl eq_refl eq_refl ltac:(discriminate)
           ltac:(vm_compute; discriminate)).
Defined.

End SupervisorMore.

(* ===================================================================== *)
(** * More facts about the capture service                                *)
(* ===================================================================== *)

Module CaptureMore.
Import NodePath Capture CaptureExtra CaptureFacts.

(** ** The health probe *)

Section Health.

Variable env : Env.
Variable retries : nat.
Variable delayMs : Z.

Lemma probing_S (n : nat) :
  (1 <= n)%nat ->
  probing delayMs (S n) = HttpGet :: Sleep delayMs :: probing delayMs n.
Proof. destruct n; [lia|reflexivity]. Qed.

Lemma healthLoop_spec (fuel attempt : nat) (w : World) :
  (attempt + fuel = retries + 1)%nat ->
  healthLoop env retries delayMs fuel attempt w =
    let found := List.find (probe env) (seq attempt fuel) in
    let n := match found with
             | Some k => (k - attempt + 1)%nat
             | None => fuel
             end in
    (bool_decide (is_Some found),
     {| fs := fs w; now := now w + delayMs * Z.of_nat (n - 1);
        actions := actions w ++ probing delayMs n |}).
Proof.
  revert attempt w. induction fuel as [|fuel IH]; intros attempt w Hsum.
  - simpl. rewrite Z.mul_0_r, Z.add_0_r, app_nil_r. now destruct w.
  - cbn [healthLoop seq List.find].
    destruct (probe env attempt) eqn:Hp.
    + cbv zeta. replace (attempt - attempt + 1)%nat with 1%nat by lia.
      simpl. rewrite Z.mul_0_r, Z.add_0_r. reflexivity.
    + destruct fuel as [|fuel].
      * assert (Hlt : (attempt <? retries)%nat = false)
          by (apply Nat.ltb_ge; lia).
        rewrite Hlt. simpl. rewrite Z.mul_0_r, Z.add_0_r. reflexivity.
      * assert (Hlt : (attempt <? retries)%nat = true)
          by (apply Nat.ltb_lt; lia).
        rewrite Hlt, IH by lia. cbv zeta.
        set (found := List.find (probe env) (seq (S attempt) (S fuel))).
        assert (Hn : forall k, found = Some k -> (S attempt <= k)%nat).
        { intros k Hk. apply find_some in Hk as [Hk _].
          apply in_seq in Hk. lia. }
        destruct found as [k|] eqn:Hf.
        -- specialize (Hn k eq_refl).
           replace (k - attempt + 1)%nat with (S (k - S attempt + 1)) by lia.
           rewrite probing_S by lia. simpl actions. simpl now. simpl fs.
           replace (S (k - S attempt + 1) - 1)%nat
             with (S (k - S attempt + 1 - 1)) by lia.
           rewrite Nat2Z.inj_succ, Z.mul_succ_r.
           f_equal. f_equal; [lia|]. rewrite <- !app_assoc. reflexivity.
        -- rewrite (probing_S (S fuel)) by lia.
           simpl actions. simpl now. simpl fs.
           f_equal. f_equal; [|rewrite <- !app_assoc; reflexivity].
           rewrite <- Z.add_assoc. f_equal.
           replace (Z.of_nat (S (S fuel) - 1)) with (Z.of_nat (S fuel - 1) + 1)
             by lia.
           ring.
Qed.

(** X7: [checkStreamHealth(retries, delayMs)] probes until the first
    ready answer or until [retries] probes have failed; it answers true
    exactly when one of the attempts [1 .. retries] is ready, it waits
    [delayMs] between two attempts and not after the last one, so that
    [n] probes take [delayMs * (n - 1)], and it touches no file.  The
    service's own calls are the instance [retries = 3], [delayMs = 1000]. *)
Theorem checkStreamHealth_probes_until_ready (w : World) :
  let n := match firstReady env retries with
           | Some k => k
           | None => retries
           end in
  checkStreamHealthWith env retries delayMs w =
    (bool_decide (is_Some (firstReady env retries)),
     {| fs := fs w; now := now w + delayMs * Z.of_nat (n - 1);
        actions := actions w ++ probing delayMs n |}) /\
  (fst (checkStreamHealthWith env retries delayMs w) = true <->
   exists k, (1 <= k <= retries)%nat /\ probe env k = true) /\
  checkStreamHealth env w = checkStreamHealthWith env 3 1000 w.
Proof.
  intros n. unfold checkStreamHealthWith.
  rewrite (healthLoop_spec retries 1 w) by lia. cbv zeta.
  fold (firstReady env retries).
  assert (Hn : match firstReady env retries with
               | Some k => (k - 1 + 1)%nat
               | None => retries
               end = n).
  { unfold n. destruct (firstReady env retries) as [k|] eqn:Hf; [|reflexivity].
    apply find_some in Hf as [Hk _]. apply in_seq in Hk. lia. }
  rewrite Hn. split; [reflexivity|]. split; [|reflexivity].
  cbn [fst]. rewrite bool_decide_eq_true. split.
  - intros [k Hk]. unfold firstReady in Hk.
    apply find_some in Hk as [Hin Hp]. apply in_seq in Hin.
    exists k. split; [lia|assumption].
  - intros (k & Hk & Hp). unfold firstReady.
    destruct (List.find (probe env) (seq 1 retries)) as [j|] eqn:Hf;
      [eexists; reflexivity|].
    exfalso. pose proof (find_none _ _ Hf k) as Hnone.
    rewrite Hnone in Hp; [discriminate|]. apply in_seq. lia.
Qed.

End Health.

(** ** Names without a slash *)

Section Confined.

Local Open Scope string_scope.
#[local] Arguments String.append !s1 s2 : simpl nomatch.

Lemma noSlash_segments (f : string) : noSlash f = true -> segments f = [f].
Proof.
  induction f as [|c f IH]; [reflexivity|]. simpl.
  intros H. apply andb_true_iff in H as [Hc Hf].
  apply negb_true_iff in Hc. now rewrite Hc, (IH Hf).
Qed.

Lemma noSlash_endsWithSlash (f : string) :
  noSlash f = true -> endsWithSlash f = false.
Proof.
  induction f as [|c f IH]; [reflexivity|]. simpl.
  intros H. apply andb_true_iff in H as [Hc Hf].
  apply negb_true_iff in Hc. destruct f; [exact Hc|exact (IH Hf)].
Qed.

Lemma noSlash_append (a b : string) :
  noSlash a = true -> noSlash b = true -> noSlash (a ++ b) = true.
Proof.
  intros Ha Hb. induction a as [|c a IH]; [exact Hb|]. simpl in *.
  apply andb_true_iff in Ha as [Hc Ha]. now rewrite Hc, (IH Ha).
Qed.

Lemma noSlash_substring (s : string) (n m : nat) :
  noSlash s = true -> noSlash (String.substring n m s) = true.
Proof.
  revert n m. induction s as [|c s IH]; intros n m H.
  - destruct n, m; reflexivity.
  - simpl in H. apply andb_true_iff in H as [Hc Hs].
    destruct n as [|n]; [destruct m as [|m]|]; simpl; auto.
    now rewrite Hc, (IH 0%nat m Hs).
Qed.

Lemma noSlash_dashColonsAndDots (s : string) :
  noSlash s = true -> noSlash (dashColonsAndDots s) = true.
Proof.
  induction s as [|c s IH]; [reflexivity|]. simpl.
  intros H. apply andb_true_iff in H as [Hc Hs]. rewrite (IH Hs).
  destruct (Ascii.eqb c ":" || Ascii.eqb c "."); [reflexivity|].
  now rewrite Hc.
Qed.

Lemma prefix_self_append (a b : string) : String.prefix a (a ++ b) = true.
Proof.
  induction a as [|c a IH]; simpl; [now destruct b|].
  destruct (ascii_dec c c); [exact IH|congruence].
Qed.

Lemma absPath_snoc (ds : list string) (f : string) :
  absPath (ds ++ [f]) = absPath ds ++ String slash f.
Proof.
  rewrite absPath_app. simpl. f_equal. f_equal.
  induction f as [|c f IH]; simpl; [reflexivity|now rewrite IH].
Qed.

(** A name that begins with a letter and has no slash is a plain name. *)
Lemma lettered_name (c : ascii) (f : string) :
  noSlash (String c f) = true -> Ascii.eqb c "." = false ->
  isName (String c f) = true.
Proof.
  intros H Hc. unfold isName. rewrite H. simpl.
  unfold String.eqb. fold String.eqb. rewrite Hc. reflexivity.
Qed.

Lemma join_name (ds : list string) (c : ascii) (f : string) :
  Forall (fun d => isName d = true) ds -> ds <> [] ->
  noSlash (String c f) = true -> Ascii.eqb c "." = false ->
  join (absPath ds) (String c f) = absPath ds ++ String slash (String c f).
Proof.
  intros Hds Hne Hf Hc.
  pose proof (lettered_name c f Hf Hc) as Hname.
  rewrite <- absPath_snoc. apply join_absPath; try assumption.
  - discriminate.
  - change (endsWithSlash (String slash (String c f)))
      with (endsWithSlash (String c f)).
    now apply noSlash_endsWithSlash.
  - rewrite (noSlash_segments _ Hf).
    unfold isName in Hname.
    apply andb_true_iff in Hname as [Hn H3].
    apply andb_true_iff in Hn as [Hn H2].
    apply andb_true_iff in Hn as [_ H1].
    apply negb_true_iff in H1, H2, H3.
    cbn [normalizeSegments]. rewrite H1, H2, H3. cbn [orb].
    cbn [rev]. now rewrite rev_involutive.
  - apply Forall_app. split; [assumption|]. repeat constructor. exact Hname.
  - destruct ds; discriminate.
Qed.

Variable root : list string.
Hypothesis root_names : Forall (fun d => isName d = true) root.

Lemma VIDEOS_DIR_eq :
  VIDEOS_DIR root = absPath (root ++ ["captures"; "videos"]).
Proof.
  unfold VIDEOS_DIR. rewrite (CAPTURES_DIR_eq root root_names).
  apply join_absPath.
  - apply names_app; [assumption|]. repeat constructor.
  - destruct root; discriminate.
  - discriminate.
  - reflexivity.
  - rewrite rev_app_distr. simpl. now rewrite rev_involutive, <- app_assoc.
  - apply names_app; [assumption|]. repeat constructor.
  - destruct root; discriminate.
Qed.

Lemma startsWith_cons (c : ascii) (p f : string) :
  startsWith f (String c p) = true -> exists f', f = String c f'.
Proof.
  unfold startsWith. destruct f as [|d f]; simpl; [discriminate|].
  destruct (ascii_dec c d) as [->|]; [eauto|discriminate].
Qed.

Lemma plain_photo_path (f : string) :
  noSlash f = true -> startsWith f "photo_" = true ->
  getFilePath root f = Some (PHOTOS_DIR root ++ "/" ++ f) /\
  isInside (PHOTOS_DIR root) (PHOTOS_DIR root ++ "/" ++ f) = true.
Proof.
  intros Hf Hp. destruct (startsWith_cons _ _ _ Hp) as [f' ->].
  unfold getFilePath. rewrite Hp. split.
  - f_equal. rewrite (PHOTOS_DIR_eq root root_names).
    apply join_name; try assumption; try reflexivity.
    + apply names_app; [assumption|]. repeat constructor.
    + destruct root; discriminate.
  - unfold isInside. rewrite <- append_assoc. apply prefix_self_append.
Qed.

Lemma plain_video_path (f : string) :
  noSlash f = true -> startsWith f "video_" = true ->
  getFilePath root f = Some (VIDEOS_DIR root ++ "/" ++ f) /\
  isInside (VIDEOS_DIR root) (VIDEOS_DIR root ++ "/" ++ f) = true.
Proof.
  intros Hf Hp. destruct (startsWith_cons _ _ _ Hp) as [f' ->].
  unfold getFilePath.
  change (startsWith (String "v" f') "photo_") with false. cbv iota.
  rewrite Hp. split.
  - f_equal. rewrite VIDEOS_DIR_eq.
    apply join_name; try assumption; try reflexivity.
    + apply names_app; [assumption|]. repeat constructor.
    + destruct root; discriminate.
  - unfold isInside. rewrite <- append_assoc. apply prefix_self_append.
Qed.

(** X8: for a file name without a slash the prefix check of [getFilePath]
    is enough: a "photo_" name resolves to that name directly inside the
    photos directory, a "video_" name to that name directly inside the
    videos directory. *)
Theorem plain_names_stay_inside (f : string) :
  noSlash f = true ->
  (startsWith f "photo_" = true ->
   getFilePath root f = Some (PHOTOS_DIR root ++ "/" ++ f) /\
   isInside (PHOTOS_DIR root) (PHOTOS_DIR root ++ "/" ++ f) = true) /\
  (startsWith f "video_" = true ->
   getFilePath root f = Some (VIDEOS_DIR root ++ "/" ++ f) /\
   isInside (VIDEOS_DIR root) (VIDEOS_DIR root ++ "/" ++ f) = true).
Proof.
  intros Hf. split; intros Hp.
  - now apply plain_photo_path.
  - now apply plain_video_path.
Qed.

End Confined.

(** A photo and a video of the project in /home/pi/telescope. *)
Lemma plain_names_stay_inside_witness :
  getFilePath ["home"; "pi"; "telescope"]%string "photo_2024-05-06T07-08-09.jpg"
    = Some "/home/pi/telescope/captures/photos/photo_2024-05-06T07-08-09.jpg"%string
  /\
  getFilePath ["home"; "pi"; "telescope"]%string "video_2024-05-06T07-08-09.mp4"
    = Some "/home/pi/telescope/captures/videos/video_2024-05-06T07-08-09.mp4"%string.
Proof.
  split.
  - destruct (plain_names_stay_inside ["home"; "pi"; "telescope"]%string
                ltac:(repeat constructor) "photo_2024-05-06T07-08-09.jpg"
                eq_refl) as [H _].
    destruct (H eq_refl) as [H1 _]. exact H1.
  - destruct (plain_names_stay_inside ["home"; "pi"; "telescope"]%string
                ltac:(repeat constructor) "video_2024-05-06T07-08-09.mp4"
                eq_refl) as [_ H].
    destruct (H eq_refl) as [H1 _]. exact H1.
Defined.

(** ** Photos *)

Section Photos.

Variable root : list string.

Lemma length_append (a b : string) :
  String.length (a ++ b) = (String.length a + String.length b)%nat.
Proof.
  induction a as [|c a IH]; [reflexivity|].
  change (String.length (String c (a ++ b))
          = S (String.length a + String.length b)).
  simpl. now rewrite IH.
Qed.

Lemma length_substring (n m : nat) (s : string) :
  (String.length (String.substring n m s) <= m)%nat.
Proof.
  revert n m. induction s as [|c s IH]; intros [|n] [|m]; simpl; try lia.
  - specialize (IH 0%nat m). lia.
  - apply (IH n 0%nat).
  - apply (IH n (S m)).
Qed.

Ltac ran_ffmpeg :=
  repeat first [ apply in_or_app; right; now left | apply in_or_app; left ].

Lemma photo_name_accepted (env : Env) :
  getFilePath root (generateFilename env "photo" "jpg")
    = Some (join (PHOTOS_DIR root) (generateFilename env "photo" "jpg")).
Proof.
  unfold getFilePath, startsWith, generateFilename.
  change ("photo" ++ "_" ++ ?x)%string with ("photo_" ++ x)%string.
  now rewrite prefix_self_append.
Qed.

Lemma video_name_accepted (env : Env) :
  getFilePath root (generateFilename env "video" "mp4")
    = Some (join (VIDEOS_DIR root) (generateFilename env "video" "mp4")).
Proof.
  unfold getFilePath, startsWith, generateFilename.
  change ("video" ++ "_" ++ ?x)%string with ("video_" ++ x)%string.
  change (String.prefix "photo_" ("video_" ++ ?x)%string) with false.
  cbv iota. now rewrite prefix_self_append.
Qed.

Lemma substring_whole (s : string) (m : nat) :
  (String.length s <= m)%nat -> String.substring 0 m s = s.
Proof.
  revert m. induction s as [|c s IH]; intros [|m] H; simpl in *;
    try reflexivity; try lia.
  f_equal. apply IH. lia.
Qed.

(** A substring that reaches the end of the string is what is left when
    the front is taken away. *)
Lemma substring_suffix (s : string) (k n : nat) :
  (String.length s <= k + n)%nat ->
  exists front, s = (front ++ String.substring k n s)%string /\
                String.length front = Nat.min k (String.length s).
Proof.
  revert k. induction s as [|c s IH]; intros k H.
  - exists EmptyString. split; [now destruct k, n|]. now destruct k.
  - destruct k as [|k].
    + exists EmptyString. split; [|reflexivity].
      rewrite substring_whole by exact H. reflexivity.
    + destruct (IH k) as (front & Hs & Hl); [simpl in H; lia|].
      exists (String c front). split.
      * change (String c s
                = String c (front ++ String.substring k n s)%string).
        now rewrite <- Hs.
      * simpl. now rewrite Hl.
Qed.

(** [s.slice(-n)] is the end of [s], and it is [n] long unless [s] is
    shorter. *)
Lemma sliceLast_spec (n : nat) (s : string) :
  exists front, s = (front ++ sliceLast n s)%string /\
                String.length (sliceLast n s) = Nat.min n (String.length s).
Proof.
  unfold sliceLast.
  destruct (substring_suffix s (String.length s - n) n) as (front & Hs & Hl);
    [lia|].
  exists front. split; [exact Hs|].
  pose proof (f_equal String.length Hs) as Hlen.
  rewrite length_append in Hlen. lia.
Qed.

(** X9: once the stream is ready, [capturePhoto()] runs the capture
    command on the generated path and ends in one of two ways.  It
    resolves, after the command succeeded, with the generated name and
    path and the size [stat] shows at the path, the files being as the
    command left them.  Or it is rejected with "Photo capture failed: "
    followed by the last 200 characters of the diagnostic, all of it when
    it is shorter: the diagnostic is what the failed command printed, or
    the error of [stat] when the command succeeded and nothing is at the
    path.  Before it is rejected it tries to remove the file: the last
    thing it does is the [unlink] of the path, whose error it drops, so
    that the file the command left at the path is gone unless [unlink] may
    not remove it, and no other file has changed. *)
Theorem capturePhoto_outcomes (disk : Disk) (env : Env) (w : World) :
  fst (checkStreamHealth env w) = true ->
  let path := join (PHOTOS_DIR root) (generateFilename env "photo" "jpg") in
  let '(files, failure) := ffmpegPhoto env path (fs w) in
  let '(o, w') := capturePhotoOn root disk env w in
  In (ExecFfmpegPhoto path) (actions w') /\
  match o with
  | Resolved r =>
      failure = None /\
      photoFilename r = generateFilename env "photo" "jpg" /\
      photoPath r = path /\
      fs w' = files /\
      statSize disk w' path = Some (photoSize r)
  | Rejected msg =>
      let diagnostic := default (enoentText path) failure in
      (failure = None -> files !! path = None /\ others disk path = None) /\
      (exists front tail,
         diagnostic = (front ++ tail)%string /\
         String.length tail = Nat.min 200 (String.length diagnostic) /\
         msg = ("Photo capture failed: " ++ tail)%string) /\
      List.last (actions w') HttpGet = Unlink path /\
      fs w' = match denied disk path with
              | Some _ => files
              | None => delete path files
              end
  end.
Proof.
  intros Hready path. unfold capturePhotoOn. fold path.
  pose proof (checkStreamHealth_fs env w) as Hfs.
  destruct (checkStreamHealth env w) as [ready w1]. simpl in Hready, Hfs.
  subst ready. cbn [negb].
  change (fs (act (ExecFfmpegPhoto path) w1)) with (fs w1). rewrite Hfs.
  destruct (ffmpegPhoto env path (fs w)) as [files failure].
  assert (Hmsg : forall e : string,
            exists front tail,
              e = (front ++ tail)%string /\
              String.length tail = Nat.min 200 (String.length e) /\
              ("Photo capture failed: " ++ sliceLast 200 e)%string
              = ("Photo capture failed: " ++ tail)%string).
  { intros e. destruct (sliceLast_spec 200 e) as (front & He & Hl).
    exists front, (sliceLast 200 e). auto. }
  assert (Hun : forall wc : World,
            fs wc = files ->
            List.last (actions (snd (unlink disk path wc))) HttpGet
              = Unlink path /\
            fs (snd (unlink disk path wc))
              = match denied disk path with
                | Some _ => files
                | None => delete path files
                end).
  { intros wc Hwc. unfold unlink. cbn [act fs]. rewrite Hwc.
    destruct (files !! path) as [size|] eqn:Hsz.
    - destruct (denied disk path); cbn [snd setFs act fs actions];
        (split; [apply last_last|]); [exact Hwc|reflexivity].
    - assert (Hid : delete path files = files) by now apply delete_id.
      rewrite Hid.
      destruct (others disk path) as [[sz m]|];
        cbn [snd act fs actions];
        (split; [apply last_last|]); now destruct (denied disk path). }
  assert (Hin : forall wc : World,
            In (ExecFfmpegPhoto path) (actions wc) ->
            In (ExecFfmpegPhoto path) (actions (snd (unlink disk path wc)))).
  { intros wc H. unfold unlink. cbn [act fs].
    destruct (fs wc !! path); [destruct (denied disk path)|
                               destruct (others disk path) as [[sz m]|]];
      cbn [snd setFs act actions]; apply in_or_app; now left. }
  destruct failure as [errorOutput|].
  - cbv zeta. cbn [default].
    split; [apply Hin; cbn [setFs act actions]; ran_ffmpeg|].
    split; [discriminate|]. split; [apply Hmsg|]. now apply Hun.
  - cbv zeta. unfold statSize. cbn [act setFs fs].
    destruct (files !! path) as [size|] eqn:Hsz.
    + split; [cbn [act setFs actions]; ran_ffmpeg|].
      cbn [photoFilename photoPath photoSize act setFs fs].
      rewrite Hsz. repeat split.
    + destruct (others disk path) as [[sz m]|] eqn:Ho;
        cbn [fmap option_fmap option_map fst].
      * split; [cbn [act setFs actions]; ran_ffmpeg|].
        cbn [photoFilename photoPath photoSize act setFs fs].
        rewrite Hsz. repeat split.
      * split; [apply Hin; cbn [setFs act actions]; ran_ffmpeg|].
        cbn [default]. split; [auto|]. split; [apply Hmsg|]. now apply Hun.
Qed.

(** ** Deleting *)

(** X10: [deleteCapture] rejects without changing a file: with "Invalid
    filename" for a name with neither prefix, having done nothing; with
    "File not found" when nothing is at the path, having tried no
    [unlink]; and with the error of [unlink] itself when something is at
    the path that [unlink] cannot remove, a directory or a file it may not
    remove.  When it resolves, the file the name leads to existed and is
    the only one removed. *)
Theorem deleteCapture_outcomes (disk : Disk) (filename : string) (w : World) :
  let '(o, w') := deleteCaptureOn root disk filename w in
  match o with
  | Rejected msg =>
      fs w' = fs w /\
      ((msg = "Invalid filename" /\ getFilePath root filename = None /\ w' = w)
       \/
       exists p,
         getFilePath root filename = Some p /\
         ((msg = "File not found" /\
           fs w !! p = None /\ others disk p = None /\
           actions w' = actions w ++ [Access p])
          \/
          (actions w' = actions w ++ [Access p; Unlink p] /\
           ((is_Some (fs w !! p) /\ denied disk p = Some msg) \/
            (fs w !! p = None /\
             exists size, others disk p = Some (size, msg))))))
  | Resolved name =>
      name = filename /\
      exists p, getFilePath root filename = Some p /\
                is_Some (fs w !! p) /\
                denied disk p = None /\
                actions w' = actions w ++ [Access p; Unlink p] /\
                fs w' = delete p (fs w) /\
                forall q, q <> p -> fs w' !! q = fs w !! q
  end.
Proof.
  unfold deleteCaptureOn.
  destruct (getFilePath root filename) as [p|] eqn:Hp.
  - cbv zeta. unfold statSize, unlink. cbn [act fs actions].
    destruct (fs w !! p) as [size|] eqn:Hs.
    + destruct (denied disk p) as [msg|] eqn:Hd.
      * split; [reflexivity|]. right. exists p. split; [reflexivity|].
        right. cbn [act actions]. rewrite <- app_assoc.
        split; [reflexivity|]. left. eauto.
      * split; [reflexivity|]. exists p. cbn [setFs act fs actions].
        rewrite <- app_assoc. repeat split; eauto.
        intros q Hq. now apply lookup_delete_ne.
    + destruct (others disk p) as [[sz msg]|] eqn:Ho;
        cbn [fmap option_fmap option_map fst].
      * split; [reflexivity|]. right. exists p. split; [reflexivity|].
        right. cbn [act actions]. rewrite <- app_assoc.
        split; [reflexivity|]. right. eauto.
      * split; [reflexivity|]. right. exists p. split; [reflexivity|].
        left. auto.
  - split; [reflexivity|]. left. auto.
Qed.


End Photos.


(** The media server has gone: the photo is refused with the end of what
    the command printed, and the empty file it left is removed. *)
Lemma broken_photo :
  capturePhotoOn ["srv"%string] plainDisk brokenEnv (emptyWorld 5000)
  = (Rejected "Photo capture failed: on: --prefix=/usr --enable-gpl --enable-libx264 [tcp @ 0x55a3c1d2e4a0] Connection to tcp://localhost:8554?timeout=6000000 failed: Connection refused rtsp://localhost:8554/telescope: Connection refused",
     {| fs := ∅; now := 5000;
        actions :=
          [HttpGet;
           ExecFfmpegPhoto "/srv/captures/photos/photo_2024-05-06T07-08-09.jpg";
           Unlink "/srv/captures/photos/photo_2024-05-06T07-08-09.jpg"] |}).
Proof. vm_compute. reflexivity. Qed.

(** The name "photo_/.." passes the prefix check and leads to the photos
    directory itself: [access] succeeds, [unlink] throws, and
    [deleteCapture] is rejected with that error, not with "File not
    found". *)
Lemma delete_of_the_photos_directory :
  getFilePath ["srv"%string] "photo_/.." = Some "/srv/captures/photos"%string /\
  deleteCaptureOn ["srv"%string] photosDirOnly "photo_/.." (emptyWorld 5000)
  = (Rejected
       "EISDIR: illegal operation on a directory, unlink '/srv/captures/photos'",
     {| fs := ∅; now := 5000;
        actions := [Access "/srv/captures/photos";
                    Unlink "/srv/captures/photos"] |}).
Proof. split; vm_compute; reflexivity. Qed.

Lemma capturePhoto_outcomes_witness :
  let path := "/srv/captures/photos/photo_2024-05-06T07-08-09.jpg"%string in
  let w' := snd (capturePhotoOn ["srv"%string] plainDisk brokenEnv
                   (emptyWorld 5000)) in
  In (ExecFfmpegPhoto path) (actions w') /\
  List.last (actions w') HttpGet = Unlink path /\
  fs w' = delete path (<[path := 0]> ∅).
Proof.
  pose proof (capturePhoto_outcomes ["srv"%string] plainDisk brokenEnv
                (emptyWorld 5000) eq_refl) as H.
  cbv zeta in H. cbn [ffmpegPhoto brokenEnv] in H.
  rewrite broken_photo in H. destruct H as (H1 & _ & _ & H2 & H3).
  cbv zeta. rewrite broken_photo. split; [exact H1|]. split; [exact H2|].
  exact H3.
Defined.


(** ** Starting a recording *)

Section Starting.

Variable root : list string.

Lemma spawned_probing (d : Z) (n : nat) :
  List.filter isSpawn (probing d n) = [].
Proof.
  induction n as [|[|n] IH]; try reflexivity. exact IH.
Qed.

Lemma spawned_health (env : Env) (w : World) :
  spawned (snd (checkStreamHealth env w)) = spawned w /\
  fs (snd (checkStreamHealth env w)) = fs w.
Proof.
  unfold checkStreamHealth.
  rewrite (healthLoop_spec env 3 1000 3 1 w) by reflexivity.
  cbv zeta. unfold spawned. cbn [snd actions fs].
  rewrite List.filter_app, spawned_probing, app_nil_r. split; reflexivity.
Qed.

(** X12: [startRecording()] either is rejected, with the service object
    exactly as it was, no child spawned and no file changed, or resolves
    after a successful probe and with at least 500 MB measured, having
    spawned exactly one capture child; the session then holds that child,
    the generated path and the time of the spawn, and the returned name
    leads back to the returned path. *)
Theorem startRecording_outcomes (env : Env) (svc : CaptureService) (w : World) :
  let '(o, svc', w') := startRecording root env svc w in
  fs w' = fs w /\
  match o with
  | Rejected msg =>
      svc' = svc /\ spawned w' = spawned w /\
      (msg = "Already recording" \/ msg = notReadyText \/
       exists d, msg = insufficientText d /\ sufficient d = false)
  | Resolved r =>
      isRecording svc = false /\
      fst (checkStreamHealth env w) = true /\
      geNumber (diskSpaceAvailable r) MIN_DISK_SPACE_MB = true /\
      svc' = {| recordingProcess := Some (freshPid env);
                isRecording := true;
                currentVideoFile := Some (startedPath r);
                recordingStartTime := Some (now w') |} /\
      spawned w' = spawned w ++ [SpawnFfmpeg (freshPid env) (startedPath r)] /\
      getFilePath root (startedFilename r) = Some (startedPath r)
  end.
Proof.
  unfold startRecording.
  destruct (isRecording svc) eqn:Hrec.
  { split; [reflexivity|]. repeat split. now left. }
  destruct (spawned_health env w) as [Hsp Hfs].
  destruct (checkStreamHealth env w) as [ready w1]. simpl in Hsp, Hfs.
  destruct ready; cbn [negb].
  2:{ split; [assumption|]. repeat split; [assumption|]. right. now left. }
  unfold checkDiskSpace.
  assert (Hact : spawned (act ExecDf w1) = spawned w).
  { unfold spawned in *. simpl. rewrite List.filter_app, Hsp. simpl.
    apply app_nil_r. }
  destruct (dfOutput env) as [stdout|]; cbn [sufficient available negb].
  - destruct (geNumber (parseInt (dropFirstM stdout)) MIN_DISK_SPACE_MB)
      eqn:Hge; cbn [negb].
    + split; [exact Hfs|]. repeat split.
      * exact Hge.
      * unfold spawned in *. simpl in *. rewrite List.filter_app. simpl.
        now rewrite Hact.
      * apply video_name_accepted.
    + split; [exact Hfs|]. repeat split; [exact Hact|].
      right. right. eexists. split; reflexivity.
  - split; [exact Hfs|]. repeat split; [exact Hact|].
    right. right. eexists. split; reflexivity.
Qed.

End Starting.

(** Recording with everything in order. *)
Lemma good_start :
  startRecording ["srv"%string] goodEnv constructor (emptyWorld 5000)
  = (Resolved {| startedFilename := "video_2024-05-06T07-08-09.mp4";
                 startedPath := "/srv/captures/videos/video_2024-05-06T07-08-09.mp4";
                 startTime := "2024-05-06T07:08:10.456Z";
                 diskSpaceAvailable := Num 12345 |},
     {| recordingProcess := Some 7%nat; isRecording := true;
        currentVideoFile :=
          Some "/srv/captures/videos/video_2024-05-06T07-08-09.mp4"%string;
        recordingStartTime := Some 5000 |},
     {| fs := ∅; now := 5000;
        actions :=
          [HttpGet; ExecDf;
           SpawnFfmpeg 7%nat
             "/srv/captures/videos/video_2024-05-06T07-08-09.mp4"] |}).
Proof. vm_compute. reflexivity. Qed.

(** ** Generated names, and the status of a session *)

Section Generated.

Local Open Scope string_scope.

Variable root : list string.
Hypothesis root_names : Forall (fun d => isName d = true) root.

Lemma generated_noSlash (env : Env) (type ext : string) :
  noSlash (isoTime env) = true -> noSlash type = true -> noSlash ext = true ->
  noSlash (generateFilename env type ext) = true.
Proof.
  intros Hi Ht He. unfold generateFilename.
  repeat apply noSlash_append; try assumption; try reflexivity.
  apply noSlash_substring, noSlash_dashColonsAndDots, Hi.
Qed.

Lemma basename_below (ds : list string) (f : string) :
  Forall (fun d => isName d = true) ds -> noSlash f = true ->
  basename (absPath ds ++ String slash f) = f.
Proof.
  intros Hds Hf. unfold basename.
  rewrite (segments_absPath _ _ Hds), (noSlash_segments _ Hf).
  change (List.last (("" :: ds) ++ [f])%list (absPath ds ++ String slash f) = f).
  apply last_last.
Qed.

Lemma generated_paths (env : Env) :
  noSlash (isoTime env) = true ->
  let photo := generateFilename env "photo" "jpg" in
  let video := generateFilename env "video" "mp4" in
  join (PHOTOS_DIR root) photo = PHOTOS_DIR root ++ "/" ++ photo /\
  isInside (PHOTOS_DIR root) (join (PHOTOS_DIR root) photo) = true /\
  join (VIDEOS_DIR root) video = VIDEOS_DIR root ++ "/" ++ video /\
  isInside (VIDEOS_DIR root) (join (VIDEOS_DIR root) video) = true /\
  basename (join (PHOTOS_DIR root) photo) = photo /\
  basename (join (VIDEOS_DIR root) video) = video.
Proof.
  intros Hi photo video.
  assert (Hp : noSlash photo = true) by now apply generated_noSlash.
  assert (Hv : noSlash video = true) by now apply generated_noSlash.
  pose proof (plain_photo_path root root_names photo Hp) as H1.
  pose proof (plain_video_path root root_names video Hv) as H2.
  assert (Sp : startsWith photo "photo_" = true).
  { unfold photo, generateFilename, startsWith.
    change ("photo" ++ "_" ++ ?x) with ("photo_" ++ x).
    apply prefix_self_append. }
  assert (Sv : startsWith video "video_" = true).
  { unfold video, generateFilename, startsWith.
    change ("video" ++ "_" ++ ?x) with ("video_" ++ x).
    apply prefix_self_append. }
  destruct (H1 Sp) as [G1 I1]. destruct (H2 Sv) as [G2 I2].
  pose proof (photo_name_accepted root env) as A1. fold photo in A1.
  pose proof (video_name_accepted root env) as A2. fold video in A2.
  rewrite A1 in G1. rewrite A2 in G2.
  injection G1 as G1. injection G2 as G2.
  rewrite G1, G2. repeat split; try assumption.
  - rewrite (PHOTOS_DIR_eq root root_names). apply basename_below; [|exact Hp].
    apply names_app; [assumption|]. repeat constructor.
  - rewrite (VIDEOS_DIR_eq root root_names). apply basename_below; [|exact Hv].
    apply names_app; [assumption|]. repeat constructor.
Qed.

(** X13: when the ISO timestamp has no slash, as every timestamp has, the
    generated photo and video names are single path components: the path
    [capturePhoto] writes to is that name directly inside the photos
    directory, the path [startRecording] records to is that name directly
    inside the videos directory, and [path.basename] gives the name back. *)
Theorem generated_paths_are_confined (env : Env) :
  noSlash (isoTime env) = true ->
  let photo := generateFilename env "photo" "jpg" in
  let video := generateFilename env "video" "mp4" in
  join (PHOTOS_DIR root) photo = PHOTOS_DIR root ++ "/" ++ photo /\
  isInside (PHOTOS_DIR root) (join (PHOTOS_DIR root) photo) = true /\
  join (VIDEOS_DIR root) video = VIDEOS_DIR root ++ "/" ++ video /\
  isInside (VIDEOS_DIR root) (join (VIDEOS_DIR root) video) = true /\
  basename (join (PHOTOS_DIR root) photo) = photo /\
  basename (join (VIDEOS_DIR root) video) = video.
Proof. exact (generated_paths env). Qed.

(** X14: after a [startRecording()] that resolved, [getRecordingStatus()]
    reports the file name that [startRecording()] returned, the whole
    seconds elapsed since the spawn, which are not negative from the spawn
    on, and the start time. *)
Theorem status_after_start
    (toISOString : Z -> string) (env : Env) (svc svc' : CaptureService)
    (w w' : World) (r : Started) (t : Z) :
  noSlash (isoTime env) = true ->
  startRecording root env svc w = (Resolved r, svc', w') ->
  getRecordingStatus toISOString svc' t
    = Some (RecordingNow (startedFilename r) ((t - now w') / 1000)
              (toISOString (now w'))) /\
  (now w' <= t -> 0 <= (t - now w') / 1000).
Proof.
  intros Hi H.
  unfold startRecording in H.
  destruct (isRecording svc); [discriminate|].
  destruct (checkStreamHealth env w) as [[|] w1]; [|discriminate].
  cbn [negb] in H. destruct (checkDiskSpace env w1) as [d w2].
  destruct (negb (sufficient d)); [discriminate|].
  injection H as <- <- <-. cbn [startedPath startedFilename].
  destruct (generated_paths env Hi) as (_ & _ & _ & _ & _ & Hb).
  unfold getRecordingStatus. simpl. rewrite Hb. split; [reflexivity|].
  intros Hle. apply Z.div_pos; lia.
Qed.

End Generated.

Lemma generated_paths_are_confined_witness :
  join (PHOTOS_DIR ["srv"%string]) (generateFilename goodEnv "photo" "jpg")
    = "/srv/captures/photos/photo_2024-05-06T07-08-09.jpg"%string /\
  basename (join (VIDEOS_DIR ["srv"%string])
              (generateFilename goodEnv "video" "mp4"))
    = "video_2024-05-06T07-08-09.mp4"%string.
Proof.
  destruct (generated_paths_are_confined ["srv"%string]
              ltac:(repeat constructor) goodEnv eq_refl)
    as (H1 & _ & _ & _ & _ & H2).
  split; [exact H1|exact H2].
Defined.

Lemma status_after_start_witness :
  getRecordingStatus (fun ms => pretty ms)
    {| recordingProcess := Some 7%nat; isRecording := true;
       currentVideoFile :=
         Some "/srv/captures/videos/video_2024-05-06T07-08-09.mp4"%string;
       recordingStartTime := Some 5000 |} 68500
  = Some (RecordingNow "video_2024-05-06T07-08-09.mp4" 63 "5000").
Proof.
  destruct (status_after_start ["srv"%string] ltac:(repeat constructor)
              (fun ms => pretty ms) goodEnv _ _ _ _ _ 68500
              eq_refl good_start) as [H _].
  exact H.
Defined.

(** ** Stopping: the child obeys, or is already gone *)

#[local] Arguments verifyLoop : simpl never.

(** X15: when the child exits [d] ms after the cooperative stop, with
    [d] below the 5000 ms timeout, the timer is cleared and SIGTERM is
    never sent, not even if the timer callback were run afterwards; the
    session is idle and the call completes between [d + 500] and
    [d + 1400] ms after it was made.  If the first look finds the file
    non-empty, it resolves at [d + 500] with that size, the base name of
    the recorded path and the whole seconds between the start of the
    recording and the call. *)
Theorem obedient_child_is_never_killed
    (b : Behaviour) (stat : nat -> option Z) (iso : string) (r : Recorder)
    (d : Z) :
  isRecording (service r) = true ->
  is_Some (recordingProcess (service r)) ->
  stdin r = Writable -> calls r = [] -> signals r = [] ->
  onQuit b = Some d -> 0 <= d < gracefulTimeout ->
  exists r',
    stopAndWait b stat iso r = inl r' /\
    signals r' = [(clock r, Quit)] /\
    map timeoutDue (calls r') = [None] /\
    timeoutFires 0 r' = r' /\
    isRecording (service r') = false /\
    recordingProcess (service r') = None /\
    exists o ts,
      lastSettled r' = Some (o, ts) /\
      clock r + d + syncDelay <= ts <= clock r + d + syncDelay + 3 * retryDelay /\
      forall path size,
        currentVideoFile (service r) = Some path ->
        stat 0%nat = Some size -> 0 < size ->
        ts = clock r + d + syncDelay /\
        o = Resolved
              {| stoppedFilename := basename path; stoppedPath := path;
                 stoppedSize := size;
                 stoppedDuration :=
                   (clock r - default 0 (recordingStartTime (service r))) / 1000;
                 endTime := iso |}.
Proof.
  intros Hrec [p Hp] Hin Hc Hs Hq Hd.
  destruct r as [svc ch sin sl cs clk sg]. simpl in *. subst sin cs sg.
  destruct svc as [rp ir cvf rst]. simpl in *. subst rp ir.
  unfold stopAndWait, stopRecording. simpl.
  unfold exitTime, reaction. simpl. rewrite Hq. simpl.
  assert (Hlt : (clk + d <? clk + gracefulTimeout) = true)
    by (apply Z.ltb_lt; lia).
  rewrite Hlt. eexists. split; [reflexivity|].
  unfold childExit, lastSettled, timeoutFires. simpl.
  assert (Hmax : Z.max clk (clk + d) = clk + d) by lia.
  rewrite Hmax.
  repeat split.
  unfold verify, clearTimer. simpl.
  pose proof (verifyLoop_time
                (match cvf with Some _ => stat | None => fun _ => None end)
                iso (default ""%string cvf) ((clk - default 0 rst) / 1000)
                statRetries 0 (clk + d + syncDelay)) as Ht.
  destruct (verifyLoop _ iso _ _ statRetries 0 _) as [o ts] eqn:E.
  exists o, ts. cbn [snd] in Ht.
  split; [reflexivity|].
  split; [unfold statRetries, retryDelay, syncDelay in *; lia|].
  intros path size -> Hst Hpos. simpl in E.
  unfold verifyLoop, statRetries in E. rewrite Hst in E.
  apply Z.ltb_lt in Hpos. rewrite Hpos in E.
  injection E as <- <-. split; reflexivity.
Qed.

(** A child that stops 200 ms after the 'q', with the file in place. *)
Lemma obedient_child_is_never_killed_witness :
  exists r',
    stopAndWait {| onQuit := Some 200; onTerm := None |}
      (fun _ => Some 4096) "2024-05-06T07:09:10.000Z"
      (recording 3%nat "/srv/captures/videos/video_1.mp4" 1000 Writable)
    = inl r' /\
    signals r' = [(1000, Quit)] /\
    lastSettled r' =
      Some (Resolved {| stoppedFilename := "video_1.mp4";
                        stoppedPath := "/srv/captures/videos/video_1.mp4";
                        stoppedSize := 4096; stoppedDuration := 0;
                        endTime := "2024-05-06T07:09:10.000Z" |}, 1700).
Proof.
  destruct (obedient_child_is_never_killed
              {| onQuit := Some 200; onTerm := None |}
              (fun _ => Some 4096) "2024-05-06T07:09:10.000Z"
              (recording 3%nat "/srv/captures/videos/video_1.mp4" 1000 Writable)
              200 eq_refl ltac:(eexists; reflexivity) eq_refl eq_refl eq_refl
              eq_refl ltac:(unfold gracefulTimeout; lia))
    as (r' & H1 & H2 & _ & _ & _ & _ & o & ts & H3 & _ & H4).
  exists r'. split; [exact H1|]. split; [exact H2|].
  destruct (H4 _ 4096 eq_refl eq_refl ltac:(lia)) as [-> ->].
  exact H3.
Defined.

(** X16: once the 'exit' event of the child has been handled, whether a
    stop was pending or the exit came unexpectedly, a [stopRecording()] is
    rejected with "Not currently recording" and sends nothing to the
    child; and if a stop was pending, a timer callback that still ran
    would send nothing either. *)
Theorem stop_after_exit_is_rejected
    (stat : nat -> option Z) (iso : string) (t : Z) (r : Recorder) :
  startListener r = true \/ existsb pendingCall (calls r) = true ->
  let r' := childExit stat iso t r in
  isRecording (service r') = false /\
  stopRecording r' = inr notRecordingText /\
  (existsb pendingCall (calls r) = true ->
   forall i, signals (timeoutFires i r') = signals r).
Proof.
  intros H r'.
  assert (Hidle : isRecording (service r') = false).
  { unfold r', childExit, exitSync. simpl.
    destruct (existsb pendingCall (calls r)) eqn:Hp; [reflexivity|].
    destruct H as [H|H]; [|discriminate]. rewrite H. simpl.
    destruct (isRecording (service r)) eqn:Hr; [reflexivity|exact Hr]. }
  split; [exact Hidle|]. split.
  - unfold stopRecording. rewrite Hidle. reflexivity.
  - intros Hp i. unfold timeoutFires.
    destruct (calls r' !! i) as [c|]; [|reflexivity].
    destruct (timeoutDue c); [|reflexivity].
    unfold r', childExit, exitSync. simpl. rewrite Hp. reflexivity.
Qed.

(** ** The session invariant *)

(** X17: the fields of the session go together, and every operation keeps
    it so: [isRecording] is true exactly when a child is held, and then
    the file and the start time are set.  This holds for a new service and
    is kept by [startRecording()], by [stopRecording()], by the timer
    callback and by the 'exit' event. *)
Theorem session_fields_go_together
    (root : list string) (svc : CaptureService) :
  SessionOk svc ->
  SessionOk constructor /\
  (forall env w,
     SessionOk (snd (fst (startRecording root env svc w)))) /\
  (forall r, service r = svc ->
     (forall r', stopRecording r = inl r' -> SessionOk (service r')) /\
     (forall i, SessionOk (service (timeoutFires i r))) /\
     (forall stat iso t, SessionOk (service (childExit stat iso t r)))).
Proof.
  intros Hok.
  assert (Hidle : forall s, SessionOk (idle s)).
  { intros s. split; simpl.
    - split; [discriminate|intros [x Hx]; discriminate].
    - discriminate. }
  split.
  { split; simpl.
    - split; [discriminate|intros [x Hx]; discriminate].
    - discriminate. }
  split.
  - intros env w. unfold startRecording.
    destruct (isRecording svc); [exact Hok|].
    destruct (checkStreamHealth env w) as [[|] w1]; [|exact Hok].
    cbn [negb]. destruct (checkDiskSpace env w1) as [d w2].
    destruct (negb (sufficient d)); [exact Hok|]. simpl.
    split; simpl; [split; eauto|eauto].
  - intros r <-. split; [|split].
    + intros r' H. unfold stopRecording in H.
      destruct (negb (isRecording (service r))
                || negb (bool_decide (is_Some (recordingProcess (service r)))));
        [discriminate|].
      injection H as <-. unfold requestStop.
      destruct (stdin r); exact Hok.
    + intros i. unfold timeoutFires.
      destruct (calls r !! i) as [c|]; [|exact Hok].
      destruct (timeoutDue c); [|exact Hok]. simpl.
      destruct (bool_decide (is_Some (recordingProcess (service r))));
        exact Hok.
    + intros stat iso t. unfold childExit, exitSync. simpl.
      destruct (existsb pendingCall (calls r)); [apply Hidle|].
      destruct (startListener r && isRecording (service r));
        [apply Hidle|exact Hok].
Qed.

(** An unexpected exit of the capture child in the middle of a session. *)
Lemma stop_after_exit_is_rejected_witness :
  stopRecording
    (childExit (fun _ => None) "2024-05-06T07:09:10.000Z" 9000
       (recording 3%nat "/srv/captures/videos/video_1.mp4" 1000 Writable))
  = inr notRecordingText.
Proof.
  destruct (stop_after_exit_is_rejected (fun _ => None)
              "2024-05-06T07:09:10.000Z" 9000
              (recording 3%nat "/srv/captures/videos/video_1.mp4" 1000 Writable)
              (or_introl eq_refl)) as (_ & H & _).
  exact H.
Defined.

Lemma session_fields_go_together_witness :
  SessionOk (snd (fst (startRecording ["srv"%string] goodEnv constructor
                         (emptyWorld 5000)))).
Proof.
  assert (H0 : SessionOk constructor).
  { split; simpl.
    - split; [discriminate|intros [x Hx]; discriminate].
    - discriminate. }
  destruct (session_fields_go_together ["srv"%string] constructor H0)
    as (_ & H & _).
  apply H.
Defined.

End CaptureMore.

(* ===================================================================== *)
(** * Facts about the stream service                                      *)
(* ===================================================================== *)

Module StreamFacts.
Import Stream.

Lemma generated_config_detected (m : Mode) :
  includes (generateConfig m) "1280x960" && includes (generateConfig m) "scale="
  = match m with Binned => true | Normal => false end.
Proof. destruct m; vm_compute; reflexivity. Qed.

Lemma sameMode_eq (a b : Mode) : sameMode a b = true <-> a = b.
Proof.
  destruct a, b; split; intros H; try reflexivity; try discriminate;
    vm_compute in H; discriminate.
Qed.

Lemma status_of_generated (readError : string) (m : Mode) (svc : StreamService)
    (acts : list Action) :
  getBinningStatus readError svc
    {| configFile := Some (generateConfig m); actions := acts |}
  = ({| success := true;
        binning := match m with Binned => true | Normal => false end;
        statusMode := modeName m; error := None |},
     {| currentMode := m |}).
Proof.
  unfold getBinningStatus. cbn [configFile].
  rewrite (generated_config_detected m). destruct m; reflexivity.
Qed.

(** X18: a [setBinning(enabled)] that changes the mode writes the
    configuration generated for the new mode, asks for the running ffmpeg
    to be killed, whether or not that works, waits 500 ms and remembers
    the mode; [getBinningStatus()] then reads the mode back from the file:
    it reports [binning] equal to [enabled]. *)
Theorem setBinning_then_status
    (env : Env) (enabled : bool) (svc : StreamService) (d : Disk)
    (readError : string) :
  writeError env = None ->
  currentMode svc <> modeOf enabled ->
  let '(res, svc', d') := setBinning env enabled svc d in
  (exists msg, res = inl {| setSuccess := true;
                            setMode := modeName (modeOf enabled);
                            setBinningField := Some enabled;
                            message := msg |}) /\
  configFile d' = Some (generateConfig (modeOf enabled)) /\
  actions d' = actions d ++ [WriteConfig (generateConfig (modeOf enabled));
                             Pkill; Sleep 500] /\
  currentMode svc' = modeOf enabled /\
  getBinningStatus readError svc' d'
    = ({| success := true; binning := enabled;
          statusMode := modeName (modeOf enabled); error := None |}, svc').
Proof.
  intros Hw Hne. unfold setBinning. rewrite Hw.
  destruct (sameMode (modeOf enabled) (currentMode svc)) eqn:Hs.
  { apply sameMode_eq in Hs. congruence. }
  split; [eexists; reflexivity|]. repeat split.
  rewrite status_of_generated. destruct enabled; reflexivity.
Qed.

Lemma setBinning_then_status_witness :
  let env := {| writeError := None; pkillFails := true |} in
  let d := {| configFile := None; actions := [] |} in
  let '(_, svc', d') := setBinning env true constructor d in
  getBinningStatus "ENOENT" svc' d'
  = ({| success := true; binning := true; statusMode := "binned";
        error := None |}, svc').
Proof.
  pose proof (setBinning_then_status
                {| writeError := None; pkillFails := true |} true constructor
                {| configFile := None; actions := [] |} "ENOENT"
                eq_refl ltac:(discriminate)) as H.
  cbv zeta.
  destruct (setBinning {| writeError := None; pkillFails := true |} true
              constructor {| configFile := None; actions := [] |})
    as [[res svc'] d'].
  destruct H as (_ & _ & _ & _ & H). exact H.
Defined.

(** X19: [setBinning] decides from the mode it remembers, not from the
    file.  After a [getBinningStatus()] that could read the file, whatever
    the file holds, [setBinning(enabled)] leaves a configuration for which
    [getBinningStatus()] reports [binning] equal to [enabled].  Without
    that reading, a new service, which remembers "normal", leaves a binned
    configuration alone when asked to disable binning, and the status
    still reports binning. *)
Theorem status_then_setBinning
    (env : Env) (enabled : bool) (svc : StreamService) (d : Disk)
    (content readError : string) :
  writeError env = None ->
  configFile d = Some content ->
  let svc1 := snd (getBinningStatus readError svc d) in
  let '(res, svc2, d2) := setBinning env enabled svc1 d in
  binning (fst (getBinningStatus readError svc2 d2)) = enabled /\
  currentMode svc2 = modeOf enabled /\
  (let stale := {| configFile := Some (generateConfig Binned);
                   actions := [] |} in
   let '(_, svc3, d3) := setBinning env false constructor stale in
   d3 = stale /\
   binning (fst (getBinningStatus readError svc3 d3)) = true).
Proof.
  intros Hw Hc svc1.
  assert (Hstale :
    let stale := {| configFile := Some (generateConfig Binned);
                    actions := [] |} in
    let '(_, svc3, d3) := setBinning env false constructor stale in
    d3 = stale /\
    binning (fst (getBinningStatus readError svc3 d3)) = true).
  { cbv zeta. unfold setBinning. cbn [modeOf constructor currentMode].
    change (sameMode Normal Normal) with true. cbv iota.
    split; [reflexivity|]. rewrite status_of_generated. reflexivity. }
  unfold svc1, getBinningStatus, setBinning. rewrite Hc, Hw.
  cbn [snd currentMode].
  set (isBinned := includes content "1280x960" && includes content "scale=").
  destruct (sameMode (modeOf enabled) (modeOf isBinned)) eqn:Hs.
  - apply sameMode_eq in Hs. rewrite Hc. cbn [fst binning currentMode].
    fold isBinned. split; [|split; [congruence|exact Hstale]].
    destruct enabled, isBinned; simpl in Hs; congruence.
  - cbn [configFile fst binning currentMode].
    rewrite (generated_config_detected (modeOf enabled)).
    split; [destruct enabled; reflexivity|]. split; [reflexivity|exact Hstale].
Qed.

Lemma status_then_setBinning_witness :
  let env := {| writeError := None; pkillFails := false |} in
  let d := {| configFile := Some (generateConfig Binned); actions := [] |} in
  let svc1 := snd (getBinningStatus "ENOENT" constructor d) in
  let '(_, svc2, d2) := setBinning env false svc1 d in
  binning (fst (getBinningStatus "ENOENT" svc2 d2)) = false.
Proof.
  pose proof (status_then_setBinning
                {| writeError := None; pkillFails := false |} false constructor
                {| configFile := Some (generateConfig Binned); actions := [] |}
                (generateConfig Binned) "ENOENT" eq_refl eq_refl) as H.
  cbv zeta in H |- *.
  destruct (setBinning {| writeError := None; pkillFails := false |} false
              (snd (getBinningStatus "ENOENT" constructor
                      {| configFile := Some (generateConfig Binned);
                         actions := [] |}))
              {| configFile := Some (generateConfig Binned); actions := [] |})
    as [[res svc2] d2].
  destruct H as (H & _). exact H.
Defined.

End StreamFacts.

(* ===================================================================== *)
(** * Facts about the listing                                             *)
(* ===================================================================== *)

Module ListingFacts.
Import NodePath Capture Listing.

Lemma insertNewest_In (x y : Entry) (l : list Entry) :
  In y (insertNewest x l) <-> y = x \/ In y l.
Proof.
  induction l as [|z l IH]; simpl; [intuition|].
  destruct (created z <=? created x); simpl; [intuition|].
  rewrite IH. intuition.
Qed.

Lemma insertNewest_length (x : Entry) (l : list Entry) :
  length (insertNewest x l) = S (length l).
Proof.
  induction l as [|z l IH]; simpl; [reflexivity|].
  destruct (created z <=? created x); simpl; [reflexivity|now rewrite IH].
Qed.

Lemma insertNewest_sorted (x : Entry) (l : list Entry) :
  StronglySorted newerFirst l -> StronglySorted newerFirst (insertNewest x l).
Proof.
  induction 1 as [|z l Hl IH Hz]; simpl.
  - repeat constructor.
  - destruct (created z <=? created x) eqn:E.
    + apply Z.leb_le in E. constructor; [constructor; assumption|].
      constructor; [exact E|].
      rewrite List.Forall_forall in Hz |- *. intros y Hy.
      specialize (Hz y Hy). unfold newerFirst in *. lia.
    + apply Z.leb_gt in E. constructor; [exact IH|].
      rewrite List.Forall_forall in Hz |- *. intros y Hy.
      apply insertNewest_In in Hy as [->|Hy]; [unfold newerFirst; lia|auto].
Qed.

Lemma sortNewestFirst_sorted (l : list Entry) :
  StronglySorted newerFirst (sortNewestFirst l).
Proof.
  induction l as [|x l IH]; simpl; [constructor|].
  now apply insertNewest_sorted.
Qed.

Lemma sortNewestFirst_In (y : Entry) (l : list Entry) :
  In y (sortNewestFirst l) <-> In y l.
Proof.
  induction l as [|x l IH]; simpl; [reflexivity|].
  rewrite insertNewest_In, IH. intuition.
Qed.

Lemma sortNewestFirst_length (l : list Entry) :
  length (sortNewestFirst l) = length l.
Proof.
  induction l as [|x l IH]; simpl; [reflexivity|].
  now rewrite insertNewest_length, IH.
Qed.

Lemma omap_length_le {A B} (f : A -> option B) (l : list A) :
  (length (omap f l) <= length l)%nat.
Proof.
  induction l as [|a l IH]; [reflexivity|].
  change (omap f (a :: l)) with
    (match f a with Some b => b :: omap f l | None => omap f l end).
  cbn [length]. destruct (f a); cbn [length]; lia.
Qed.

Lemma omap_In {A B} (f : A -> option B) (l : list A) (b : B) :
  In b (omap f l) <-> exists a, In a l /\ f a = Some b.
Proof.
  induction l as [|a l IH].
  - simpl. split; [intros []|intros (a & [] & _)].
  - change (omap f (a :: l)) with
      (match f a with Some b => b :: omap f l | None => omap f l end).
    destruct (f a) as [b'|] eqn:E; simpl; rewrite ?IH; split.
    + intros [<-|(a' & Ha & Hf)]; eauto.
    + intros (a' & [<-|Ha] & Hf); [left; congruence|right; eauto].
    + intros (a' & Ha & Hf); eauto.
    + intros (a' & [<-|Ha] & Hf); [congruence|eauto].
Qed.

Lemma insertNewest_filter (t : Z) (x : Entry) (l : list Entry) :
  List.filter (fun e => created e =? t) (insertNewest x l)
  = List.filter (fun e => created e =? t) (x :: l).
Proof.
  induction l as [|y l IH]; [reflexivity|].
  cbn [insertNewest]. destruct (created y <=? created x) eqn:E; [reflexivity|].
  apply Z.leb_gt in E. cbn [List.filter] in IH |- *. rewrite IH.
  destruct (created x =? t) eqn:Ex; [|reflexivity].
  apply Z.eqb_eq in Ex.
  destruct (created y =? t) eqn:Ey; [|reflexivity].
  apply Z.eqb_eq in Ey. lia.
Qed.

(** X20: a listing of a directory is sorted newest first, and it holds
    exactly the names of the directory that end with the extension and
    whose [stat] worked, each with the size and birth time [stat] gave:
    names whose [stat] fails are left out, and so is everything when the
    directory cannot be read.  The listing is never longer than the
    directory.  [listCaptures] gives such a listing of the ".jpg" names
    of the photos directory for the types "all" and "photos", one of the
    ".mp4" names of the videos directory for "all" and "videos", and an
    empty list wherever the type asks for nothing. *)
Theorem listing_is_sorted_and_exact
    (root : list string) (files : Files) (dir extension : string) :
  let l := listDir files dir extension in
  let P := listDir files (PHOTOS_DIR root) ".jpg" in
  let V := listDir files (VIDEOS_DIR root) ".mp4" in
  (forall type,
     listCaptures root files type
     = {| photos := if bool_decide (type = "all" \/ type = "photos")%string
                    then P else [];
          videos := if bool_decide (type = "all" \/ type = "videos")%string
                    then V else [] |}) /\
  StronglySorted newerFirst l /\
  (forall e, In e l <->
     exists names, readdir files dir = Some names /\
       In (filename e) names /\
       endsWith (filename e) extension = true /\
       statOf files (join dir (filename e)) = Some (size e, created e)) /\
  (length l <= length (default [] (readdir files dir)))%nat.
Proof.
  intros l P V. split.
  { intros type. unfold listCaptures. fold P V. f_equal.
    - destruct (String.eqb_spec type "all") as [->|H1];
        [now rewrite bool_decide_eq_true_2 by auto|].
      destruct (String.eqb_spec type "photos") as [->|H2];
        [now rewrite bool_decide_eq_true_2 by auto|].
      now rewrite bool_decide_eq_false_2 by tauto.
    - destruct (String.eqb_spec type "all") as [->|H1];
        [now rewrite bool_decide_eq_true_2 by auto|].
      destruct (String.eqb_spec type "videos") as [->|H2];
        [now rewrite bool_decide_eq_true_2 by auto|].
      now rewrite bool_decide_eq_false_2 by tauto. }
  clear P V. unfold l, listDir. split; [|split].
  - destruct (readdir files dir); [apply sortNewestFirst_sorted|constructor].
  - intros e. destruct (readdir files dir) as [names|].
    + rewrite sortNewestFirst_In, omap_In. split.
      * intros (name & Hin & Hst). apply filter_In in Hin as [Hin Hext].
        unfold statEntry in Hst.
        destruct (statOf files (join dir name)) as [[sz birth]|] eqn:E;
          [|discriminate].
        injection Hst as <-. simpl. exists names. rewrite E. auto.
      * intros (names' & [= <-] & Hin & Hext & Hst).
        exists (filename e). split; [apply filter_In; auto|].
        unfold statEntry. rewrite Hst. now destruct e.
    + split; [intros []|intros (names & [=] & _)].
  - destruct (readdir files dir) as [names|]; [|simpl; lia].
    rewrite sortNewestFirst_length. simpl.
    etransitivity; [apply omap_length_le|]. apply filter_length_le.
Qed.

(** X21: the sort is stable: the entries of a listing that share a birth
    time stand in the order in which the directory gave their names. *)
Theorem equal_birth_times_keep_directory_order
    (files : Files) (dir extension : string) (t : Z) :
  List.filter (fun e => created e =? t) (listDir files dir extension)
  = List.filter (fun e => created e =? t)
      (omap (statEntry files dir)
         (List.filter (fun f => endsWith f extension)
            (default [] (readdir files dir)))).
Proof.
  unfold listDir. destruct (readdir files dir) as [names|]; [|reflexivity].
  change (default [] (Some names)) with names.
  generalize (omap (statEntry files dir)
                (List.filter (fun f => endsWith f extension) names)).
  intros l. induction l as [|x l IH]; [reflexivity|].
  cbn [sortNewestFirst fold_right]. fold (sortNewestFirst l).
  rewrite insertNewest_filter. cbn [List.filter]. now rewrite IH.
Qed.

End ListingFacts.

(* ===================================================================== *)
(** * Facts about the camera controller                                   *)
(* ===================================================================== *)

Module V4L2Facts.
Import V4L2.

Local Open Scope string_scope.

Section Controller.

Variable exec : Exec.
Variable this : V4L2Controller.

Lemma when_false (m : M unit) (log : list string) :
  when false m log = (inl tt, log).
Proof. reflexivity. Qed.

Lemma manualMode_cases (name : string) :
  (name = "exposure_time_absolute" \/ name = "white_balance_temperature" \/
   name = "focus_absolute") \/
  (String.eqb name "exposure_time_absolute" = false /\
   String.eqb name "white_balance_temperature" = false /\
   String.eqb name "focus_absolute" = false).
Proof.
  destruct (String.eqb name "exposure_time_absolute") eqn:E1;
    [apply String.eqb_eq in E1; auto|].
  destruct (String.eqb name "white_balance_temperature") eqn:E2;
    [apply String.eqb_eq in E2; auto|].
  destruct (String.eqb name "focus_absolute") eqn:E3;
    [apply String.eqb_eq in E3; auto|].
  right. auto.
Qed.

(** [setControl] runs the commands of [commandsOf] in order and stops at
    the first that fails. *)
Lemma setControl_run (name : string) (value : Z) (log : list string) :
  setControl exec this name value log
  = match commandsOf this name value with
    | [main] =>
        match exec log main with
        | Some m => (inr ("Command failed: " ++ m), (log ++ [main])%list)
        | None => (inl (name, value), (log ++ [main])%list)
        end
    | [pre; main] =>
        match exec log pre with
        | Some m => (inr ("Command failed: " ++ m), (log ++ [pre])%list)
        | None =>
            match exec (log ++ [pre])%list main with
            | Some m =>
                (inr ("Command failed: " ++ m), (log ++ [pre; main])%list)
            | None => (inl (name, value), (log ++ [pre; main])%list)
            end
        end
    | _ => (inr "", log)
    end.
Proof.
  unfold setControl, commandsOf, manualMode.
  destruct (manualMode_cases name) as [[->| [->| ->]]|(E1 & E2 & E3)].
  1-3: unfold when; cbn [String.eqb Ascii.eqb Bool.eqb andb];
       unfold bind, runCommand, ret; cbn [app];
       (destruct (exec log _); [reflexivity|]);
       destruct (exec _ _); rewrite <- ?app_assoc; reflexivity.
  rewrite E1, E2, E3. unfold when, bind, runCommand, ret. cbn [app].
  destruct (exec log _); reflexivity.
Qed.

Lemma commandsOf_length (name : string) (value : Z) :
  (1 <= length (commandsOf this name value) <= 2)%nat.
Proof.
  unfold commandsOf. destruct (manualMode name); simpl; lia.
Qed.

(** What one [setControl] adds to the log: a beginning of its commands,
    the first included; all of them when it resolves. *)
Lemma setControl_log (name : string) (value : Z) (log : list string) :
  exists new,
    snd (setControl exec this name value log) = (log ++ new)%list /\
    In (hd "" (commandsOf this name value)) new /\
    (1 <= length new <= 2)%nat /\
    (forall r, fst (setControl exec this name value log) = inl r ->
               new = commandsOf this name value).
Proof.
  rewrite setControl_run.
  pose proof (commandsOf_length name value) as Hlen.
  destruct (commandsOf this name value) as [|c1 [|c2 [|c3 cs]]];
    simpl in Hlen; try lia.
  - destruct (exec log c1); (exists [c1]); simpl;
      (split; [reflexivity|split; [now left|split; [lia|]]]);
      intros r Hr; try discriminate; reflexivity.
  - destruct (exec log c1).
    + exists [c1]. simpl.
      split; [reflexivity|split; [now left|split; [lia|]]].
      intros r Hr; discriminate.
    + destruct (exec _ c2); (exists [c1; c2]); simpl;
        (split; [reflexivity|split; [now left|split; [lia|]]]);
        intros r Hr; try discriminate; reflexivity.
Qed.

Lemma applyEntries_spec (entries : list (string * Z)) :
  forall (results : list PresetResult) (log : list string),
  exists rs new,
    applyEntries exec this entries results log
      = (inl (results ++ rs)%list, (log ++ new)%list) /\
    map entryOf rs = entries /\
    (forall r, In r rs -> (success r = true <-> error r = None)) /\
    (forall c, In c (firstCommands this entries) -> In c new) /\
    (length entries <= length new <= 2 * length entries)%nat /\
    ((forall r, In r rs -> success r = true) -> new = allCommands this entries).
Proof.
  induction entries as [|[c v] rest IH]; intros results log.
  - exists [], []. simpl. rewrite !app_nil_r.
    repeat split; try tauto; try lia; try discriminate.
  - cbn [applyEntries].
    destruct (setControl_log c v log) as (new1 & Hlog & Hfirst & Hlen & Hall).
    destruct (setControl exec this c v log) as [[r|msg] log1] eqn:Es;
      cbn [fst snd] in Hlog, Hall; subst log1.
    + destruct (IH (results ++ [{| control := c; value := v; success := true;
                                   error := None |}])%list (log ++ new1)%list)
        as (rs & new & -> & Hmap & Hiff & Hin & Hl & Hs).
      exists ({| control := c; value := v; success := true; error := None |}
              :: rs), (new1 ++ new)%list.
      rewrite <- !app_assoc. split; [reflexivity|].
      split; [simpl; now rewrite Hmap|].
      split; [intros r' [<-|Hr]; [simpl; tauto|auto]|].
      split; [intros x [<-|Hx]; apply in_or_app; [left; exact Hfirst|right; auto]|].
      split; [rewrite length_app; simpl; lia|].
      intros Hok. unfold allCommands. cbn [map concat fst snd].
      rewrite (Hall r eq_refl). f_equal. apply Hs.
      intros r' Hr'. apply Hok. now right.
    + destruct (IH (results ++ [{| control := c; value := v; success := false;
                                   error := Some msg |}])%list
                  (log ++ new1)%list)
        as (rs & new & -> & Hmap & Hiff & Hin & Hl & Hs).
      exists ({| control := c; value := v; success := false;
                 error := Some msg |} :: rs), (new1 ++ new)%list.
      rewrite <- !app_assoc. split; [reflexivity|].
      split; [simpl; now rewrite Hmap|].
      split; [intros r' [<-|Hr]; [simpl; split; discriminate|auto]|].
      split; [intros x [<-|Hx]; apply in_or_app; [left; exact Hfirst|right; auto]|].
      split; [rewrite length_app; simpl; lia|].
      intros Hok. specialize (Hok _ (or_introl eq_refl)). discriminate.
Qed.

Lemma assoc_None {A : Type} (key : string) (l : list (string * A)) :
  ~ In key (map fst l) -> assoc key l = None.
Proof.
  induction l as [|[k v] l IH]; [reflexivity|]. simpl. intros Hn.
  destruct (String.eqb key k) eqn:E.
  - apply String.eqb_eq in E. subst. tauto.
  - apply IH. tauto.
Qed.

(** X22: [applyPreset] of a preset never rejects.  It gives one result
    per control of the preset, in the order of the preset and with its
    values; a result fails exactly when it carries an error message.  A
    control that cannot be set does not stop the loop: the first command
    of every control is run, so there are at least as many commands as
    controls and at most twice as many, and when every result succeeds the
    commands run are exactly those of all the controls in order. *)
Theorem applyPreset_tries_every_control
    (presetName : string) (entries : list (string * Z)) (log : list string) :
  presetEntries presetName = Some entries ->
  exists results new,
    applyPreset exec this presetName log
      = (inl (presetName, results), (log ++ new)%list) /\
    map entryOf results = entries /\
    (forall r, In r results -> (success r = true <-> error r = None)) /\
    (forall c, In c (firstCommands this entries) -> In c new) /\
    (length entries <= length new <= 2 * length entries)%nat /\
    ((forall r, In r results -> success r = true) ->
     new = allCommands this entries).
Proof.
  intros He. unfold applyPreset. rewrite He. unfold bind, ret.
  destruct (applyEntries_spec entries [] log)
    as (rs & new & -> & Hmap & Hiff & Hin & Hl & Hs).
  exists rs, new. simpl. auto 10.
Qed.

(** X23: a name that is no preset runs no command.  [applyPreset] rejects
    it with "Unknown preset: " and the name, unless the name is one that
    every object inherits, such as "constructor" or "toString": then the
    lookup finds the inherited value, and [applyPreset] resolves with an
    empty list of results. *)
Theorem applyPreset_of_no_preset (presetName : string) (log : list string) :
  ~ In presetName getPresets ->
  applyPreset exec this presetName log
  = if bool_decide (In presetName objectPrototype)
    then (inl (presetName, []), log)
    else (inr ("Unknown preset: " ++ presetName), log).
Proof.
  intros Hn. unfold applyPreset, presetEntries.
  rewrite (assoc_None _ _ Hn).
  destruct (List.existsb (String.eqb presetName) objectPrototype) eqn:E.
  - rewrite bool_decide_eq_true_2; [reflexivity|].
    apply existsb_exists in E as (x & Hx & Ex).
    apply String.eqb_eq in Ex. now subst.
  - rewrite bool_decide_eq_false_2; [reflexivity|].
    intros Hin. apply Bool.not_true_iff_false in E. apply E.
    apply existsb_exists. exists presetName. split; [exact Hin|].
    apply String.eqb_refl.
Qed.

(** X24: exposure time, white balance temperature and absolute focus are
    set only after their control has been switched to manual.  When that
    first command fails, [setControl] rejects with its message and the
    value is not set; otherwise the value is set next, and [setControl]
    resolves with the name and the value unless that command fails. *)
Theorem setControl_switches_to_manual_first
    (name assignment : string) (value : Z) (log : list string) :
  manualMode name = Some assignment ->
  let pre := ctl this assignment in
  let main := ctl this (name ++ "=" ++ pretty value) in
  setControl exec this name value log
  = match exec log pre with
    | Some m => (inr ("Command failed: " ++ m), (log ++ [pre])%list)
    | None =>
        match exec (log ++ [pre])%list main with
        | Some m => (inr ("Command failed: " ++ m), (log ++ [pre; main])%list)
        | None => (inl (name, value), (log ++ [pre; main])%list)
        end
    end.
Proof.
  intros Hm. cbv zeta. rewrite setControl_run. unfold commandsOf.
  rewrite Hm. reflexivity.
Qed.

End Controller.

Lemma applyPreset_tries_every_control_witness :
  exists results new,
    applyPreset (fun _ cmd =>
                   if String.eqb cmd "v4l2-ctl -d /dev/video0 -c gain=400"
                   then Some "VIDIOC_S_EXT_CTRLS: failed" else None)
      constructor "focusing" []
      = (inl ("focusing", results), new) /\
    length results = 7%nat.
Proof.
  destruct (applyPreset_tries_every_control
              (fun _ cmd =>
                 if String.eqb cmd "v4l2-ctl -d /dev/video0 -c gain=400"
                 then Some "VIDIOC_S_EXT_CTRLS: failed" else None)
              constructor "focusing" _ [] eq_refl)
    as (results & new & H & Hmap & _).
  exists results, new. split; [exact H|].
  rewrite <- (length_map entryOf), Hmap. reflexivity.
Defined.

Lemma applyPreset_of_no_preset_witness :
  applyPreset (fun _ _ => None) constructor "nebula" []
  = (inr "Unknown preset: nebula", []).
Proof.
  rewrite applyPreset_of_no_preset by (vm_compute; intuition discriminate).
  rewrite bool_decide_eq_false_2; [reflexivity|].
  vm_compute. intuition discriminate.
Defined.

Lemma setControl_switches_to_manual_first_witness :
  setControl (fun _ _ => None) constructor "focus_absolute" 300 []
  = (inl ("focus_absolute", 300),
     ["v4l2-ctl -d /dev/video0 -c focus_automatic_continuous=0";
      "v4l2-ctl -d /dev/video0 -c focus_absolute=300"]).
Proof.
  exact (setControl_switches_to_manual_first (fun _ _ => None) constructor
           "focus_absolute" "focus_automatic_continuous=0" 300 [] eq_refl).
Defined.

End V4L2Facts.
